(** * SECOP relay: a shallow embedding of [server.js]

    The server is an Express application with three JSON endpoints
    ([/raw], [/filtered], [/analyzed]).  Each of them validates an optional
    [fecha] query parameter, asks the SECOP II open-data API for records and,
    for [/analyzed], forwards the records to a chat-completion API.

    The embedding follows the source function by function.  JavaScript
    strings are sequences of UTF-16 code units, [Date] objects hold a time
    value in milliseconds, arrays live in a heap of mutable objects, and
    the outbound calls ([axios.get], [axios.post], [new Date()],
    [console.error]) are answered by an environment and recorded in a
    trace. *)

From Stdlib Require Import ZArith NArith List Lia Bool String Ascii.
From Stdlib Require Import DecimalString.
From stdpp Require Import base option list gmap.

Local Open Scope Z_scope.

(* ====================================================================== *)
(** ** JavaScript strings                                                  *)
(* ====================================================================== *)

Module JsString.

(** A string is its list of UTF-16 code units, a [list N].
    An ASCII literal as a JavaScript string: *)
Definition js (s : string) : list N :=
  map N_of_ascii (list_ascii_of_string s).

Definition LF : N := 10%N.          (* "\n" *)
Definition DQ : N := 34%N.          (* the double quote *)
Definition BACKTICK : N := 96%N.

(** [String.prototype.startsWith] *)
Fixpoint starts_with (p s : list N) : bool :=
  match p, s with
  | [], _ => true
  | _ :: _, [] => false
  | a :: p', b :: s' => (a =? b)%N && starts_with p' s'
  end.

(** [Array.prototype.join] on an array of strings. *)
Fixpoint join (sep : list N) (xs : list (list N)) : list N :=
  match xs with
  | [] => []
  | [x] => x
  | x :: rest => x ++ sep ++ join sep rest
  end.

(** [String(n)] for an integer [n]: its decimal digits, with a minus
    sign for a negative one. *)
Definition of_Z (n : Z) : list N :=
  js (NilZero.string_of_int (Z.to_int n)).

(** [s.padStart(len, fill)] for a one-unit [fill]. *)
Definition padStart (len : nat) (fill : N) (s : list N) : list N :=
  repeat fill (len - length s) ++ s.

(** The code units [String.prototype.trim] removes: WhiteSpace and
    LineTerminator of ECMA-262. *)
Definition is_trim_space (c : N) : bool :=
  ((c =? 9) || (c =? 10) || (c =? 11) || (c =? 12) || (c =? 13)
   || (c =? 32) || (c =? 160) || (c =? 5760)
   || ((8192 <=? c) && (c <=? 8202))
   || (c =? 8232) || (c =? 8233) || (c =? 8239) || (c =? 8287)
   || (c =? 12288) || (c =? 65279))%N.

Fixpoint trimStart (s : list N) : list N :=
  match s with
  | c :: s' => if is_trim_space c then trimStart s' else s
  | [] => []
  end.

Definition trimEnd (s : list N) : list N := rev (trimStart (rev s)).

Definition trim (s : list N) : list N := trimEnd (trimStart s).

Definition is_digit (c : N) : bool := ((48 <=? c) && (c <=? 57))%N.

Definition digit_value (c : N) : Z := Z.of_N c - 48.

End JsString.

Import JsString.

(* ====================================================================== *)
(** ** Dates: the day and time arithmetic of ECMA-262                      *)
(* ====================================================================== *)

Module JsDate.

Definition msPerDay : Z := 86400000.

Definition Day (t : Z) : Z := t / msPerDay.
Definition TimeWithinDay (t : Z) : Z := t mod msPerDay.

Definition DaysInYear (y : Z) : Z :=
  if negb (y mod 4 =? 0) then 365
  else if negb (y mod 100 =? 0) then 366
  else if negb (y mod 400 =? 0) then 365
  else 366.

Definition DayFromYear (y : Z) : Z :=
  365 * (y - 1970) + (y - 1969) / 4 - (y - 1901) / 100 + (y - 1601) / 400.

(** The year of a day number: the largest [y] with [DayFromYear y <= d]
    (lemma [YearFromDay_spec]).  The quotient by the mean year length
    is off by at most one. *)
Definition YearFromDay (d : Z) : Z :=
  let y := 1970 + (d * 400) / 146097 in
  if DayFromYear (y + 1) <=? d then y + 1
  else if DayFromYear y <=? d then y
  else y - 1.

Definition YearFromTime (t : Z) : Z := YearFromDay (Day t).

Definition InLeapYear (t : Z) : Z :=
  if DaysInYear (YearFromTime t) =? 366 then 1 else 0.

Definition DayWithinYear (t : Z) : Z :=
  Day t - DayFromYear (YearFromTime t).

(** First day-within-year of month [m] (0 = January), [leap] being 0 or 1. *)
Definition MonthStart (m leap : Z) : Z :=
  match m with
  | 0 => 0
  | 1 => 31
  | 2 => 59 + leap
  | 3 => 90 + leap
  | 4 => 120 + leap
  | 5 => 151 + leap
  | 6 => 181 + leap
  | 7 => 212 + leap
  | 8 => 243 + leap
  | 9 => 273 + leap
  | 10 => 304 + leap
  | _ => 334 + leap
  end.

Definition MonthFromTime (t : Z) : Z :=
  let d := DayWithinYear t in
  let leap := InLeapYear t in
  if d <? 31 then 0
  else if d <? 59 + leap then 1
  else if d <? 90 + leap then 2
  else if d <? 120 + leap then 3
  else if d <? 151 + leap then 4
  else if d <? 181 + leap then 5
  else if d <? 212 + leap then 6
  else if d <? 243 + leap then 7
  else if d <? 273 + leap then 8
  else if d <? 304 + leap then 9
  else if d <? 334 + leap then 10
  else 11.

Definition DateFromTime (t : Z) : Z :=
  DayWithinYear t - MonthStart (MonthFromTime t) (InLeapYear t) + 1.

Definition WeekDay (t : Z) : Z := (Day t + 4) mod 7.

(** [MakeDay(year, month, date)]: the day number of the first of the
    month, plus [date - 1]; [month] may lie outside 0..11 and [date]
    outside the month. *)
Definition MakeDay (year month date : Z) : Z :=
  let ym := year + month / 12 in
  let mn := month mod 12 in
  let leap := if DaysInYear ym =? 366 then 1 else 0 in
  DayFromYear ym + MonthStart mn leap + date - 1.

Definition MakeDate (day time : Z) : Z := day * msPerDay + time.

(** [TimeClip]: a time value beyond +-8.64e15 ms is NaN ([None]). *)
Definition maxTime : Z := 8640000000000000.

Definition TimeClip (t : Z) : option Z :=
  if Z.abs t <=? maxTime then Some t else None.

(** A [Date] object: its time value (UTC milliseconds since the epoch),
    or [None] for an invalid date.  The local time zone is a fixed
    offset [tza] from UTC, as in Colombia (UTC-5, no daylight saving). *)
Definition t := option Z.

Definition LocalTime (tza tv : Z) : Z := tv + tza.
Definition UTC (tza lt : Z) : Z := lt - tza.

Definition getDay (tza : Z) (d : t) : option Z :=
  tv ← d; Some (WeekDay (LocalTime tza tv)).
Definition getFullYear (tza : Z) (d : t) : option Z :=
  tv ← d; Some (YearFromTime (LocalTime tza tv)).
Definition getMonth (tza : Z) (d : t) : option Z :=
  tv ← d; Some (MonthFromTime (LocalTime tza tv)).
Definition getDate (tza : Z) (d : t) : option Z :=
  tv ← d; Some (DateFromTime (LocalTime tza tv)).

(** [d.setDate(dt)]: the new time value of [d]. *)
Definition setDate (tza : Z) (d : t) (dt : Z) : t :=
  tv ← d;
  let lt := LocalTime tza tv in
  let newDate :=
    MakeDate (MakeDay (YearFromTime lt) (MonthFromTime lt) dt)
             (TimeWithinDay lt) in
  TimeClip (UTC tza newDate).

End JsDate.

(* ====================================================================== *)
(** ** [getPreviousBusinessDay]                                            *)
(* ====================================================================== *)

(** A number that is an integer or NaN ([None]), which is all the date
    code computes with. *)
Definition num_sub (a : option Z) (b : Z) : option Z := x ← a; Some (x - b).
Definition num_add (a : option Z) (b : Z) : option Z := x ← a; Some (x + b).

Definition num_strict_eq (a : option Z) (k : Z) : bool :=
  match a with Some x => x =? k | None => false end.

Definition String_of_num (a : option Z) : list N :=
  match a with Some x => of_Z x | None => js "NaN" end.

Definition setDate_num (tza : Z) (d : JsDate.t) (dt : option Z) : JsDate.t :=
  match dt with Some n => JsDate.setDate tza d n | None => None end.

(** The body of [getPreviousBusinessDay], with [now] the time value that
    [new Date()] returned. *)
Definition previousBusinessDay_of (tza now : Z) : list N :=
  let today : JsDate.t := Some now in
  let dayOfWeek := JsDate.getDay tza today in
  let daysBack := 1 in
  let daysBack := if num_strict_eq dayOfWeek 1 then 3 else daysBack in
  let daysBack := if num_strict_eq dayOfWeek 0 then 2 else daysBack in
  let previousDay : JsDate.t := today in
  let previousDay :=
    setDate_num tza previousDay (num_sub (JsDate.getDate tza today) daysBack) in
  let yyyy := JsDate.getFullYear tza previousDay in
  let mm := padStart 2 48 (String_of_num (num_add (JsDate.getMonth tza previousDay) 1)) in
  let dd := padStart 2 48 (String_of_num (JsDate.getDate tza previousDay)) in
  String_of_num yyyy ++ js "-" ++ mm ++ js "-" ++ dd.

(* ====================================================================== *)
(** ** Regular expressions                                                 *)
(* ====================================================================== *)

Module Regex.

(** The three regular expressions of the program are sequences of
    single-unit atoms; the only optional atom is a last one, so that a
    greedy match never has to be undone. *)
Inductive atom : Type :=
| Digit                (* \d : 0-9 *)
| Lit (c : N)          (* a literal code unit *)
| OptLit (c : N).      (* c? *)

(** Match the atoms at the start of [s]; the result is what follows the
    match. *)
Fixpoint match_here (re : list atom) (s : list N) : option (list N) :=
  match re with
  | [] => Some s
  | Digit :: re' =>
      match s with
      | c :: s' => if is_digit c then match_here re' s' else None
      | [] => None
      end
  | Lit a :: re' =>
      match s with
      | c :: s' => if (c =? a)%N then match_here re' s' else None
      | [] => None
      end
  | OptLit a :: re' =>
      match s with
      | c :: s' => if (c =? a)%N then match_here re' s' else match_here re' s
      | [] => match_here re' s
      end
  end.

(** [/^re$/.test(s)] *)
Definition test_anchored (re : list atom) (s : list N) : bool :=
  match match_here re s with
  | Some [] => true
  | _ => false
  end.

(** [s.replace(/re/, '')]: the leftmost match is removed. *)
Fixpoint remove_first (re : list atom) (s : list N) : list N :=
  match match_here re s with
  | Some rest => rest
  | None =>
      match s with
      | [] => []
      | c :: s' => c :: remove_first re s'
      end
  end.

(** [s.replace(/re$/, '')]: the leftmost match that ends the string is
    removed. *)
Fixpoint remove_first_at_end (re : list atom) (s : list N) : list N :=
  match match_here re s with
  | Some [] => []
  | _ =>
      match s with
      | [] => []
      | c :: s' => c :: remove_first_at_end re s'
      end
  end.

Definition lits (s : list N) : list atom := map Lit s.

End Regex.

(* ====================================================================== *)
(** ** [isValidDateFormat]                                                 *)
(* ====================================================================== *)

(** [/^\d{4}-\d{2}-\d{2}$/] *)
Definition date_regex : list Regex.atom :=
  [Regex.Digit; Regex.Digit; Regex.Digit; Regex.Digit; Regex.Lit 45;
   Regex.Digit; Regex.Digit; Regex.Lit 45; Regex.Digit; Regex.Digit]%N.

Definition digits_value (ds : list N) : Z :=
  fold_left (fun acc c => acc * 10 + digit_value c) ds 0.

(** [DayComposer::IsMonth] and [DayComposer::IsDay] of V8's date
    parser. *)
Definition IsMonth (x : Z) : bool := (1 <=? x) && (x <=? 12).
Definition IsDay (x : Z) : bool := (1 <=? x) && (x <=? 31).

(** A year that the fallback of the parser reads: 0 to 49 is 2000 to
    2049, 50 to 99 is 1950 to 1999. *)
Definition legacy_year (y : Z) : Z :=
  if (0 <=? y) && (y <=? 49) then y + 2000
  else if (50 <=? y) && (y <=? 99) then y + 1900
  else y.

(** [DayComposer::Write] of V8's date parser, for three numbers and no
    month name: the year, the month (from 0) and the day of the month the
    numbers stand for, or [None] when they are no date.  A date of the
    ECMA-262 format is year, month, day.  Any other is month, day, year
    when its first number is a day of the month, else year, month, day,
    and its year is read by [legacy_year]. *)
Definition DayComposer_Write (is_iso_date : bool) (comp : Z * Z * Z)
  : option (Z * Z * Z) :=
  let '(comp0, comp1, comp2) := comp in
  let '(year, month, day) :=
    if is_iso_date || negb (IsDay comp0)
    then (comp0, comp1, comp2)
    else (comp2, comp0, comp1) in
  let year := if is_iso_date then year else legacy_year year in
  if IsMonth month && IsDay day then Some (year, month - 1, day) else None.

(** [new Date(s)] in V8, the engine of Node.js, in a host whose local
    time is [tza] ahead of UTC, for a string of the form [YYYY-MM-DD],
    the only strings the program gives it.

    With a month from 01 to 12 and a day from 01 to 31 the string is a
    date of the ECMA-262 date-time string format, at midnight UTC.
    Otherwise the parser stops at the number that is out of range and
    its fallback goes on with the numbers: the three are handed to
    [DayComposer::Write] as a date that is not of the ECMA-262 format,
    and the date they give, if any, is midnight in local time.  In both
    cases [MakeDay] counts the day from the first of the month, so that
    a day past the end of the month falls in the next month. *)
Definition new_Date_in_zone (tza : Z) (s : list N) : JsDate.t :=
  match s with
  | [y1; y2; y3; y4; _; m1; m2; _; d1; d2] =>
      let year := digits_value [y1; y2; y3; y4] in
      let month := digits_value [m1; m2] in
      let day := digits_value [d1; d2] in
      let is_iso_date := IsMonth month && IsDay day in
      match DayComposer_Write is_iso_date (year, month, day) with
      | Some (y, m, d) =>
          let date := JsDate.MakeDate (JsDate.MakeDay y m d) 0 in
          JsDate.TimeClip (if is_iso_date then date else JsDate.UTC tza date)
      | None => None
      end
  | _ => None
  end.

(** [isValidDateFormat] asks of the date only whether it is valid, which
    is the same in every zone (lemma [new_Date_valid_in_every_zone]
    below): the date is taken in a host on UTC. *)
Definition new_Date_of_string (s : list N) : JsDate.t :=
  new_Date_in_zone 0 s.

Definition isValidDateFormat (dateString : list N) : bool :=
  if negb (Regex.test_anchored date_regex dateString) then false
  else
    let date := new_Date_of_string dateString in
    (* date instanceof Date && !isNaN(date) *)
    true && negb (bool_decide (date = None)).

(* ====================================================================== *)
(** ** Values, the outside world and the program monad                     *)
(* ====================================================================== *)

(** JavaScript values that travel through the handlers: what
    [JSON.parse] and axios deliver, and what [res.json] is given.  A number
    is kept as the exact decimal [m * 10^e] that was written (its rounding
    to a double is not modelled); an object as the list of its properties,
    without duplicate keys, in the order in which they first appear (the
    program only looks properties up by name). *)
#[local] Unset Elimination Schemes.
Inductive value : Type :=
| VUndefined
| VNull
| VBool (b : bool)
| VNumber (m e : Z)
| VString (s : list N)
| VArray (items : list value)
| VObject (props : list (list N * value)).
#[local] Set Elimination Schemes.

Definition VInt (n : Z) : value := VNumber n 0.

(** The query-string parameters sent to the open-data API. *)
Record Params : Type := mkParams {
  p_where : list N;      (* '$where' *)
  p_select : list N;     (* '$select' *)
  p_order : list N;      (* '$order' *)
  p_limit : Z;           (* '$limit' *)
  p_offset : Z           (* '$offset' *)
}.

(** The content of a chat message: a literal text, or
    [JSON.stringify(v, null, indent)], kept unevaluated. *)
Inductive Content : Type :=
| Text (s : list N)
| JSONStringify (v : value) (indent : Z).

Record Payload : Type := mkPayload {
  pl_model : list N;
  pl_messages : list (list N * Content);   (* role, content *)
  pl_temperature : Z
}.

(** An axios promise settles with the response body or rejects with an
    [Error] (transport error, or a status outside 2xx), of which the code
    reads the message. *)
Inductive Outcome : Type :=
| Resolved (data : value)
| Rejected (message : list N).

(** What [console.error] is given after its label. *)
Inductive LogArg : Type :=
| LogMessage (m : list N)
| LogSyntaxError.

Inductive Event : Type :=
| EvNewDate (now : Z)
| EvGet (url : option (list N)) (params : Params)
| EvPost (url : list N) (authorization : list N) (payload : Payload)
| EvConsoleError (label : list N) (arg : LogArg).

(** The environment: configuration read at start-up, the clock and the
    two remote services.  Each answer may depend on everything that
    happened before it. *)
Record Env : Type := mkEnv {
  BASE_URL : option (list N);
  API_KEY : option (list N);
  LocalTZA : Z;
  clock : list Event -> Z;
  http_get : list Event -> option (list N) -> Params -> Outcome;
  http_post : list Event -> Payload -> Outcome
}.

(** The state of the process: the arrays of strings it has allocated,
    by reference, and the trace of its effects (oldest first). *)
Record State : Type := mkState {
  heap : gmap positive (list (list N));
  trace : list Event
}.

(** What is thrown: the error of a rejected axios promise, or a
    [TypeError] of the engine. *)
Inductive Exn : Type :=
| AxiosError (message : list N)
| TypeError (message : list N).

Definition err_message (e : Exn) : list N :=
  match e with
  | AxiosError m => m
  | TypeError m => m
  end.

Inductive Result (A : Type) : Type :=
| Ok (a : A)
| Throw (e : Exn).
Arguments Ok {A} a.
Arguments Throw {A} e.

Definition M (A : Type) : Type := Env -> State -> Result A * State.

Definition ret {A} (a : A) : M A := fun _ st => (Ok a, st).

Definition bind {A B} (m : M A) (k : A -> M B) : M B :=
  fun env st =>
    match m env st with
    | (Ok a, st') => k a env st'
    | (Throw e, st') => (Throw e, st')
    end.

Definition throw {A} (e : Exn) : M A := fun _ st => (Throw e, st).

(** [try { m } catch (err) { h err }] *)
Definition try_catch {A} (m : M A) (h : Exn -> M A) : M A :=
  fun env st =>
    match m env st with
    | (Ok a, st') => (Ok a, st')
    | (Throw e, st') => h e env st'
    end.

Declare Scope prog_scope.
Delimit Scope prog_scope with prog.
Notation "'let*' x ':=' m 'in' k" := (bind m (fun x => k))
  (at level 10, x name, m at level 100, k at level 200) : prog_scope.
Notation "m ';;' k" := (bind m (fun _ => k))
  (at level 100, k at level 200, right associativity) : prog_scope.

Definition ask : M Env := fun env st => (Ok env, st).

Definition emit (e : Event) : M unit :=
  fun _ st => (Ok tt, mkState (heap st) (trace st ++ [e])).

(** [new Date()] *)
Definition new_Date : M Z :=
  fun env st =>
    let now := clock env (trace st) in
    (Ok now, mkState (heap st) (trace st ++ [EvNewDate now])).

Definition console_error (label : list N) (arg : LogArg) : M unit :=
  emit (EvConsoleError label arg).

Definition settle (out : Outcome) : Result value :=
  match out with
  | Resolved data => Ok data
  | Rejected message => Throw (AxiosError message)
  end.

(** [(await axios.get(BASE_URL, { params })).data]: the call is recorded
    and the service answers; a rejected promise throws at the [await]. *)
Definition axios_get (params : Params) : M value :=
  fun env st =>
    (settle (http_get env (trace st) (BASE_URL env) params),
     mkState (heap st) (trace st ++ [EvGet (BASE_URL env) params])).

(** [(await axios.post(url, payload, { headers })).data] *)
Definition axios_post (url authorization : list N) (payload : Payload)
  : M value :=
  fun env st =>
    (settle (http_post env (trace st) payload),
     mkState (heap st) (trace st ++ [EvPost url authorization payload])).

(** *** Arrays of strings, by reference *)

(** An array literal, or a spread copy: a fresh object. *)
Definition alloc (xs : list (list N)) : M positive :=
  fun _ st =>
    let l := fresh (dom (heap st)) in
    (Ok l, mkState (<[l := xs]> (heap st)) (trace st)).

Definition read (l : positive) : M (list (list N)) :=
  fun _ st => (Ok (default [] (heap st !! l)), st).

(** [a.push(x)] *)
Definition push (l : positive) (x : list N) : M unit :=
  fun _ st =>
    (Ok tt,
     mkState (<[l := default [] (heap st !! l) ++ [x]]> (heap st)) (trace st)).

(* ====================================================================== *)
(** ** Module-level constants                                              *)
(* ====================================================================== *)

(** The three module-level arrays are the first three objects of the
    heap. *)
Definition filtrosBase : positive := 1%positive.
Definition camposReducidos : positive := 2%positive.
Definition camposFiltrados : positive := 3%positive.

Definition filtrosBase_init : list (list N) :=
  [ js "adjudicado = 'No'";
    js "precio_base > 500000000";
    (* 'Contratación directa': the o with acute accent is code unit 243 *)
    js "modalidad_de_contratacion != 'Contrataci" ++ [243%N] ++ js "n directa'";
    js "codigo_principal_de_categoria LIKE '%811015%'" ].

Definition camposReducidos_init : list (list N) :=
  [ js "id_del_proceso";
    js "entidad";
    js "departamento_entidad";
    js "descripci_n_del_procedimiento";
    js "fecha_de_publicacion_del";
    js "estado_del_procedimiento";
    js "adjudicado";
    js "fecha_adjudicacion";
    js "precio_base";
    js "urlproceso" ].

Definition camposFiltrados_init : list (list N) :=
  [ js "id_del_proceso";
    js "entidad";
    js "departamento_entidad";
    js "descripci_n_del_procedimiento";
    js "estado_del_procedimiento";
    js "adjudicado";
    js "fecha_adjudicacion";
    js "precio_base";
    js "urlproceso";
    js "unidad_de_duracion";
    js "fase";
    js "fecha_de_publicacion_del";
    js "fecha_de_ultima_publicaci";
    js "fecha_de_publicacion_fase";
    js "fecha_de_publicacion_fase_1";
    js "fecha_de_publicacion_fase_2";
    js "fecha_de_publicacion_fase_3";
    js "fecha_de_recepcion_de";
    js "fecha_de_apertura_de_respuesta";
    js "fecha_de_apertura_efectiva" ].

(** The state once the module has been loaded. *)
Definition init_state : State :=
  mkState
    (<[camposFiltrados := camposFiltrados_init]>
       (<[camposReducidos := camposReducidos_init]>
          (<[filtrosBase := filtrosBase_init]> ∅)))
    [].

(* ====================================================================== *)
(** ** [getSECOPData]                                                      *)
(* ====================================================================== *)

Local Open Scope prog_scope.

Definition getPreviousBusinessDay : M (list N) :=
  let* env := ask in
  let* now := new_Date in
  ret (previousBusinessDay_of (LocalTZA env) now).

(** A [fecha] argument is a string or [undefined] ([None]); the empty
    string is falsy like [undefined].

    [fecha || getPreviousBusinessDay()] *)
Definition fecha_or_previous (fecha : option (list N)) : M (list N) :=
  match fecha with
  | Some (c :: s) => ret (c :: s)
  | _ => getPreviousBusinessDay
  end.

Definition date_clause (targetDate : list N) : list N :=
  let formattedDate := targetDate ++ js "T00:00:00.000" in
  js "fecha_de_publicacion_del >= '" ++ formattedDate ++ js "'".

(** The first half of [getSECOPData]: the parameters of the request. *)
Definition build_params (campos : positive) (fecha : option (list N))
  : M Params :=
  let* targetDate := fecha_or_previous fecha in
  let* base := read filtrosBase in
  let* filtros := alloc base in               (* [...filtrosBase] *)
  push filtros (date_clause targetDate);;
  let* fs := read filtros in
  let* cs := read campos in
  ret {| p_where := join (js " AND ") fs;
         p_select := if (0 <? length cs)%nat then join (js ",") cs
                     else js "*";
         p_order := js "precio_base DESC";
         p_limit := 1000;
         p_offset := 0 |}.

Definition getSECOPData (campos : positive) (fecha : option (list N))
  : M value :=
  let* params := build_params campos fecha in
  try_catch
    (let* data := axios_get params in
     ret data)
    (fun err =>
       console_error (js "Error fetching SECOP data:")
                     (LogMessage (err_message err));;
       ret (VArray [])).

Local Close Scope prog_scope.

(* ====================================================================== *)
(** ** [JSON.parse]                                                        *)
(* ====================================================================== *)

Module Json.

Inductive parse_result (A : Type) : Type :=
| POk (a : A) (rest : list N)
| PSyntaxError
| POutOfFuel.
Arguments POk {A} a rest.
Arguments PSyntaxError {A}.
Arguments POutOfFuel {A}.

(** JSON white space: tab, line feed, carriage return, space. *)
Definition is_ws (c : N) : bool :=
  ((c =? 9) || (c =? 10) || (c =? 13) || (c =? 32))%N.

Fixpoint skip_ws (s : list N) : list N :=
  match s with
  | c :: s' => if is_ws c then skip_ws s' else s
  | [] => []
  end.

Definition hex_value (c : N) : option N :=
  if is_digit c then Some (c - 48)%N
  else if ((97 <=? c) && (c <=? 102))%N then Some (c - 87)%N
  else if ((65 <=? c) && (c <=? 70))%N then Some (c - 55)%N
  else None.

(** The code unit of a one-letter escape. *)
Definition escape_unit (c : N) : option N :=
  if (c =? 34)%N then Some 34%N            (* the quote *)
  else if (c =? 92)%N then Some 92%N       (* the backslash *)
  else if (c =? 47)%N then Some 47%N       (* the slash *)
  else if (c =? 98)%N then Some 8%N        (* \b *)
  else if (c =? 102)%N then Some 12%N      (* \f *)
  else if (c =? 110)%N then Some 10%N      (* \n *)
  else if (c =? 114)%N then Some 13%N      (* \r *)
  else if (c =? 116)%N then Some 9%N       (* \t *)
  else None.

(** The characters of a string after its opening quote, and what follows
    the closing quote. *)
Fixpoint string_body (s : list N) : option (list N * list N) :=
  match s with
  | [] => None
  | c :: s' =>
      if (c =? 34)%N then Some ([], s')
      else if (c =? 92)%N then
        match s' with
        | [] => None
        | e :: s'' =>
            if (e =? 117)%N then                       (* \uXXXX *)
              match s'' with
              | h1 :: h2 :: h3 :: h4 :: s3 =>
                  match hex_value h1, hex_value h2, hex_value h3,
                        hex_value h4, string_body s3 with
                  | Some a, Some b, Some c', Some d, Some (str, rest) =>
                      Some ((a * 4096 + b * 256 + c' * 16 + d)%N :: str, rest)
                  | _, _, _, _, _ => None
                  end
              | _ => None
              end
            else
              match escape_unit e, string_body s'' with
              | Some u, Some (str, rest) => Some (u :: str, rest)
              | _, _ => None
              end
        end
      else if (c <? 32)%N then None
      else
        match string_body s' with
        | Some (str, rest) => Some (c :: str, rest)
        | None => None
        end
  end.

Fixpoint take_digits (s : list N) : list N * list N :=
  match s with
  | c :: s' =>
      if is_digit c then
        let (ds, rest) := take_digits s' in (c :: ds, rest)
      else ([], s)
  | [] => ([], [])
  end.

(** The integer part: a single 0, or a nonzero digit and more digits. *)
Definition int_part (s : list N) : option (list N * list N) :=
  match s with
  | c :: s' =>
      if (c =? 48)%N then Some ([c], s')
      else if is_digit c then
        let (ds, rest) := take_digits s' in Some (c :: ds, rest)
      else None
  | [] => None
  end.

(** An optional fraction: a point and at least one digit. *)
Definition frac_part (s : list N) : option (list N * list N) :=
  match s with
  | c :: s' =>
      if (c =? 46)%N then
        match take_digits s' with
        | ([], _) => None
        | (ds, rest) => Some (ds, rest)
        end
      else Some ([], s)
  | [] => Some ([], s)
  end.

(** An optional exponent: e or E, an optional sign, at least one digit. *)
Definition exp_part (s : list N) : option (Z * list N) :=
  match s with
  | c :: s' =>
      if ((c =? 101) || (c =? 69))%N then
        let (neg, s'') :=
          match s' with
          | sg :: r =>
              if (sg =? 45)%N then (true, r)
              else if (sg =? 43)%N then (false, r)
              else (false, s')
          | [] => (false, s')
          end in
        match take_digits s'' with
        | ([], _) => None
        | (ds, rest) =>
            Some (if neg then - digits_value ds else digits_value ds, rest)
        end
      else Some (0, s)
  | [] => Some (0, s)
  end.

Definition number (s : list N) : parse_result value :=
  let (neg, s1) :=
    match s with
    | c :: s' => if (c =? 45)%N then (true, s') else (false, s)
    | [] => (false, s)
    end in
  match int_part s1 with
  | None => PSyntaxError
  | Some (ints, s2) =>
      match frac_part s2 with
      | None => PSyntaxError
      | Some (fracs, s3) =>
          match exp_part s3 with
          | None => PSyntaxError
          | Some (ex, s4) =>
              let m := digits_value (ints ++ fracs) in
              POk (VNumber (if neg then - m else m)
                           (ex - Z.of_nat (length fracs))) s4
          end
      end
  end.

(** The rest of [s] after the literal [lit]. *)
Fixpoint after_literal (lit s : list N) : option (list N) :=
  match lit, s with
  | [], _ => Some s
  | _ :: _, [] => None
  | a :: lit', c :: s' => if (a =? c)%N then after_literal lit' s' else None
  end.

(** A property that is set again keeps its place and takes the later
    value. *)
Fixpoint obj_set (props : list (list N * value)) (k : list N) (v : value)
  : list (list N * value) :=
  match props with
  | [] => [(k, v)]
  | (k', v') :: props' =>
      if bool_decide (k' = k) then (k, v) :: props'
      else (k', v') :: obj_set props' k v
  end.

Fixpoint obj_get (props : list (list N * value)) (k : list N) : option value :=
  match props with
  | [] => None
  | (k', v') :: props' =>
      if bool_decide (k' = k) then Some v' else obj_get props' k
  end.

(** A value, the elements of an array after its opening bracket, and the
    members of an object after its opening brace.  Each call takes one
    unit of fuel; [fuel_for] gives enough of it (lemma
    [parse_never_out_of_fuel]). *)
Fixpoint parse_value (fuel : nat) (s : list N) : parse_result value :=
  match fuel with
  | O => POutOfFuel
  | S fuel' =>
      match skip_ws s with
      | [] => PSyntaxError
      | c :: s' =>
          if (c =? 123)%N then                             (* an object *)
            match skip_ws s' with
            | d :: r =>
                if (d =? 125)%N then POk (VObject []) r
                else parse_members fuel' [] s'
            | [] => PSyntaxError
            end
          else if (c =? 91)%N then                         (* an array *)
            match skip_ws s' with
            | d :: r =>
                if (d =? 93)%N then POk (VArray []) r
                else parse_elements fuel' [] s'
            | [] => PSyntaxError
            end
          else if (c =? 34)%N then                         (* a string *)
            match string_body s' with
            | Some (str, r) => POk (VString str) r
            | None => PSyntaxError
            end
          else if (c =? 116)%N then
            match after_literal (js "rue") s' with
            | Some r => POk (VBool true) r
            | None => PSyntaxError
            end
          else if (c =? 102)%N then
            match after_literal (js "alse") s' with
            | Some r => POk (VBool false) r
            | None => PSyntaxError
            end
          else if (c =? 110)%N then
            match after_literal (js "ull") s' with
            | Some r => POk VNull r
            | None => PSyntaxError
            end
          else if (c =? 45)%N || is_digit c then number (c :: s')
          else PSyntaxError
      end
  end

with parse_elements (fuel : nat) (acc : list value) (s : list N)
  : parse_result value :=
  match fuel with
  | O => POutOfFuel
  | S fuel' =>
      match parse_value fuel' s with
      | POk v r =>
          match skip_ws r with
          | d :: r' =>
              if (d =? 44)%N then parse_elements fuel' (acc ++ [v]) r'
              else if (d =? 93)%N then POk (VArray (acc ++ [v])) r'
              else PSyntaxError
          | [] => PSyntaxError
          end
      | PSyntaxError => PSyntaxError
      | POutOfFuel => POutOfFuel
      end
  end

with parse_members (fuel : nat) (acc : list (list N * value)) (s : list N)
  : parse_result value :=
  match fuel with
  | O => POutOfFuel
  | S fuel' =>
      match skip_ws s with
      | q :: r =>
          if (q =? 34)%N then
            match string_body r with
            | Some (k, r1) =>
                match skip_ws r1 with
                | colon :: r2 =>
                    if (colon =? 58)%N then
                      match parse_value fuel' r2 with
                      | POk v r3 =>
                          match skip_ws r3 with
                          | d :: r4 =>
                              if (d =? 44)%N
                              then parse_members fuel' (obj_set acc k v) r4
                              else if (d =? 125)%N
                              then POk (VObject (obj_set acc k v)) r4
                              else PSyntaxError
                          | [] => PSyntaxError
                          end
                      | PSyntaxError => PSyntaxError
                      | POutOfFuel => POutOfFuel
                      end
                    else PSyntaxError
                | [] => PSyntaxError
                end
            | None => PSyntaxError
            end
          else PSyntaxError
      | [] => PSyntaxError
      end
  end.

Definition fuel_for (s : list N) : nat := (2 * length s + 2)%nat.

(** The whole text is one value between optional white space. *)
Definition parse_text (fuel : nat) (s : list N) : parse_result value :=
  match parse_value fuel s with
  | POk v r =>
      match skip_ws r with
      | [] => POk v []
      | _ :: _ => PSyntaxError
      end
  | PSyntaxError => PSyntaxError
  | POutOfFuel => POutOfFuel
  end.

(** [JSON.parse(s)]: the value, or [None] when a SyntaxError is thrown. *)
Definition parse (s : list N) : option value :=
  match parse_text (fuel_for s) s with
  | POk v _ => Some v
  | _ => None
  end.

End Json.

(* ====================================================================== *)
(** ** Property access                                                     *)
(* ====================================================================== *)

Definition is_nullish (v : value) : bool :=
  match v with
  | VUndefined | VNull => true
  | _ => false
  end.

Definition nullish_name (v : value) : list N :=
  match v with
  | VNull => js "null"
  | _ => js "undefined"
  end.

Definition cannot_read (v : value) (name : list N) : Exn :=
  TypeError (js "Cannot read properties of " ++ nullish_name v
             ++ js " (reading '" ++ name ++ js "')").

(** [v.name], for a name that is neither [length] nor an index and that
    no prototype defines ([choices], [message], [content]). *)
Definition get_named (v : value) (name : list N) : Result value :=
  match v with
  | VUndefined | VNull => Throw (cannot_read v name)
  | VObject props => Ok (default VUndefined (Json.obj_get props name))
  | _ => Ok VUndefined
  end.

(** [v[0]] *)
Definition get_index0 (v : value) : Result value :=
  match v with
  | VUndefined | VNull => Throw (cannot_read v (js "0"))
  | VArray items => Ok (default VUndefined (head items))
  | VString (c :: _) => Ok (VString [c])
  | VObject props => Ok (default VUndefined (Json.obj_get props (js "0")))
  | _ => Ok VUndefined
  end.

(** [v.length] *)
Definition get_length (v : value) : Result value :=
  match v with
  | VUndefined | VNull => Throw (cannot_read v (js "length"))
  | VArray items => Ok (VInt (Z.of_nat (length items)))
  | VString s => Ok (VInt (Z.of_nat (length s)))
  | VObject props => Ok (default VUndefined (Json.obj_get props (js "length")))
  | _ => Ok VUndefined
  end.

(** [v?.p]: [undefined] when [v] is [null] or [undefined]. *)
Definition optional (v : value) (access : value -> Result value)
  : Result value :=
  if is_nullish v then Ok VUndefined else access v.

(** [!v] *)
Definition falsy (v : value) : bool :=
  match v with
  | VUndefined | VNull => true
  | VBool b => negb b
  | VNumber m _ => m =? 0
  | VString s => bool_decide (s = [])
  | VArray _ | VObject _ => false
  end.

Definition lift {A} (r : Result A) : M A := fun _ st => (r, st).

Definition rbind {A B} (r : Result A) (k : A -> Result B) : Result B :=
  match r with
  | Ok a => k a
  | Throw e => Throw e
  end.

(** [data.choices?.[0]?.message?.content] *)
Definition reply_content (response_data : value) : Result value :=
  rbind (get_named response_data (js "choices")) (fun choices =>
  rbind (optional choices get_index0) (fun first =>
  rbind (optional first (fun v => get_named v (js "message"))) (fun message =>
  optional message (fun v => get_named v (js "content"))))).

(* ====================================================================== *)
(** ** [analyseDataWithAI]                                                 *)
(* ====================================================================== *)

Definition chatGPTUrl : list N :=
  js "https://api.openai.com/v1/chat/completions".

Definition system_msg : list N :=
  [LF]
  ++ js "You are an expert in government contracting in Colombia with updated knowledge " ++ [LF]
  ++ js "about process types and legal requirements. You will receive a JSON response " ++ [LF]
  ++ js "containing information about contracting processes extracted from SECOP." ++ [LF]
  ++ [LF]
  ++ js "Evaluate each process and tell us which ones are relevant for Double C Designs, " ++ [LF]
  ++ js "a company specialized in building and infrastructure design." ++ [LF]
  ++ js "Please note, this is design only, not construction." ++ [LF]
  ++ [LF]
  ++ js "Respond in JSON format indicating the process ID (if available), followed by " ++ [LF]
  ++ js "the description, url, price, entity and justification. If there are no " ++ [LF]
  ++ js "processes of interest, respond:" ++ [LF]
  ++ [LF]
  ++ [DQ] ++ js "Today I haven't found any processes that might interest you in SECOP" ++ [DQ] ++ [LF]
  ++ [LF]
  ++ js "Do not include the response in code blocks (without ```json or ```)." ++ [LF].

(** [/```json\n?/] and [/```$/] *)
Definition fence_open : list Regex.atom :=
  Regex.lits (js "```json") ++ [Regex.OptLit LF].
Definition fence_close : list Regex.atom := Regex.lits (js "```").

(** [content.replace(/```json\n?/, '').replace(/```$/, '').trim()] *)
Definition cleanResponse (content : list N) : list N :=
  trim (Regex.remove_first_at_end fence_close
          (Regex.remove_first fence_open content)).

Definition no_content_marker : value :=
  VObject [(js "error", VString (js "No valid response received from ChatGPT"))].

Definition invalid_json_marker (raw : list N) : value :=
  VObject [(js "error",
            VString (js "ChatGPT response doesn't contain valid JSON"));
           (js "raw", VString raw)].

Definition communication_error_marker : value :=
  VObject [(js "error", VString (js "Error communicating with ChatGPT"))].

Definition authorization_header (key : option (list N)) : list N :=
  js "Bearer " ++ default (js "undefined") key.

Definition chat_payload (data : value) : Payload :=
  {| pl_model := js "gpt-4o";
     pl_messages := [ (js "system", Text system_msg);
                      (js "user", JSONStringify data 2) ];
     pl_temperature := 0 |}.

Local Open Scope prog_scope.

(** [content.replace] is a function only when [content] is a string. *)
Definition as_string_for_replace (content : value) : Result (list N) :=
  match content with
  | VString s => Ok s
  | _ => Throw (TypeError (js "content.replace is not a function"))
  end.

Definition analyseDataWithAI (data : value) : M value :=
  let* env := ask in
  let headers := authorization_header (API_KEY env) in
  let payload := chat_payload data in
  try_catch
    (let* response_data := axios_post chatGPTUrl headers payload in
     let* content := lift (reply_content response_data) in
     if falsy content then ret no_content_marker
     else
       let* text := lift (as_string_for_replace content) in
       let clean := cleanResponse text in
       match Json.parse clean with
       | Some v => ret v
       | None =>
           console_error (js "JSON parsing error:") LogSyntaxError;;
           ret (invalid_json_marker clean)
       end)
    (fun err =>
       console_error (js "Error analyzing data with ChatGPT:")
                     (LogMessage (err_message err));;
       ret communication_error_marker).

(* ====================================================================== *)
(** ** Routes                                                              *)
(* ====================================================================== *)

(** What a handler sends: the status and the value given to [res.json],
    or the documentation page of the home route (its markup is static
    and left out). *)
Inductive Body : Type :=
| Json_body (v : value)
| Html_page.

Record Response : Type := mkResponse {
  status : Z;
  body : Body
}.

Definition error_body (message : list N) : Body :=
  Json_body (VObject [(js "error", VString message)]).

Definition bad_date : Response :=
  mkResponse 400 (error_body (js "Invalid date format. Use YYYY-MM-DD")).

Definition processing_error (route_label : list N) (err : Exn) : M Response :=
  console_error route_label (LogMessage (err_message err));;
  ret (mkResponse 500 (error_body (js "Error processing data"))).

(** [fecha && !isValidDateFormat(fecha)] *)
Definition rejects (fecha : option (list N)) : bool :=
  match fecha with
  | Some (c :: s) => negb (isValidDateFormat (c :: s))
  | _ => false
  end.

Definition records_body (date_used : list N) (total datos : value) : Body :=
  Json_body (VObject [ (js "date_used", VString date_used);
                       (js "total_records", total);
                       (js "data", datos) ]).

Definition analysis_body (date_used : list N) (total evaluacion : value)
  : Body :=
  Json_body (VObject [ (js "date_used", VString date_used);
                       (js "total_records_analyzed", total);
                       (js "ai_analysis", evaluacion) ]).

Definition raw (fecha : option (list N)) : M Response :=
  try_catch
    (if rejects fecha then ret bad_date
     else
       let* all_fields := alloc [] in
       let* datos := getSECOPData all_fields fecha in
       let* date_used := fecha_or_previous fecha in
       let* total := lift (get_length datos) in
       ret (mkResponse 200 (records_body date_used total datos)))
    (processing_error (js "General error in /raw:")).

Definition filtered (fecha : option (list N)) : M Response :=
  try_catch
    (if rejects fecha then ret bad_date
     else
       let* datos := getSECOPData camposFiltrados fecha in
       let* date_used := fecha_or_previous fecha in
       let* total := lift (get_length datos) in
       ret (mkResponse 200 (records_body date_used total datos)))
    (processing_error (js "General error in /filtered:")).

Definition analyzed (fecha : option (list N)) : M Response :=
  try_catch
    (if rejects fecha then ret bad_date
     else
       let* datos := getSECOPData camposReducidos fecha in
       let* evaluacion := analyseDataWithAI datos in
       let* date_used := fecha_or_previous fecha in
       let* total := lift (get_length datos) in
       ret (mkResponse 200 (analysis_body date_used total evaluacion)))
    (processing_error (js "General error in /analyzed:")).

Definition home : M Response := ret (mkResponse 200 Html_page).

(** A request: the route and the [fecha] query parameter, absent or a
    string. *)
Inductive Request : Type :=
| GetHome
| GetRaw (fecha : option (list N))
| GetFiltered (fecha : option (list N))
| GetAnalyzed (fecha : option (list N)).

Definition serve (r : Request) : M Response :=
  match r with
  | GetHome => home
  | GetRaw fecha => raw fecha
  | GetFiltered fecha => filtered fecha
  | GetAnalyzed fecha => analyzed fecha
  end.

(** Requests served one after the other. *)
Fixpoint serve_all (rs : list Request) : M (list Response) :=
  match rs with
  | [] => ret []
  | r :: rs' =>
      let* resp := serve r in
      let* resps := serve_all rs' in
      ret (resp :: resps)
  end.

Local Close Scope prog_scope.

(* ====================================================================== *)
(** ** Vocabulary of the statements                                        *)
(* ====================================================================== *)

(** The two decimal digits of a number below 100. *)
Definition two_digits (n : Z) : list N :=
  [Z.to_N (48 + n / 10); Z.to_N (48 + n mod 10)].

(** How many days [getPreviousBusinessDay] goes back from a local time:
    three on a Monday, two on a Sunday, one on any other day. *)
Definition days_back (today : Z) : Z :=
  if JsDate.WeekDay today =? 1 then 3
  else if JsDate.WeekDay today =? 0 then 2
  else 1.

(** The year, month and day that a string of the form [YYYY-MM-DD]
    names. *)
Definition date_fields (s : list N) : option (Z * Z * Z) :=
  if Regex.test_anchored date_regex s then
    match s with
    | [y1; y2; y3; y4; _; m1; m2; _; d1; d2] =>
        Some (digits_value [y1; y2; y3; y4], digits_value [m1; m2],
              digits_value [d1; d2])
    | _ => None
    end
  else None.

Definition DaysInMonth (y m : Z) : Z :=
  match m with
  | 1 | 3 | 5 | 7 | 8 | 10 | 12 => 31
  | 4 | 6 | 9 | 11 => 30
  | 2 => if JsDate.DaysInYear y =? 366 then 29 else 28
  | _ => 0
  end.

(** In the words of the specification: the string has the form
    [YYYY-MM-DD] and names a day that exists in the calendar. *)
Definition real_calendar_date (s : list N) : bool :=
  match date_fields s with
  | Some (y, m, d) =>
      (1 <=? m) && (m <=? 12) && (1 <=? d) && (d <=? DaysInMonth y m)
  | None => false
  end.

(** The date a request resolves to: the [fecha] given, or the previous
    business day at the time the clock is read. *)
Definition resolved_date (env : Env) (st : State) (fecha : option (list N))
  : list N :=
  match fecha with
  | Some (c :: s) => c :: s
  | _ => previousBusinessDay_of (LocalTZA env) (clock env (trace st))
  end.

(** The trace once the date is resolved: the clock is read only when no
    [fecha] is given. *)
Definition trace_resolved (env : Env) (st : State) (fecha : option (list N))
  : list Event :=
  match fecha with
  | Some (_ :: _) => trace st
  | _ => trace st ++ [EvNewDate (clock env (trace st))]
  end.

(** The query for the fields [cs] and the date [d]. *)
Definition query (cs : list (list N)) (d : list N) : Params :=
  {| p_where :=
       join (js " AND ") filtrosBase_init ++ js " AND "
       ++ js "fecha_de_publicacion_del >= '" ++ d ++ js "T00:00:00.000'";
     p_select := match cs with [] => js "*" | _ :: _ => join (js ",") cs end;
     p_order := js "precio_base DESC";
     p_limit := 1000;
     p_offset := 0 |}.

(** The three module-level arrays hold what they were initialised with. *)
Definition globals_intact (st : State) : Prop :=
  heap st !! filtrosBase = Some filtrosBase_init /\
  heap st !! camposReducidos = Some camposReducidos_init /\
  heap st !! camposFiltrados = Some camposFiltrados_init.

(** The heap once [getSECOPData] has built its filter array for the
    date [d]: a copy of the base filters with the date clause pushed, at
    a fresh reference. *)
Definition heap_with_filtros (h : gmap positive (list (list N)))
  (d : list N) : gmap positive (list (list N)) :=
  <[fresh (dom h) := filtrosBase_init ++ [date_clause d]]> h.

(** What [getSECOPData] returns for an answer of the service. *)
Definition datos_of (o : Outcome) : value :=
  match o with
  | Resolved data => data
  | Rejected _ => VArray []
  end.

(** What [getSECOPData] adds to the trace once the date is resolved. *)
Definition fetch_events (url : option (list N)) (q : Params) (o : Outcome)
  : list Event :=
  EvGet url q ::
  match o with
  | Resolved _ => []
  | Rejected m =>
      [EvConsoleError (js "Error fetching SECOP data:") (LogMessage m)]
  end.

(** What [analyseDataWithAI] returns for an answer of the chat service,
    and what it logs. *)
Definition analysis_of (o : Outcome) : value * list Event :=
  match rbind (settle o) reply_content with
  | Throw e =>
      (communication_error_marker,
       [EvConsoleError (js "Error analyzing data with ChatGPT:")
                       (LogMessage (err_message e))])
  | Ok content =>
      if falsy content then (no_content_marker, [])
      else
        match content with
        | VString text =>
            match Json.parse (cleanResponse text) with
            | Some v => (v, [])
            | None =>
                (invalid_json_marker (cleanResponse text),
                 [EvConsoleError (js "JSON parsing error:") LogSyntaxError])
            end
        | _ =>
            (communication_error_marker,
             [EvConsoleError (js "Error analyzing data with ChatGPT:")
                (LogMessage (js "content.replace is not a function"))])
        end
  end.

(** What the open-data service answers to the query of a request, asked
    when the date has been resolved. *)
Definition get_answer (env : Env) (st : State) (fecha : option (list N))
  (cs : list (list N)) : Outcome :=
  http_get env (trace_resolved env st fecha) (BASE_URL env)
           (query cs (resolved_date env st fecha)).

(** The state [getSECOPData] leaves. *)
Definition after_fetch (env : Env) (st : State) (fecha : option (list N))
  (cs : list (list N)) : State :=
  let d := resolved_date env st fecha in
  mkState (heap_with_filtros (heap st) d)
          (trace_resolved env st fecha
           ++ fetch_events (BASE_URL env) (query cs d)
                           (get_answer env st fecha cs)).

(** The state [analyseDataWithAI] leaves. *)
Definition after_analysis (env : Env) (st : State) (data : value) : State :=
  mkState (heap st)
    (trace st
     ++ EvPost chatGPTUrl (authorization_header (API_KEY env))
               (chat_payload data)
     :: (analysis_of (http_post env (trace st) (chat_payload data))).2).

(** The state of [/raw] when it calls [getSECOPData]: the empty array of
    fields has been allocated. *)
Definition with_all_fields (st : State) : State :=
  mkState (<[fresh (dom (heap st)) := []]> (heap st)) (trace st).

(** In the words of the specification: one leading fence marker and one
    trailing fence marker are stripped, and nothing else. *)
Definition strip_suffix (p s : list N) : list N :=
  if starts_with (rev p) (rev s) then rev (drop (length p) (rev s)) else s.

Definition strip_fence_markers (s : list N) : list N :=
  let s1 := match Regex.match_here fence_open s with
            | Some rest => rest
            | None => s
            end in
  strip_suffix (js "```") s1.

(** A line feed at the start of a text is dropped: what the optional
    line feed of the opening marker takes from the text that follows. *)
Definition drop_line_feed (s : list N) : list N :=
  match s with
  | c :: s' => if (c =? LF)%N then s' else s
  | [] => []
  end.

(** The fenced reply of the specification's example, and a JSON reply
    that quotes a fence marker. *)
Definition fenced_example : list N :=
  js "```json" ++ [LF] ++ js "{" ++ [DQ] ++ js "a" ++ [DQ] ++ js ":1}"
  ++ [LF] ++ js "```".

Definition quoted_fence_example : list N :=
  js "{" ++ [DQ] ++ js "a" ++ [DQ] ++ js ":" ++ [DQ] ++ js "```json"
  ++ [DQ] ++ js "}".

(** The body of a chat response whose first choice carries [content]. *)
Definition chat_reply (content : value) : value :=
  VObject [ (js "choices",
             VArray [ VObject [ (js "message",
                                 VObject [ (js "role", VString (js "assistant"));
                                           (js "content", content) ]) ] ]) ].

(** The sentence the system prompt asks for when nothing is relevant. *)
Definition no_match_sentence : list N :=
  js "Today I haven't found any processes that might interest you in SECOP".

(** A Monday morning in Bogota: 2025-04-21, 10:00 local time. *)
Definition monday_env : Env :=
  mkEnv None None (-18000000)
        (fun _ => 20199 * JsDate.msPerDay + 15 * 3600000)
        (fun _ _ _ => Rejected (js "connect ECONNREFUSED"))
        (fun _ _ => Rejected (js "connect ECONNREFUSED")).

(** An event that, if it is a fetch, carries a [$where] made of the four
    base clauses and one date clause. *)
Definition well_formed_event (e : Event) : Prop :=
  match e with
  | EvGet _ q =>
      exists d,
        p_where q = join (js " AND ") (filtrosBase_init ++ [date_clause d])
  | _ => True
  end.

(** The invariant of the server between two requests. *)
Definition server_invariant (st : State) : Prop :=
  globals_intact st /\ Forall well_formed_event (trace st).

(** The chat service answers with a sentence that is not JSON. *)
Definition chatty_env : Env :=
  mkEnv None None (-18000000)
        (fun _ => 20199 * JsDate.msPerDay + 15 * 3600000)
        (fun _ _ _ => Resolved (VArray [VNull; VNull]))
        (fun _ _ => Resolved (chat_reply (VString (js "Nothing today.")))).


(** The chat service answers with the fenced example. *)
Definition fenced_env : Env :=
  mkEnv None None (-18000000)
        (fun _ => 20199 * JsDate.msPerDay + 15 * 3600000)
        (fun _ _ _ => Resolved (VArray [VNull; VNull]))
        (fun _ _ => Resolved (chat_reply (VString fenced_example))).

(* ====================================================================== *)
(** ** Further vocabulary                                                 *)
(* ====================================================================== *)

(** A Saturday afternoon in Bogota: 2025-04-19, 15:00 local time. *)
Definition saturday_env : Env :=
  mkEnv None None (-18000000)
        (fun _ => 20197 * JsDate.msPerDay + 20 * 3600000)
        (fun _ _ _ => Resolved (VArray []))
        (fun _ _ => Rejected (js "connect ECONNREFUSED")).

(** Events that are calls to a remote service. *)
Definition outbound (e : Event) : bool :=
  match e with
  | EvGet _ _ | EvPost _ _ _ => true
  | _ => false
  end.

Definition is_clock_read (e : Event) : bool :=
  match e with
  | EvNewDate _ => true
  | _ => false
  end.

(** The number of apostrophes in a string. *)
Definition apostrophes (s : list N) : nat := count_occ N.eq_dec s 39%N.

(** How the three data handlers end, once the records [datos] are there
    and the state is [st]: the date used is resolved and the records are
    counted; when they cannot be counted the error is logged and the
    answer is the generic error. *)
Definition finish (label : list N) (respond : list N -> value -> Response)
  (fecha : option (list N)) (datos : value) (env : Env) (st : State)
  : Result Response * State :=
  match get_length datos with
  | Ok total =>
      (Ok (respond (resolved_date env st fecha) total),
       mkState (heap st) (trace_resolved env st fecha))
  | Throw e =>
      (Ok (mkResponse 500 (error_body (js "Error processing data"))),
       mkState (heap st)
               (trace_resolved env st fecha
                ++ [EvConsoleError label (LogMessage (err_message e))]))
  end.

(** The clock passes midnight between its first and its second reading:
    Tuesday 2025-04-22 23:59:59 local time, then Wednesday 00:00:01. *)
Definition midnight_env : Env :=
  mkEnv None None (-18000000)
        (fun tr => match tr with
                   | [] => 20201 * JsDate.msPerDay + 5 * 3600000 - 1000
                   | _ :: _ => 20201 * JsDate.msPerDay + 5 * 3600000 + 1000
                   end)
        (fun _ _ _ => Resolved (VArray []))
        (fun _ _ => Rejected (js "connect ECONNREFUSED")).

(** The open-data service answers 200 with the body [null]. *)
Definition null_body_env : Env :=
  mkEnv None None (-18000000)
        (fun _ => 20199 * JsDate.msPerDay + 15 * 3600000)
        (fun _ _ _ => Resolved VNull)
        (fun _ _ => Resolved (chat_reply (VString (js "[]")))).

(** The chat service answers with a number as content. *)
Definition number_reply_env : Env :=
  mkEnv None None (-18000000)
        (fun _ => 20199 * JsDate.msPerDay + 15 * 3600000)
        (fun _ _ _ => Resolved (VArray []))
        (fun _ _ => Resolved (chat_reply (VNumber 42 0))).

(** The chat service answers with no choice at all. *)
Definition empty_choices_env : Env :=
  mkEnv None None (-18000000)
        (fun _ => 20199 * JsDate.msPerDay + 15 * 3600000)
        (fun _ _ _ => Resolved (VArray []))
        (fun _ _ => Resolved (VObject [(js "choices", VArray [])])).

(* ====================================================================== *)
(** ** The first version of the server                                     *)
(* ====================================================================== *)

(** The earlier server of the repository: the filters, with the date of
    the day before, are built once when the module is loaded; one route
    fetches, analyses and sends the analysis. *)
Module Legacy.

(** [fechaFormateada]: the calendar date of the day before [now], and
    midnight. *)
Definition fechaFormateada_of (tza now : Z) : list N :=
  let ayer : JsDate.t := Some now in
  let ayer := setDate_num tza ayer (num_sub (JsDate.getDate tza ayer) 1) in
  let yyyy := JsDate.getFullYear tza ayer in
  let mm := padStart 2 48 (String_of_num (num_add (JsDate.getMonth tza ayer) 1)) in
  let dd := padStart 2 48 (String_of_num (JsDate.getDate tza ayer)) in
  String_of_num yyyy ++ js "-" ++ mm ++ js "-" ++ dd ++ js "T00:00:00.000".

(** The two module-level arrays; the program never writes to them.  The
    four clauses after the date clause are those of [filtrosBase_init]. *)
Record Globals : Type := mkGlobals {
  filtros : list (list N);
  campos : list (list N)
}.

Definition filtros_of (fechaFormateada : list N) : list (list N) :=
  [ js "fecha_de_publicacion_del >= '" ++ fechaFormateada ++ js "'";
    js "adjudicado = 'No'";
    js "precio_base > 500000000";
    js "modalidad_de_contratacion != 'Contrataci" ++ [243%N] ++ js "n directa'";
    js "codigo_principal_de_categoria LIKE '%811015%'" ].

Definition campos_init : list (list N) :=
  [ js "id_del_proceso";
    js "entidad";
    js "descripci_n_del_procedimiento";
    js "fecha_de_publicacion_del";
    js "precio_base";
    js "urlproceso" ].

Local Open Scope prog_scope.

(** Loading the module. *)
Definition load : M Globals :=
  let* env := ask in
  let* now := new_Date in
  ret {| filtros := filtros_of (fechaFormateada_of (LocalTZA env) now);
         campos := campos_init |}.

Definition params_of (g : Globals) : Params :=
  {| p_where := join (js " AND ") (filtros g);
     p_select := join (js ",") (campos g);
     p_order := js "precio_base DESC";
     p_limit := 1000;
     p_offset := 0 |}.

Definition getSECOPData (g : Globals) : M value :=
  let params := params_of g in
  try_catch
    (let* data := axios_get params in
     ret data)
    (fun err =>
       console_error (js "Error al obtener los datos:")
                     (LogMessage (err_message err));;
       ret (VArray [])).

Definition system_msg : list N :=
  [LF]
  ++ js "Eres un experto en contrataci" ++ [243%N] ++ js "n estatal en Colombia con conocimiento actualizado " ++ [LF]
  ++ js "sobre los tipos de procesos y requisitos legales. A continuaci" ++ [243%N] ++ js "n recibir" ++ [225%N] ++ js "s una respuesta " ++ [LF]
  ++ js "en formato JSON que contiene informaci" ++ [243%N] ++ js "n sobre procesos de contrataci" ++ [243%N] ++ js "n extra" ++ [237%N] ++ js "dos del SECOP." ++ [LF]
  ++ [LF]
  ++ js "Eval" ++ [250%N] ++ js "a cada proceso y dinos cu" ++ [225%N] ++ js "les son relevantes para la empresa Double C Designs, " ++ [LF]
  ++ js "especializada en dise" ++ [241%N] ++ js "o de edificaciones e infraestructura." ++ [LF]
  ++ js "Por favor, solo es dise" ++ [241%N] ++ js "o, no es construcci" ++ [243%N] ++ js "n." ++ [LF]
  ++ [LF]
  ++ js "Responde en formato de JSON indicando el ID del proceso (si est" ++ [225%N] ++ js " disponible), seguido de " ++ [LF]
  ++ js "la descripci" ++ [243%N] ++ js "n, la url, el precio, la entidad y la justificaci" ++ [243%N] ++ js "n. Si no hay ning" ++ [250%N] ++ js "n proceso" ++ [LF]
  ++ js "de inter" ++ [233%N] ++ js "s responde: " ++ [LF]
  ++ [LF]
  ++ [DQ] ++ js "Hoy no he encontrado procesos que te puedan interesar en el SECOP" ++ [DQ] ++ [LF]
  ++ [LF]
  ++ js "No incluyas la respuesta en bloques de c" ++ [243%N] ++ js "digo (sin ```json ni ```)." ++ [LF].

Definition chat_payload (data : value) : Payload :=
  {| pl_model := js "gpt-4o";
     pl_messages := [ (js "system", Text system_msg);
                      (js "user", JSONStringify data 2) ];
     pl_temperature := 0 |}.

Definition fallback_text : list N := js "Respuesta no esperada de ChatGPT".

Definition error_text : list N := js "Error al comunicarse con ChatGPT".

(** [content || 'Respuesta no esperada de ChatGPT'] *)
Definition content_or_fallback (content : value) : value :=
  if falsy content then VString fallback_text else content.

(** [jsonData.replace] is a function only when [jsonData] is a string. *)
Definition as_string_for_replace (jsonData : value) : Result (list N) :=
  match jsonData with
  | VString s => Ok s
  | _ => Throw (TypeError (js "jsonData.replace is not a function"))
  end.

Section Analysis.

(** The message of the [SyntaxError] that [JSON.parse] throws for a text
    is chosen by the engine. *)
Variable syntax_error_message : list N -> list N.

Definition analyseDataWithAI (data : value) : M value :=
  let* env := ask in
  let headers := authorization_header (API_KEY env) in
  let payload := chat_payload data in
  let on_error (message : list N) : M value :=
    console_error (js "Error al analizar los datos con ChatGPT:")
                  (LogMessage message);;
    ret (VString error_text) in
  try_catch
    (let* response_data := axios_post chatGPTUrl headers payload in
     let* content := lift (reply_content response_data) in
     let jsonData := content_or_fallback content in
     let* text := lift (as_string_for_replace jsonData) in
     let clean := cleanResponse text in
     match Json.parse clean with
     | Some v => ret v
     | None => on_error (syntax_error_message clean)
     end)
    (fun err => on_error (err_message err)).

(** What the route sends: [res.json(v)], or a text with a status. *)
Inductive Response : Type :=
| Sent_json (v : value)
| Sent_text (status : Z) (text : list N).

Definition status_of (r : Response) : Z :=
  match r with
  | Sent_json _ => 200
  | Sent_text status _ => status
  end.

(** [app.get('/', ...)] *)
Definition root (g : Globals) : M Response :=
  try_catch
    (let* datos := getSECOPData g in
     let* evaluacion := analyseDataWithAI datos in
     ret (Sent_json evaluacion))
    (fun err =>
       console_error (js "Error general:") (LogMessage (err_message err));;
       ret (Sent_text 500 (js "Error procesando los datos"))).

(** Requests to the route served one after the other. *)
Fixpoint root_times (g : Globals) (n : nat) : M (list Response) :=
  match n with
  | O => ret []
  | S n' =>
      let* resp := root g in
      let* resps := root_times g n' in
      ret (resp :: resps)
  end.

End Analysis.

Local Close Scope prog_scope.

(** What [analyseDataWithAI] returns for an answer of the chat service. *)
Definition analysis_of (o : Outcome) : value :=
  match rbind (settle o) reply_content with
  | Throw _ => VString error_text
  | Ok content =>
      match content_or_fallback content with
      | VString text =>
          match Json.parse (cleanResponse text) with
          | Some v => v
          | None => VString error_text
          end
      | _ => VString error_text
      end
  end.

End Legacy.

(** An event of the first server after start-up: a fetch carries the
    parameters built when the module was loaded, and the clock is not
    read. *)
Definition legacy_event (g : Legacy.Globals) (e : Event) : Prop :=
  match e with
  | EvGet _ q => q = Legacy.params_of g
  | EvNewDate _ => False
  | _ => True
  end.

(** The arrays of the first server when it is loaded on Monday
    2025-04-21. *)
Definition monday_globals : Legacy.Globals :=
  {| Legacy.filtros :=
       Legacy.filtros_of (js "2025-04-20T00:00:00.000");
     Legacy.campos := Legacy.campos_init |}.

(* ====================================================================== *)
(** * Properties                                                           *)
(* ====================================================================== *)

Example js_abc : js "abc" = [97; 98; 99]%N.
Proof. reflexivity. Qed.

Example of_Z_examples :
  of_Z 2025 = js "2025" /\ of_Z 0 = js "0" /\ of_Z (-7) = js "-7".
Proof. repeat split; reflexivity. Qed.

Example date_examples :
  (* 2025-04-21 is a Monday; day number 20199 *)
  JsDate.MakeDay 2025 3 21 = 20199 /\
  JsDate.WeekDay (20199 * JsDate.msPerDay) = 1 /\
  JsDate.YearFromDay 20199 = 2025 /\
  JsDate.MonthFromTime (20199 * JsDate.msPerDay) = 3 /\
  JsDate.DateFromTime (20199 * JsDate.msPerDay) = 21.
Proof. repeat split; reflexivity. Qed.

Example previousBusinessDay_examples :
  let utc5 := -5 * 3600000 in
  (* Monday 2025-04-21 10:00 local time *)
  previousBusinessDay_of utc5 (20199 * JsDate.msPerDay + 15 * 3600000) = js "2025-04-18" /\
  (* Sunday 2025-04-20 *)
  previousBusinessDay_of utc5 (20198 * JsDate.msPerDay + 15 * 3600000) = js "2025-04-18" /\
  (* Saturday 2025-03-01 *)
  previousBusinessDay_of utc5 (20148 * JsDate.msPerDay + 15 * 3600000) = js "2025-02-28" /\
  (* Wednesday 2025-01-01 *)
  previousBusinessDay_of utc5 (20089 * JsDate.msPerDay + 15 * 3600000) = js "2024-12-31".
Proof. repeat split; reflexivity. Qed.

Example isValidDateFormat_examples :
  isValidDateFormat (js "2025-04-18") = true /\
  isValidDateFormat (js "2024-02-29") = true /\
  isValidDateFormat (js "2025-13-01") = false /\
  isValidDateFormat (js "2025-04-00") = false /\
  isValidDateFormat (js "2025-04-32") = false /\
  isValidDateFormat (js "25-04-18") = false /\
  isValidDateFormat (js "2025-04-18 ") = false /\
  isValidDateFormat (js "2025/04/18") = false /\
  isValidDateFormat (js "") = false.
Proof. repeat split; reflexivity. Qed.

Example json_parse_examples :
  Json.parse (js "[1, 2.50e-3, true, null, [], {}, [[ ]]]")
  = Some (VArray [VNumber 1 0; VNumber 250 (-5); VBool true; VNull;
                  VArray []; VObject []; VArray [VArray []]]) /\
  Json.parse (js "{" ++ [DQ] ++ js "a" ++ [DQ] ++ js ": 1, " ++ [DQ]
              ++ js "b" ++ [DQ] ++ js ": [], " ++ [DQ] ++ js "a" ++ [DQ]
              ++ js ": 2}")
  = Some (VObject [(js "a", VInt 2); (js "b", VArray [])]) /\
  Json.parse ([DQ] ++ js "aA\n" ++ [DQ])
  = Some (VString [97; 65; 10]%N) /\
  Json.parse (js "[1,]") = None /\
  Json.parse (js "01") = None /\
  Json.parse (js "1.") = None /\
  Json.parse (js "{} x") = None /\
  Json.parse (js "") = None.
Proof. repeat split; vm_compute; reflexivity. Qed.

(** A closing fence that is followed by a line feed is not at the end of
    the text and stays; an opening fence without [json] stays too. *)
Example cleanResponse_examples :
  cleanResponse fenced_example
  = js "{" ++ [DQ] ++ js "a" ++ [DQ] ++ js ":1}" /\
  cleanResponse (js "```json" ++ [LF] ++ js "[]" ++ [LF] ++ js "```" ++ [LF])
  = js "[]" ++ [LF] ++ js "```" /\
  cleanResponse (js "```" ++ [LF] ++ js "[]" ++ [LF] ++ js "```")
  = js "```" ++ [LF] ++ js "[]" /\
  cleanResponse (js "  [] ") = js "[]".
Proof. repeat split; vm_compute; reflexivity. Qed.

(** The no-match sentence inside double quotes, as the system prompt
    prints it, is a JSON string and is returned as such. *)
Example quoted_sentence_is_json :
  Json.parse (cleanResponse ([DQ] ++ no_match_sentence ++ [DQ]))
  = Some (VString no_match_sentence).
Proof. vm_compute. reflexivity. Qed.

(* ====================================================================== *)
(** ** The calendar                                                        *)
(* ====================================================================== *)

Section Calendar.

Import JsDate.

Lemma div_succ_step (a k : Z) :
  0 < k -> (a + 1) / k = a / k + (if (a + 1) mod k =? 0 then 1 else 0).
Proof.
  intros Hk.
  pose proof (Z.div_mod (a + 1) k ltac:(lia)) as H1.
  pose proof (Z.div_mod a k ltac:(lia)) as H2.
  pose proof (Z.mod_pos_bound a k Hk).
  pose proof (Z.mod_pos_bound (a + 1) k Hk).
  destruct (Z.eqb_spec ((a + 1) mod k) 0) as [E|E]; nia.
Qed.

(** A year has [DaysInYear] days. *)
Lemma DayFromYear_succ y : DayFromYear (y + 1) = DayFromYear y + DaysInYear y.
Proof.
  unfold DayFromYear, DaysInYear.
  replace (y + 1 - 1970) with (y - 1970 + 1) by lia.
  replace (y + 1 - 1969) with (y - 1969 + 1) by lia.
  replace (y + 1 - 1901) with (y - 1901 + 1) by lia.
  replace (y + 1 - 1601) with (y - 1601 + 1) by lia.
  rewrite !div_succ_step by lia.
  replace (y - 1969 + 1) with (y + (-492) * 4) by lia.
  replace (y - 1901 + 1) with (y + (-19) * 100) by lia.
  replace (y - 1601 + 1) with (y + (-4) * 400) by lia.
  rewrite !Z.mod_add by lia.
  destruct (Z.eqb_spec (y mod 4) 0), (Z.eqb_spec (y mod 100) 0),
    (Z.eqb_spec (y mod 400) 0); cbn [negb]; try lia;
    exfalso; Z.div_mod_to_equations; lia.
Qed.

Lemma DaysInYear_cases y : DaysInYear y = 365 \/ DaysInYear y = 366.
Proof.
  unfold DaysInYear.
  destruct (y mod 4 =? 0), (y mod 100 =? 0), (y mod 400 =? 0); cbn; auto.
Qed.

Lemma DayFromYear_bounds y :
  146097 * (y - 1970) - 800 < 400 * DayFromYear y
    < 146097 * (y - 1970) + 800.
Proof. unfold DayFromYear. Z.div_mod_to_equations. lia. Qed.

(** [YearFromDay d] is the year that contains day [d]. *)
Lemma YearFromDay_spec d :
  DayFromYear (YearFromDay d) <= d < DayFromYear (YearFromDay d + 1).
Proof.
  unfold YearFromDay.
  set (y := 1970 + d * 400 / 146097).
  assert (Hy : DayFromYear (y - 1) <= d < DayFromYear (y + 2)).
  { pose proof (DayFromYear_bounds (y - 1)).
    pose proof (DayFromYear_bounds (y + 2)).
    unfold y in *. Z.div_mod_to_equations. lia. }
  destruct (Z.leb_spec (DayFromYear (y + 1)) d).
  - replace (y + 1 + 1) with (y + 2) by lia. lia.
  - destruct (Z.leb_spec (DayFromYear y) d).
    + lia.
    + replace (y - 1 + 1) with y by lia. lia.
Qed.

Lemma DayWithinYear_range t :
  0 <= DayWithinYear t < DaysInYear (YearFromTime t).
Proof.
  unfold DayWithinYear, YearFromTime.
  pose proof (YearFromDay_spec (Day t)) as H.
  rewrite DayFromYear_succ in H. lia.
Qed.

Lemma InLeapYear_cases t :
  (InLeapYear t = 0 /\ DaysInYear (YearFromTime t) = 365) \/
  (InLeapYear t = 1 /\ DaysInYear (YearFromTime t) = 366).
Proof.
  unfold InLeapYear.
  destruct (DaysInYear_cases (YearFromTime t)) as [E|E]; rewrite E; cbn; auto.
Qed.

Lemma MonthFromTime_range t : 0 <= MonthFromTime t <= 11.
Proof.
  unfold MonthFromTime.
  repeat match goal with
         | |- context [if ?b then _ else _] => destruct b
         end; lia.
Qed.

Lemma DateFromTime_range t : 1 <= DateFromTime t <= 31.
Proof.
  pose proof (DayWithinYear_range t) as Hd.
  unfold DateFromTime, MonthFromTime.
  destruct (InLeapYear_cases t) as [[-> E]|[-> E]]; rewrite E in Hd;
    repeat match goal with
           | |- context [if ?a <? ?b then _ else _] =>
               destruct (Z.ltb_spec a b)
           end; cbn [MonthStart]; lia.
Qed.

(** Setting the day of the month to [dt] moves the day number by
    [dt] minus the current day of the month. *)
Lemma MakeDay_same_month t dt :
  MakeDay (YearFromTime t) (MonthFromTime t) dt
  = Day t - DateFromTime t + dt.
Proof.
  pose proof (MonthFromTime_range t) as Hm.
  unfold MakeDay.
  rewrite (Z.div_small (MonthFromTime t) 12) by lia.
  rewrite (Z.mod_small (MonthFromTime t) 12) by lia.
  rewrite Z.add_0_r.
  unfold DateFromTime, DayWithinYear, InLeapYear. lia.
Qed.

Lemma setDate_back tza now k :
  Z.abs (now - k * msPerDay) <= maxTime ->
  setDate tza (Some now) (DateFromTime (LocalTime tza now) - k)
  = Some (now - k * msPerDay).
Proof.
  intros Hrange. cbn [setDate mbind option_bind].
  rewrite MakeDay_same_month.
  unfold MakeDate, UTC, TimeClip, TimeWithinDay, LocalTime, Day.
  pose proof (Z.div_mod (now + tza) msPerDay ltac:(discriminate)) as Hdm.
  replace (((now + tza) / msPerDay
            - DateFromTime (now + tza)
            + (DateFromTime (now + tza) - k)) * msPerDay
           + (now + tza) mod msPerDay - tza)
    with (now - k * msPerDay) by lia.
  destruct (Z.leb_spec (Z.abs (now - k * msPerDay)) maxTime); [done | lia].
Qed.

Lemma Day_back t k : Day (t - k * msPerDay) = Day t - k.
Proof.
  unfold Day.
  replace (t - k * msPerDay) with (t + (- k) * msPerDay) by lia.
  rewrite Z.div_add by discriminate. lia.
Qed.

End Calendar.

Section Roundtrip.
Import JsDate.

Lemma DayFromYear_mono y1 y2 : y1 <= y2 -> DayFromYear y1 <= DayFromYear y2.
Proof. intros H. unfold DayFromYear. Z.div_mod_to_equations. lia. Qed.

Lemma YearFromDay_unique y d :
  DayFromYear y <= d < DayFromYear (y + 1) -> YearFromDay d = y.
Proof.
  intros Hd. pose proof (YearFromDay_spec d) as Hs.
  destruct (Z.lt_trichotomy (YearFromDay d) y) as [Hlt|[Heq|Hgt]]; [| done |].
  - pose proof (DayFromYear_mono (YearFromDay d + 1) y ltac:(lia)). lia.
  - pose proof (DayFromYear_mono (y + 1) (YearFromDay d) ltac:(lia)). lia.
Qed.

Lemma month_cases m :
  1 <= m <= 12 ->
  m = 1 \/ m = 2 \/ m = 3 \/ m = 4 \/ m = 5 \/ m = 6 \/ m = 7 \/ m = 8 \/
  m = 9 \/ m = 10 \/ m = 11 \/ m = 12.
Proof. lia. Qed.

(** A day of a month lies within its year, after the start of its month
    and before the start of the next. *)
Lemma day_of_month_bounds y m d leap :
  1 <= m <= 12 -> 1 <= d <= DaysInMonth y m ->
  (DaysInYear y = 365 /\ leap = 0) \/ (DaysInYear y = 366 /\ leap = 1) ->
  let n := MonthStart (m - 1) leap + d - 1 in
  0 <= n < DaysInYear y /\
  MonthStart (m - 1) leap <= n /\
  (m < 12 -> n < MonthStart m leap).
Proof.
  intros Hm Hd Hleap n. subst n. unfold DaysInMonth in Hd.
  destruct Hleap as [[Hy ->]|[Hy ->]]; rewrite Hy in *; clear Hy;
    destruct (month_cases m Hm) as
      [->|[->|[->|[->|[->|[->|[->|[->|[->|[->|[->| ->]]]]]]]]]]];
    cbn in Hd; simpl (MonthStart _ _); lia.
Qed.

(** The fields of the time value of a real calendar date are that date:
    the calendar tables agree with one another. *)
Lemma calendar_date_fields y m d :
  1 <= m <= 12 -> 1 <= d <= DaysInMonth y m ->
  let t := MakeDay y (m - 1) d * msPerDay in
  YearFromTime t = y /\ MonthFromTime t = m - 1 /\ DateFromTime t = d.
Proof.
  intros Hm Hd t.
  assert (Hday : Day t = MakeDay y (m - 1) d).
  { unfold t, Day. by rewrite Z.div_mul. }
  assert (Hleap : exists leap,
    (if DaysInYear y =? 366 then 1 else 0) = leap /\
    ((DaysInYear y = 365 /\ leap = 0) \/ (DaysInYear y = 366 /\ leap = 1))).
  { destruct (DaysInYear_cases y) as [E|E]; rewrite E; cbn; eauto. }
  destruct Hleap as (leap & Hl & Hleap).
  assert (Hmk :
    MakeDay y (m - 1) d = DayFromYear y + (MonthStart (m - 1) leap + d - 1)).
  { unfold MakeDay.
    rewrite (Z.div_small (m - 1) 12), (Z.mod_small (m - 1) 12) by lia.
    rewrite Z.add_0_r, Hl. lia. }
  destruct (day_of_month_bounds y m d leap Hm Hd Hleap) as (Hn & Hlo & Hhi).
  set (n := MonthStart (m - 1) leap + d - 1) in *.
  assert (Hyear : YearFromTime t = y).
  { unfold YearFromTime. rewrite Hday, Hmk. apply YearFromDay_unique.
    rewrite DayFromYear_succ. lia. }
  assert (Hil : InLeapYear t = leap) by (unfold InLeapYear; by rewrite Hyear).
  assert (Hdw : DayWithinYear t = n).
  { unfold DayWithinYear. rewrite Hyear, Hday, Hmk. lia. }
  assert (Hmonth : MonthFromTime t = m - 1).
  { unfold MonthFromTime. rewrite Hdw, Hil. clearbody n.
    assert (Hl01 : leap = 0 \/ leap = 1) by lia.
    destruct (month_cases m Hm) as
      [->|[->|[->|[->|[->|[->|[->|[->|[->|[->|[->| ->]]]]]]]]]]];
      simpl (MonthStart _ _) in Hlo, Hhi;
      repeat match goal with
             | |- context [if ?a <? ?b then _ else _] =>
                 destruct (Z.ltb_spec a b); try lia
             end. }
  repeat split; [done | done |].
  unfold DateFromTime. rewrite Hmonth, Hdw, Hil. lia.
Qed.

End Roundtrip.

(* ====================================================================== *)
(** ** Decimal numerals                                                    *)
(* ====================================================================== *)

(** A boolean property checked on every integer of a finite range holds
    on the range. *)
Lemma check_range (P : Z -> bool) (lo : Z) (n : nat) :
  forallb P (map (fun i => lo + Z.of_nat i) (seq 0 n)) = true ->
  forall z, lo <= z < lo + Z.of_nat n -> P z = true.
Proof.
  intros Hall z Hz.
  rewrite forallb_forall in Hall. apply Hall.
  apply in_map_iff. exists (Z.to_nat (z - lo)). split; [lia |].
  apply in_seq. lia.
Qed.

Lemma padStart_two_digits n :
  0 <= n <= 99 -> padStart 2 48 (of_Z n) = two_digits n.
Proof.
  intros Hn.
  set (P := fun z => bool_decide (padStart 2 48 (of_Z z) = two_digits z)).
  assert (Hall : forallb P (map (fun i => 0 + Z.of_nat i) (seq 0 100)) = true)
    by (vm_compute; reflexivity).
  pose proof (check_range P 0 100 Hall n ltac:(lia)) as H.
  unfold P in H. by apply bool_decide_eq_true in H.
Qed.

Lemma of_Z_four_digits y :
  1000 <= y <= 9999 -> length (of_Z y) = 4%nat.
Proof.
  intros Hy.
  set (P := fun z => bool_decide (length (of_Z z) = 4%nat)).
  assert (Hall :
    forallb P (map (fun i => 1000 + Z.of_nat i) (seq 0 (Z.to_nat 9000)))
    = true)
    by (vm_compute; reflexivity).
  pose proof (check_range P 1000 (Z.to_nat 9000) Hall y ltac:(lia)) as H.
  unfold P in H. by apply bool_decide_eq_true in H.
Qed.

(* ====================================================================== *)
(** ** C2: the previous business day                                       *)
(* ====================================================================== *)

Lemma previousBusinessDay_of_eq tza now :
  - JsDate.maxTime + 3 * JsDate.msPerDay <= now <= JsDate.maxTime ->
  let prev := JsDate.LocalTime tza now
              - days_back (JsDate.LocalTime tza now) * JsDate.msPerDay in
  previousBusinessDay_of tza now
  = of_Z (JsDate.YearFromTime prev) ++ js "-"
    ++ two_digits (JsDate.MonthFromTime prev + 1) ++ js "-"
    ++ two_digits (JsDate.DateFromTime prev).
Proof.
  intros Hnow prev.
  set (today := JsDate.LocalTime tza now) in *.
  assert (Hk : 1 <= days_back today <= 3).
  { unfold days_back. repeat case_match; lia. }
  unfold previousBusinessDay_of.
  cbn [JsDate.getDay JsDate.getDate mbind option_bind num_strict_eq num_sub].
  fold today.
  assert (Hdb :
    (if JsDate.WeekDay today =? 0 then 2
     else if JsDate.WeekDay today =? 1 then 3 else 1) = days_back today).
  { unfold days_back.
    destruct (Z.eqb_spec (JsDate.WeekDay today) 0) as [E|E];
      [rewrite E; reflexivity | reflexivity]. }
  rewrite Hdb. cbn [setDate_num].
  assert (Hset :
    JsDate.setDate tza (Some now) (JsDate.DateFromTime today - days_back today)
    = Some (now - days_back today * JsDate.msPerDay)).
  { apply setDate_back. unfold JsDate.maxTime, JsDate.msPerDay in *. lia. }
  rewrite !Hset.
  cbn [JsDate.getFullYear JsDate.getMonth JsDate.getDate mbind option_bind
       num_add String_of_num].
  replace (JsDate.LocalTime tza (now - days_back today * JsDate.msPerDay))
    with prev by (unfold prev, today, JsDate.LocalTime; lia).
  pose proof (MonthFromTime_range prev). pose proof (DateFromTime_range prev).
  rewrite !padStart_two_digits by lia.
  reflexivity.
Qed.

(** C2.  For every current time [now] (a time value with three days of
    room above the lower limit of [Date]), [getPreviousBusinessDay] reads
    the clock once and returns the local calendar date of the day that
    lies three days before today when today is a Monday, two days before
    when it is a Sunday and one day before otherwise, written as the year,
    a dash, the two-digit month, a dash and the two-digit day; with a
    four-digit year the string has the ten characters of YYYY-MM-DD. *)
Theorem previous_business_day_correct (env : Env) (st : State) :
  let now := clock env (trace st) in
  - JsDate.maxTime + 3 * JsDate.msPerDay <= now <= JsDate.maxTime ->
  let today := JsDate.LocalTime (LocalTZA env) now in
  let back := if JsDate.WeekDay today =? 1 then 3
              else if JsDate.WeekDay today =? 0 then 2
              else 1 in
  let prev := today - back * JsDate.msPerDay in
  let yyyy := JsDate.YearFromTime prev in
  let mm := JsDate.MonthFromTime prev + 1 in
  let dd := JsDate.DateFromTime prev in
  JsDate.Day prev = JsDate.Day today - back /\
  getPreviousBusinessDay env st
  = (Ok (of_Z yyyy ++ js "-" ++ two_digits mm ++ js "-" ++ two_digits dd),
     mkState (heap st) (trace st ++ [EvNewDate now])) /\
  1 <= mm <= 12 /\ 1 <= dd <= 31 /\
  (1000 <= yyyy <= 9999 ->
   length (of_Z yyyy ++ js "-" ++ two_digits mm ++ js "-" ++ two_digits dd)
   = 10%nat).
Proof.
  intros now Hnow today back prev yyyy mm dd.
  pose proof (MonthFromTime_range prev). pose proof (DateFromTime_range prev).
  split; [apply Day_back |].
  split.
  - unfold getPreviousBusinessDay, bind, ask, new_Date, ret. cbn.
    fold now. rewrite previousBusinessDay_of_eq by exact Hnow.
    reflexivity.
  - repeat split; try (unfold mm, dd; lia).
    intros Hy. rewrite !length_app, of_Z_four_digits by exact Hy.
    reflexivity.
Qed.

Lemma previous_business_day_witness :
  getPreviousBusinessDay monday_env init_state
  = (Ok (js "2025-04-18"),
     mkState (heap init_state)
             [EvNewDate (20199 * JsDate.msPerDay + 15 * 3600000)]).
Proof.
  pose proof (previous_business_day_correct monday_env init_state) as H.
  cbv zeta in H.
  destruct H as (_ & Hrun & _).
  - vm_compute. split; discriminate.
  - rewrite Hrun. vm_compute. reflexivity.
Defined.

(* ====================================================================== *)
(** ** Running the fetcher                                                 *)
(* ====================================================================== *)

Lemma state_eta (st : State) : mkState (heap st) (trace st) = st.
Proof. by destruct st. Qed.

Lemma fecha_or_previous_run env st fecha :
  fecha_or_previous fecha env st
  = (Ok (resolved_date env st fecha),
     mkState (heap st) (trace_resolved env st fecha)).
Proof.
  destruct fecha as [[|c s]|]; cbn; try reflexivity.
  unfold ret. by rewrite state_eta.
Qed.

Lemma date_clause_eq d :
  date_clause d
  = js "fecha_de_publicacion_del >= '" ++ d ++ js "T00:00:00.000'".
Proof. unfold date_clause. by rewrite <- app_assoc. Qed.

Lemma where_eq d :
  join (js " AND ") (filtrosBase_init ++ [date_clause d])
  = join (js " AND ") filtrosBase_init ++ js " AND "
    ++ js "fecha_de_publicacion_del >= '" ++ d ++ js "T00:00:00.000'".
Proof.
  rewrite date_clause_eq. cbn [filtrosBase_init app join].
  by rewrite <- !app_assoc.
Qed.

Lemma fresh_not_allocated (h : gmap positive (list (list N))) l x :
  h !! l = Some x -> fresh (dom h) ≠ l.
Proof.
  intros Hl Heq.
  apply (is_fresh (dom h)). rewrite Heq. apply elem_of_dom. eauto.
Qed.

Lemma lookup_heap_with_filtros h d l x :
  h !! l = Some x -> heap_with_filtros h d !! l = Some x.
Proof.
  intros Hl. unfold heap_with_filtros.
  rewrite lookup_insert_ne; [done | by eapply fresh_not_allocated].
Qed.

(** The parameters [getSECOPData] builds, and the state it builds them
    in. *)
Lemma build_params_run env st campos cs fecha :
  heap st !! filtrosBase = Some filtrosBase_init ->
  heap st !! campos = Some cs ->
  build_params campos fecha env st
  = (Ok (query cs (resolved_date env st fecha)),
     mkState (heap_with_filtros (heap st) (resolved_date env st fecha))
             (trace_resolved env st fecha)).
Proof.
  intros Hbase Hcampos.
  unfold build_params, bind. rewrite fecha_or_previous_run.
  unfold read, alloc, push, ret. cbn [heap trace].
  rewrite Hbase. cbn [default].
  rewrite !lookup_insert_eq. cbn [default].
  rewrite insert_insert_eq.
  rewrite lookup_insert_ne by (by eapply fresh_not_allocated).
  rewrite Hcampos. unfold default, from_option, id.
  unfold query, heap_with_filtros. rewrite where_eq.
  by destruct cs.
Qed.

Lemma getSECOPData_run env st campos cs fecha :
  heap st !! filtrosBase = Some filtrosBase_init ->
  heap st !! campos = Some cs ->
  let d := resolved_date env st fecha in
  let o := get_answer env st fecha cs in
  getSECOPData campos fecha env st
  = (Ok (datos_of o), after_fetch env st fecha cs).
Proof.
  intros Hbase Hcampos d o.
  unfold getSECOPData, bind. rewrite (build_params_run _ _ _ cs) by done.
  unfold try_catch, bind, axios_get, ret, console_error, emit.
  cbn [heap trace]. subst o. unfold after_fetch, get_answer. fold d.
  destruct (http_get env (trace_resolved env st fecha) (BASE_URL env)
              (query cs d)) as [data|m];
    cbn [settle datos_of fetch_events heap trace].
  - reflexivity.
  - by rewrite <- app_assoc.
Qed.

(* ====================================================================== *)
(** ** C1: the query                                                       *)
(* ====================================================================== *)

(** C1.  For every field list [cs] (held by the array [campos]) and every
    request, with [d] the date the request resolves to, the query that
    [getSECOPData] builds and sends has as [$where] the four fixed clauses
    joined with [" AND "] and then the clause
    [fecha_de_publicacion_del >= 'dT00:00:00.000'], as [$select] the
    fields joined with commas, or [*] when there is none, as [$order]
    [precio_base DESC], as [$limit] 1000 and as [$offset] 0. *)
Theorem built_query_correct (env : Env) (st : State) (campos : positive)
  (cs : list (list N)) (fecha : option (list N)) :
  heap st !! filtrosBase = Some filtrosBase_init ->
  heap st !! campos = Some cs ->
  let d := resolved_date env st fecha in
  let params :=
    {| p_where :=
         join (js " AND ")
              [ js "adjudicado = 'No'";
                js "precio_base > 500000000";
                js "modalidad_de_contratacion != 'Contrataci" ++ [243%N]
                  ++ js "n directa'";
                js "codigo_principal_de_categoria LIKE '%811015%'" ]
         ++ js " AND "
         ++ js "fecha_de_publicacion_del >= '" ++ d ++ js "T00:00:00.000'";
       p_select := if bool_decide (cs = []) then js "*" else join (js ",") cs;
       p_order := js "precio_base DESC";
       p_limit := 1000;
       p_offset := 0 |} in
  (exists st1, build_params campos fecha env st = (Ok params, st1)) /\
  (exists datos st2 log,
     getSECOPData campos fecha env st = (Ok datos, st2) /\
     trace st2
     = trace_resolved env st fecha ++ EvGet (BASE_URL env) params :: log /\
     forall url q, EvGet url q ∉ log).
Proof.
  intros Hbase Hcampos d params.
  assert (Hq : query cs d = params).
  { unfold query, params. f_equal. by destruct cs. }
  split.
  - eexists. rewrite (build_params_run _ _ _ cs) by done. fold d.
    by rewrite Hq.
  - pose proof (getSECOPData_run env st campos cs fecha Hbase Hcampos) as Hrun.
    cbv zeta in Hrun. unfold after_fetch in Hrun. fold d in Hrun.
    rewrite Hq in Hrun.
    do 3 eexists. split; [exact Hrun |]. split; [reflexivity |].
    intros url q Hin.
    destruct (get_answer env st fecha cs); cbn in Hin.
    + by apply elem_of_nil in Hin.
    + apply list_elem_of_singleton in Hin. discriminate.
Qed.

Lemma built_query_witness :
  exists st1,
    build_params camposReducidos (Some (js "2025-04-18")) monday_env init_state
    = (Ok (query camposReducidos_init (js "2025-04-18")), st1).
Proof.
  destruct (built_query_correct monday_env init_state camposReducidos
              camposReducidos_init (Some (js "2025-04-18")))
    as [[st1 H] _].
  - reflexivity.
  - reflexivity.
  - exists st1. rewrite H. reflexivity.
Defined.

(* ====================================================================== *)
(** ** C6: date validation                                                 *)
(* ====================================================================== *)

Lemma is_digit_value c : is_digit c = true -> 0 <= digit_value c <= 9.
Proof.
  unfold is_digit, digit_value. intros H.
  apply andb_prop in H as [H1 H2].
  apply N.leb_le in H1, H2. lia.
Qed.

(** The strings that the date pattern matches. *)
Lemma date_regex_matches s :
  Regex.test_anchored date_regex s = true <->
  exists y1 y2 y3 y4 m1 m2 d1 d2,
    s = [y1; y2; y3; y4; 45%N; m1; m2; 45%N; d1; d2] /\
    forallb is_digit [y1; y2; y3; y4; m1; m2; d1; d2] = true.
Proof.
  unfold Regex.test_anchored, date_regex. split.
  - intros H.
    repeat (destruct s as [|? s]; cbn in H; try discriminate H;
            match type of H with
            | context [if is_digit ?c then _ else _] =>
                destruct (is_digit c) eqn:?; try discriminate H
            | context [if (?c =? 45)%N then _ else _] =>
                destruct (N.eqb_spec c 45); try discriminate H; subst
            | _ => idtac
            end).
    do 8 eexists. split; [reflexivity |]. cbn.
    by repeat match goal with E : is_digit _ = true |- _ => rewrite E; clear E end.
  - intros (y1 & y2 & y3 & y4 & m1 & m2 & d1 & d2 & -> & Hd).
    cbn in Hd. repeat (apply andb_prop in Hd as [? Hd]).
    cbn. by repeat match goal with E : is_digit _ = true |- _ => rewrite E; clear E end.
Qed.

Lemma MonthStart_bounds mn leap :
  0 <= leap <= 1 -> 0 <= JsDate.MonthStart mn leap <= 335.
Proof. intros Hl. unfold JsDate.MonthStart. repeat case_match; lia. Qed.

Lemma MakeDay_bounds y m d :
  0 <= y <= 9999 -> 1 <= m <= 12 -> 1 <= d <= 31 ->
  -1000000 <= JsDate.MakeDay y (m - 1) d <= 4000000.
Proof.
  intros Hy Hm Hd.
  unfold JsDate.MakeDay.
  rewrite (Z.div_small (m - 1) 12) by lia. rewrite Z.add_0_r.
  pose proof (MonthStart_bounds ((m - 1) mod 12)
                (if JsDate.DaysInYear y =? 366 then 1 else 0)
                ltac:(case_match; lia)).
  pose proof (DayFromYear_bounds y). lia.
Qed.

(** A four-digit year, a month and a day of the month always give a time
    value within the limits of [Date], in every zone. *)
Lemma MakeDay_in_zone_in_range tza y m d :
  - JsDate.msPerDay <= tza <= JsDate.msPerDay ->
  0 <= y <= 9999 -> 1 <= m <= 12 -> 1 <= d <= 31 ->
  JsDate.TimeClip
    (JsDate.UTC tza (JsDate.MakeDate (JsDate.MakeDay y (m - 1) d) 0))
  = Some (JsDate.MakeDay y (m - 1) d * JsDate.msPerDay - tza).
Proof.
  intros Htza Hy Hm Hd.
  pose proof (MakeDay_bounds y m d Hy Hm Hd) as Hrange.
  unfold JsDate.TimeClip, JsDate.UTC, JsDate.MakeDate. rewrite Z.add_0_r.
  destruct (Z.leb_spec
              (Z.abs (JsDate.MakeDay y (m - 1) d * JsDate.msPerDay - tza))
              JsDate.maxTime) as [_|Hbad]; [done |].
  unfold JsDate.msPerDay, JsDate.maxTime in *. lia.
Qed.

Lemma MakeDay_in_range y m d :
  0 <= y <= 9999 -> 1 <= m <= 12 -> 1 <= d <= 31 ->
  JsDate.TimeClip (JsDate.MakeDate (JsDate.MakeDay y (m - 1) d) 0)
  = Some (JsDate.MakeDay y (m - 1) d * JsDate.msPerDay).
Proof.
  intros Hy Hm Hd.
  pose proof (MakeDay_in_zone_in_range 0 y m d) as H.
  unfold JsDate.UTC in H. rewrite !Z.sub_0_r in H.
  apply H; [unfold JsDate.msPerDay |..]; lia.
Qed.

Lemma legacy_year_range y : 0 <= y <= 99 -> 1950 <= legacy_year y <= 2049.
Proof.
  intros Hy. unfold legacy_year.
  destruct (Z.leb_spec 0 y), (Z.leb_spec y 49), (Z.leb_spec 50 y),
    (Z.leb_spec y 99); cbn [andb]; lia.
Qed.

(** The fields of a string of the form [YYYY-MM-DD]. *)
Lemma date_fields_inv s y m d :
  date_fields s = Some (y, m, d) ->
  exists y1 y2 y3 y4 c1 m1 m2 c2 d1 d2,
    s = [y1; y2; y3; y4; c1; m1; m2; c2; d1; d2] /\
    y = digits_value [y1; y2; y3; y4] /\
    m = digits_value [m1; m2] /\
    d = digits_value [d1; d2] /\
    0 <= y <= 9999 /\ 0 <= m <= 99 /\ 0 <= d <= 99.
Proof.
  unfold date_fields. intros Hf.
  destruct (Regex.test_anchored date_regex s) eqn:Hre; [| discriminate Hf].
  apply date_regex_matches in Hre
    as (y1 & y2 & y3 & y4 & m1 & m2 & d1 & d2 & -> & Hdig).
  injection Hf as <- <- <-.
  cbn in Hdig. repeat (apply andb_prop in Hdig as [? Hdig]).
  repeat match goal with
         | E : is_digit _ = true |- _ => apply is_digit_value in E
         end.
  exists y1, y2, y3, y4, 45%N, m1, m2, 45%N, d1, d2.
  do 4 (split; [reflexivity |]).
  unfold digits_value. cbn [fold_left]. lia.
Qed.

Ltac leb_cases :=
  repeat match goal with
         | |- context [?a <=? ?b] =>
             destruct (Z.leb_spec a b); cbn [andb orb negb]
         end.

(** A string with a month from 01 to 12 and a day from 01 to 31 is read
    as year, month and day, at midnight UTC whatever the zone. *)
Lemma new_Date_iso tza s y m d :
  date_fields s = Some (y, m, d) -> 1 <= m <= 12 -> 1 <= d <= 31 ->
  new_Date_in_zone tza s
  = Some (JsDate.MakeDay y (m - 1) d * JsDate.msPerDay).
Proof.
  intros Hf Hm Hd.
  apply date_fields_inv in Hf
    as (y1 & y2 & y3 & y4 & c1 & m1 & m2 & c2 & d1 & d2
        & -> & Ey & Em & Ed & Hy & _ & _).
  cbn [new_Date_in_zone]. rewrite <- Ey, <- Em, <- Ed. clear Ey Em Ed.
  unfold DayComposer_Write, IsMonth, IsDay.
  leb_cases; try lia; by apply MakeDay_in_range.
Qed.

(** Any other string whose year field is from 0001 to 0012 and whose
    month field is from 01 to 31 is read as month, day and year, at
    midnight in local time. *)
Lemma new_Date_fallback tza s y m d :
  - JsDate.msPerDay <= tza <= JsDate.msPerDay ->
  date_fields s = Some (y, m, d) ->
  ~ (1 <= m <= 12 /\ 1 <= d <= 31) -> 1 <= y <= 12 -> 1 <= m <= 31 ->
  new_Date_in_zone tza s
  = Some (JsDate.MakeDay (legacy_year d) (y - 1) m * JsDate.msPerDay - tza).
Proof.
  intros Htza Hf Hiso Hy Hm.
  apply date_fields_inv in Hf
    as (y1 & y2 & y3 & y4 & c1 & m1 & m2 & c2 & d1 & d2
        & -> & Ey & Em & Ed & _ & _ & Hd).
  cbn [new_Date_in_zone]. rewrite <- Ey, <- Em, <- Ed. clear Ey Em Ed.
  pose proof (legacy_year_range d Hd) as Hly.
  unfold DayComposer_Write, IsMonth, IsDay.
  leb_cases; try lia; apply MakeDay_in_zone_in_range; lia.
Qed.

(** All other strings are no date. *)
Lemma new_Date_invalid tza s y m d :
  date_fields s = Some (y, m, d) ->
  ~ (1 <= m <= 12 /\ 1 <= d <= 31) -> ~ (1 <= y <= 12 /\ 1 <= m <= 31) ->
  new_Date_in_zone tza s = None.
Proof.
  intros Hf Hiso Hfb.
  apply date_fields_inv in Hf
    as (y1 & y2 & y3 & y4 & c1 & m1 & m2 & c2 & d1 & d2
        & -> & Ey & Em & Ed & _).
  cbn [new_Date_in_zone]. rewrite <- Ey, <- Em, <- Ed. clear Ey Em Ed.
  unfold DayComposer_Write, IsMonth, IsDay.
  leb_cases; try lia; reflexivity.
Qed.

(** The strings of the form [YYYY-MM-DD] that are a date, in every
    zone. *)
Lemma new_Date_valid tza s y m d :
  - JsDate.msPerDay <= tza <= JsDate.msPerDay ->
  date_fields s = Some (y, m, d) ->
  new_Date_in_zone tza s <> None <->
  (1 <= m <= 12 /\ 1 <= d <= 31) \/ (1 <= y <= 12 /\ 1 <= m <= 31).
Proof.
  intros Htza Hf.
  destruct (decide (1 <= m <= 12 /\ 1 <= d <= 31)) as [Hiso|Hiso].
  { rewrite (new_Date_iso tza s y m d Hf) by lia. split; [by left | done]. }
  destruct (decide (1 <= y <= 12 /\ 1 <= m <= 31)) as [Hfb|Hfb].
  { rewrite (new_Date_fallback tza s y m d Htza Hf Hiso) by lia.
    split; [by right | done]. }
  rewrite (new_Date_invalid tza s y m d Hf Hiso Hfb).
  split; [done | intros [?|?]; done].
Qed.

Lemma new_Date_valid_in_every_zone tza s :
  - JsDate.msPerDay <= tza <= JsDate.msPerDay ->
  Regex.test_anchored date_regex s = true ->
  new_Date_in_zone tza s = None <-> new_Date_of_string s = None.
Proof.
  intros Htza Hre.
  destruct (date_fields s) as [[[y m] d]|] eqn:Hf.
  - pose proof (new_Date_valid tza s y m d Htza Hf) as H1.
    pose proof (new_Date_valid 0 s y m d
                  ltac:(unfold JsDate.msPerDay; lia) Hf) as H2.
    fold (new_Date_of_string s) in H2.
    rewrite <- H2 in H1.
    destruct (new_Date_in_zone tza s), (new_Date_of_string s);
      intuition congruence.
  - unfold date_fields in Hf. rewrite Hre in Hf.
    apply date_regex_matches in Hre
      as (y1 & y2 & y3 & y4 & m1 & m2 & d1 & d2 & -> & _).
    discriminate Hf.
Qed.

Lemma isValidDateFormat_fields s :
  isValidDateFormat s = true <->
  exists y m d,
    date_fields s = Some (y, m, d) /\
    ((1 <= m <= 12 /\ 1 <= d <= 31) \/ (1 <= y <= 12 /\ 1 <= m <= 31)).
Proof.
  assert (Hzone : - JsDate.msPerDay <= 0 <= JsDate.msPerDay)
    by (unfold JsDate.msPerDay; lia).
  unfold isValidDateFormat.
  destruct (Regex.test_anchored date_regex s) eqn:Hre; cbn [negb andb].
  2: { split; [discriminate |].
       intros (? & ? & ? & Hf & _). unfold date_fields in Hf.
       rewrite Hre in Hf. discriminate Hf. }
  destruct (date_fields s) as [[[y m] d]|] eqn:Hf.
  2: { unfold date_fields in Hf. rewrite Hre in Hf.
       apply date_regex_matches in Hre
         as (y1 & y2 & y3 & y4 & m1 & m2 & d1 & d2 & -> & _).
       discriminate Hf. }
  pose proof (new_Date_valid 0 s y m d Hzone Hf) as Hv.
  fold (new_Date_of_string s) in Hv.
  rewrite negb_true_iff, bool_decide_eq_false, Hv.
  split.
  - intros H. by exists y, m, d.
  - intros (y' & m' & d' & [= <- <- <-] & H). exact H.
Qed.

(** In the ECMA-262 format the year, month and day are the fields of the
    string, so a validated string with a month from 01 to 12 and a day
    from 01 to 31 is a date at midnight UTC. *)
Lemma new_Date_of_iso s y m d :
  date_fields s = Some (y, m, d) -> 1 <= m <= 12 -> 1 <= d <= 31 ->
  new_Date_of_string s
  = Some (JsDate.MakeDay y (m - 1) d * JsDate.msPerDay).
Proof. apply new_Date_iso. Qed.

Lemma DaysInMonth_le y m : DaysInMonth y m <= 31.
Proof. unfold DaysInMonth. repeat case_match; lia. Qed.

(** C6, as the specification states it, fails: a string of the right
    form whose day lies past the end of its month is accepted; the date
    constructor does not reject it but counts on into the next month. *)
Lemma isValidDateFormat_accepts_february_30 :
  ~ (isValidDateFormat (js "2025-02-30") = true <->
     Regex.test_anchored date_regex (js "2025-02-30") = true /\
     real_calendar_date (js "2025-02-30") = true)
  /\ new_Date_of_string (js "2025-02-30") = new_Date_of_string (js "2025-03-02").
Proof.
  split; [| reflexivity].
  intros [Hvalid _].
  assert (H : isValidDateFormat (js "2025-02-30") = true) by reflexivity.
  apply Hvalid in H as [_ H]. vm_compute in H. discriminate H.
Qed.

(** C6, amended.  [isValidDateFormat s] is true if and only if [s] has
    the form of four digits, a dash, two digits, a dash and two digits
    and the date constructor takes it for a date, which it does in two
    cases and no other: the month is from 01 to 12 and the day from 01
    to 31; or the year field is from 0001 to 0012 and the month field
    from 01 to 31.  The verdict is the same in every time zone.  In the
    first case the string is read as year, month and day at midnight
    UTC, a day past the end of the month falling in the next month;
    every string of the form that names a real calendar date is
    therefore accepted and read as that date.  In the second case, when
    not also in the first, the fallback of the parser reads the three
    numbers as month, day and year, the year from 00 to 49 being 2000 to
    2049 and from 50 to 99 being 1950 to 1999, at midnight in local
    time: [0012-04-00] is 4 December 2000 and [0001-13-01] is
    13 January 2001.  [2025-04-18] is accepted; [2025-13-01] and
    [25-04-18] are not. *)
Theorem isValidDateFormat_characterised :
  (forall s,
     isValidDateFormat s = true <->
     exists y m d,
       date_fields s = Some (y, m, d) /\
       ((1 <= m <= 12 /\ 1 <= d <= 31) \/
        (1 <= y <= 12 /\ 1 <= m <= 31))) /\
  (forall tza s,
     - JsDate.msPerDay <= tza <= JsDate.msPerDay ->
     isValidDateFormat s = true <->
     Regex.test_anchored date_regex s = true /\
     new_Date_in_zone tza s <> None) /\
  (forall tza s y m d,
     date_fields s = Some (y, m, d) ->
     1 <= m <= 12 -> 1 <= d <= 31 ->
     new_Date_in_zone tza s
     = Some (JsDate.MakeDay y (m - 1) d * JsDate.msPerDay)) /\
  (forall s y m d,
     real_calendar_date s = true ->
     date_fields s = Some (y, m, d) ->
     isValidDateFormat s = true /\
     exists t,
       new_Date_of_string s = Some t /\
       JsDate.YearFromTime t = y /\
       JsDate.MonthFromTime t = m - 1 /\
       JsDate.DateFromTime t = d) /\
  (forall tza s y m d,
     - JsDate.msPerDay <= tza <= JsDate.msPerDay ->
     date_fields s = Some (y, m, d) ->
     ~ (1 <= m <= 12 /\ 1 <= d <= 31) ->
     1 <= y <= 12 -> 1 <= m <= 31 ->
     let lt := JsDate.MakeDay (legacy_year d) (y - 1) m * JsDate.msPerDay in
     new_Date_in_zone tza s = Some (JsDate.UTC tza lt) /\
     (m <= DaysInMonth (legacy_year d) y ->
      JsDate.YearFromTime lt = legacy_year d /\
      JsDate.MonthFromTime lt = y - 1 /\
      JsDate.DateFromTime lt = m)) /\
  isValidDateFormat (js "2025-04-18") = true /\
  isValidDateFormat (js "2025-13-01") = false /\
  isValidDateFormat (js "25-04-18") = false /\
  isValidDateFormat (js "0012-04-00") = true /\
  new_Date_of_string (js "0012-04-00") = new_Date_of_string (js "2000-12-04") /\
  isValidDateFormat (js "0001-13-01") = true /\
  new_Date_of_string (js "0001-13-01") = new_Date_of_string (js "2001-01-13").
Proof.
  split; [exact isValidDateFormat_fields |].
  split.
  { intros tza s Htza. unfold isValidDateFormat.
    destruct (Regex.test_anchored date_regex s) eqn:Hre; cbn [negb andb].
    - rewrite negb_true_iff, bool_decide_eq_false.
      pose proof (new_Date_valid_in_every_zone tza s Htza Hre) as Hz.
      split; [intros H; split; [reflexivity | tauto] | intros [_ H]; tauto].
    - split; [discriminate | intros [H _]; discriminate H]. }
  split; [exact new_Date_iso |].
  split.
  { intros s y m d H Hf.
    unfold real_calendar_date in H. rewrite Hf in H.
    pose proof (DaysInMonth_le y m) as Hle.
    assert (Hm : 1 <= m <= 12) by lia.
    assert (Hd : 1 <= d <= DaysInMonth y m) by lia.
    split.
    - apply isValidDateFormat_fields. exists y, m, d.
      split; [exact Hf | left; lia].
    - exists (JsDate.MakeDay y (m - 1) d * JsDate.msPerDay).
      split; [| by apply calendar_date_fields].
      apply new_Date_of_iso; [exact Hf | lia | lia]. }
  split.
  { intros tza s y m d Htza Hf Hiso Hy Hm lt. split.
    - apply (new_Date_fallback tza s y m d Htza Hf Hiso Hy Hm).
    - intros Hdim. apply calendar_date_fields; lia. }
  repeat split; reflexivity.
Qed.

Lemma isValidDateFormat_witness :
  (exists t,
     new_Date_of_string (js "2025-04-18") = Some t /\
     JsDate.YearFromTime t = 2025 /\
     JsDate.MonthFromTime t = 3 /\
     JsDate.DateFromTime t = 18) /\
  (exists lt,
     new_Date_in_zone (-18000000) (js "0012-04-00")
     = Some (JsDate.UTC (-18000000) lt) /\
     JsDate.YearFromTime lt = 2000 /\
     JsDate.MonthFromTime lt = 11 /\
     JsDate.DateFromTime lt = 4).
Proof.
  destruct isValidDateFormat_characterised as (_ & _ & _ & H & Hfb & _).
  split.
  - destruct (H (js "2025-04-18") 2025 4 18 eq_refl eq_refl) as [_ Ht].
    exact Ht.
  - destruct (Hfb (-18000000) (js "0012-04-00") 12 4 0) as [Hd Hfields].
    + unfold JsDate.msPerDay. lia.
    + reflexivity.
    + lia.
    + lia.
    + lia.
    + exists (JsDate.MakeDay 2000 11 4 * JsDate.msPerDay).
      split; [exact Hd |]. apply Hfields. vm_compute. discriminate.
Defined.

(* ====================================================================== *)
(** ** Running the analyzer                                                *)
(* ====================================================================== *)

Lemma analyseDataWithAI_run env st data :
  let o := http_post env (trace st) (chat_payload data) in
  analyseDataWithAI data env st
  = (Ok (analysis_of o).1, after_analysis env st data).
Proof.
  intros o.
  unfold after_analysis, analyseDataWithAI, bind, ask, try_catch, bind, axios_post, lift,
    console_error, emit, ret, analysis_of.
  cbn [heap trace]. fold o.
  destruct (settle o) as [response_data|e]; cbn [rbind fst snd heap trace].
  2: { by rewrite <- app_assoc. }
  destruct (reply_content response_data) as [content|e];
    cbn [fst snd heap trace].
  2: { by rewrite <- app_assoc. }
  destruct (falsy content) eqn:Hfalsy; [reflexivity |].
  destruct content; cbn [as_string_for_replace fst snd heap trace err_message];
    try (by rewrite <- app_assoc).
  destruct (Json.parse (cleanResponse s)); cbn [fst snd heap trace].
  - reflexivity.
  - by rewrite <- app_assoc.
Qed.

Lemma reply_content_chat_reply content :
  reply_content (chat_reply content) = Ok content.
Proof. reflexivity. Qed.


Lemma analysis_invalid_json env st data r text :
  http_post env (trace st) (chat_payload data) = Resolved r ->
  reply_content r = Ok (VString text) ->
  text <> [] ->
  Json.parse (cleanResponse text) = None ->
  exists st',
    analyseDataWithAI data env st
    = (Ok (invalid_json_marker (cleanResponse text)), st').
Proof.
  intros Ho Hc Htext Hparse. eexists.
  rewrite analyseDataWithAI_run. cbv zeta. rewrite Ho.
  unfold analysis_of. cbn [settle rbind]. rewrite Hc.
  cbn [falsy]. rewrite bool_decide_eq_false_2 by exact Htext.
  rewrite Hparse. reflexivity.
Qed.


Lemma analysis_parsed env st data r text v :
  http_post env (trace st) (chat_payload data) = Resolved r ->
  reply_content r = Ok (VString text) ->
  Json.parse (cleanResponse text) = Some v ->
  text <> [] ->
  exists st', analyseDataWithAI data env st = (Ok v, st').
Proof.
  intros Ho Hc Hparse Htext. eexists.
  rewrite analyseDataWithAI_run. cbv zeta. rewrite Ho.
  unfold analysis_of. cbn [settle rbind]. rewrite Hc.
  cbn [falsy]. rewrite bool_decide_eq_false_2 by exact Htext.
  rewrite Hparse. reflexivity.
Qed.

(* ====================================================================== *)
(** ** C4: the three failures of the analyzer                              *)
(* ====================================================================== *)



(* ====================================================================== *)
(** ** C9: a reply that is not JSON                                        *)
(* ====================================================================== *)



(* ====================================================================== *)
(** ** The JSON parser has enough fuel                                     *)
(* ====================================================================== *)

Section JsonFuel.

Import Json.

Lemma skip_ws_length s : (length (skip_ws s) <= length s)%nat.
Proof.
  induction s as [|c s IH]; cbn; [lia |].
  destruct (is_ws c); cbn; lia.
Qed.

Lemma skip_ws_cons s c r :
  skip_ws s = c :: r -> (length r < length s)%nat.
Proof. intros H. pose proof (skip_ws_length s) as Hl. rewrite H in Hl. cbn in Hl. lia. Qed.

Lemma string_body_length_bounded n :
  forall s, (length s <= n)%nat ->
  forall str r, string_body s = Some (str, r) -> (length r < length s)%nat.
Proof.
  induction n as [|n IH]; intros s Hn str r H.
  - destruct s; [discriminate H | cbn in Hn; lia].
  - destruct s as [|c s]; [discriminate H |].
    cbn [string_body] in H. cbn [length] in Hn.
    repeat case_match; simplify_eq; cbn [length] in *;
      try match goal with
          | E : string_body ?x = Some (_, ?r) |- _ =>
              apply IH in E; [cbn [length] in E |- *; lia | cbn [length]; lia]
          end; lia.
Qed.

Lemma string_body_length s str r :
  string_body s = Some (str, r) -> (length r < length s)%nat.
Proof. by apply (string_body_length_bounded (length s)). Qed.

Lemma take_digits_length s :
  (length (take_digits s).2 <= length s)%nat.
Proof.
  induction s as [|c s IH]; cbn; [lia |].
  destruct (is_digit c); [| cbn; lia].
  destruct (take_digits s); cbn in *; lia.
Qed.

Lemma take_digits_rest s ds r :
  take_digits s = (ds, r) -> (length r <= length s)%nat.
Proof. intros H. pose proof (take_digits_length s) as Hl. by rewrite H in Hl. Qed.

Lemma number_consumes s v r :
  number s = POk v r -> (length r < length s)%nat.
Proof.
  unfold number, int_part, frac_part, exp_part. intros H.
  repeat case_match; simplify_eq; cbn [length] in *;
    repeat match goal with
           | E : take_digits _ = (_, _) |- _ =>
               apply take_digits_rest in E; cbn [length] in E
           end; lia.
Qed.

Lemma number_has_fuel s : number s <> POutOfFuel.
Proof. unfold number. repeat case_match; discriminate. Qed.

Lemma after_literal_length lit :
  forall s r, after_literal lit s = Some r -> (length r <= length s)%nat.
Proof.
  induction lit as [|a lit IH]; intros s r H.
  - destruct s; cbn in H; simplify_eq; lia.
  - destruct s as [|c s]; cbn in H; [discriminate H |].
    destruct (a =? c)%N; [| discriminate H].
    apply IH in H. cbn. lia.
Qed.

Ltac length_facts :=
  repeat match goal with
         | E : skip_ws _ = _ :: _ |- _ => apply skip_ws_cons in E
         | E : string_body _ = Some (_, _) |- _ => apply string_body_length in E
         | E : after_literal _ _ = Some _ |- _ => apply after_literal_length in E
         | E : number _ = POk _ _ |- _ => apply number_consumes in E
         end;
  cbn [length] in *.

(** A successful parse consumes at least one code unit. *)
Lemma parse_consumes fuel :
  (forall s v r, parse_value fuel s = POk v r -> (length r < length s)%nat) /\
  (forall acc s v r,
     parse_elements fuel acc s = POk v r -> (length r < length s)%nat) /\
  (forall acc s v r,
     parse_members fuel acc s = POk v r -> (length r < length s)%nat).
Proof.
  induction fuel as [|fuel (IHv & IHe & IHm)];
    [by repeat split; intros; discriminate |].
  split; [| split].
  - intros s v r H. cbn [parse_value] in H.
    repeat case_match; simplify_eq;
      try match goal with
          | E : parse_members _ _ _ = POk _ _ |- _ => apply IHm in E
          | E : parse_elements _ _ _ = POk _ _ |- _ => apply IHe in E
          end;
      length_facts; lia.
  - intros acc s v r H. cbn [parse_elements] in H.
    repeat case_match; simplify_eq;
      repeat match goal with
             | E : parse_value _ _ = POk _ _ |- _ => apply IHv in E
             | E : parse_elements _ _ _ = POk _ _ |- _ => apply IHe in E
             end;
      length_facts; lia.
  - intros acc s v r H. cbn [parse_members] in H.
    repeat case_match; simplify_eq;
      repeat match goal with
             | E : parse_value _ _ = POk _ _ |- _ => apply IHv in E
             | E : parse_members _ _ _ = POk _ _ |- _ => apply IHm in E
             end;
      length_facts; lia.
Qed.

(** With two units of fuel for each code unit, the parser never stops for
    lack of fuel. *)
Lemma parse_has_fuel fuel :
  (forall s, (2 * length s + 1 <= fuel)%nat ->
             parse_value fuel s <> POutOfFuel) /\
  (forall acc s, (2 * length s + 2 <= fuel)%nat ->
                 parse_elements fuel acc s <> POutOfFuel) /\
  (forall acc s, (2 * length s + 2 <= fuel)%nat ->
                 parse_members fuel acc s <> POutOfFuel).
Proof.
  induction fuel as [|fuel (IHv & IHe & IHm)];
    [by repeat split; intros; lia |].
  destruct (parse_consumes fuel) as (Cv & Ce & Cm).
  split; [| split].
  - intros s Hs. cbn [parse_value].
    repeat case_match; try discriminate; try apply number_has_fuel;
      [apply IHm | apply IHe]; length_facts; lia.
  - intros acc s Hs. cbn [parse_elements].
    destruct (parse_value fuel s) as [v r| |] eqn:Hv;
      [| discriminate | by apply IHv in Hv; [| lia]].
    apply Cv in Hv.
    repeat case_match; try discriminate.
    apply IHe. length_facts. lia.
  - intros acc s Hs. cbn [parse_members].
    repeat case_match; try discriminate;
      repeat match goal with
             | E : parse_value _ _ = POk _ _ |- _ => apply Cv in E
             end.
    + apply IHm. length_facts. lia.
    + match goal with
      | E : parse_value _ ?x = POutOfFuel |- _ =>
          apply IHv in E; [done | length_facts; lia]
      end.
Qed.

Lemma parse_never_out_of_fuel s :
  parse_text (fuel_for s) s <> POutOfFuel.
Proof.
  unfold parse_text, fuel_for.
  destruct (parse_has_fuel (2 * length s + 2)) as (Hv & _).
  specialize (Hv s ltac:(lia)).
  destruct (parse_value (2 * length s + 2) s); [| done | done].
  by case_match.
Qed.

End JsonFuel.

(* ====================================================================== *)
(** ** Running the handlers                                                *)
(* ====================================================================== *)

Lemma globals_with_all_fields st :
  globals_intact st ->
  globals_intact (with_all_fields st) /\
  heap (with_all_fields st) !! fresh (dom (heap st)) = Some [].
Proof.
  intros (Hb & Hr & Hf). unfold globals_intact, with_all_fields. cbn [heap].
  rewrite lookup_insert_eq.
  rewrite !lookup_insert_ne by (by eapply fresh_not_allocated).
  done.
Qed.

(** A rejected date: the handler answers 400 and leaves the state as it
    found it. *)
Lemma rejected_run env st fecha :
  rejects fecha = true ->
  raw fecha env st = (Ok bad_date, st) /\
  filtered fecha env st = (Ok bad_date, st) /\
  analyzed fecha env st = (Ok bad_date, st).
Proof.
  intros Hrej. unfold raw, filtered, analyzed, try_catch.
  rewrite Hrej. done.
Qed.

Lemma filtered_run env st fecha total :
  globals_intact st ->
  rejects fecha = false ->
  let st1 := after_fetch env st fecha camposFiltrados_init in
  let datos := datos_of (get_answer env st fecha camposFiltrados_init) in
  get_length datos = Ok total ->
  filtered fecha env st
  = (Ok (mkResponse 200 (records_body (resolved_date env st1 fecha)
                                      total datos)),
     mkState (heap st1) (trace_resolved env st1 fecha)).
Proof.
  intros (Hb & Hr & Hf) Hrej st1 datos Hlen.
  unfold filtered, try_catch, bind. rewrite Hrej.
  rewrite (getSECOPData_run _ _ _ camposFiltrados_init) by done.
  cbv zeta. fold st1 datos. rewrite fecha_or_previous_run.
  unfold lift, ret. by rewrite Hlen.
Qed.

Lemma raw_run env st fecha total :
  globals_intact st ->
  rejects fecha = false ->
  let st1 := after_fetch env (with_all_fields st) fecha [] in
  let datos := datos_of (get_answer env st fecha []) in
  get_length datos = Ok total ->
  raw fecha env st
  = (Ok (mkResponse 200 (records_body (resolved_date env st1 fecha)
                                      total datos)),
     mkState (heap st1) (trace_resolved env st1 fecha)).
Proof.
  intros Hg Hrej st1 datos Hlen.
  destruct (globals_with_all_fields st Hg) as ((Hb & _) & Hall).
  unfold raw, try_catch, bind. rewrite Hrej.
  unfold alloc at 1. fold (with_all_fields st).
  rewrite (getSECOPData_run _ _ _ []) by done.
  cbv zeta. fold st1.
  change (get_answer env (with_all_fields st) fecha [])
    with (get_answer env st fecha []).
  fold datos. rewrite fecha_or_previous_run.
  unfold lift, ret. by rewrite Hlen.
Qed.

Lemma analyzed_run env st fecha total :
  globals_intact st ->
  rejects fecha = false ->
  let st1 := after_fetch env st fecha camposReducidos_init in
  let datos := datos_of (get_answer env st fecha camposReducidos_init) in
  let st2 := after_analysis env st1 datos in
  let evaluacion :=
    (analysis_of (http_post env (trace st1) (chat_payload datos))).1 in
  get_length datos = Ok total ->
  analyzed fecha env st
  = (Ok (mkResponse 200 (analysis_body (resolved_date env st2 fecha)
                                       total evaluacion)),
     mkState (heap st2) (trace_resolved env st2 fecha)).
Proof.
  intros (Hb & Hr & Hf) Hrej st1 datos st2 evaluacion Hlen.
  unfold analyzed, try_catch, bind. rewrite Hrej.
  rewrite (getSECOPData_run _ _ _ camposReducidos_init) by done.
  cbv zeta. fold st1 datos. rewrite analyseDataWithAI_run.
  cbv zeta. fold st2 evaluacion. rewrite fecha_or_previous_run.
  unfold lift, ret. by rewrite Hlen.
Qed.

Lemma valid_date_not_rejected d :
  isValidDateFormat d = true ->
  rejects (Some d) = false /\ exists c s, d = c :: s.
Proof.
  intros Hv. destruct d as [|c s]; [discriminate Hv |].
  cbn [rejects]. rewrite Hv. eauto.
Qed.

(* ====================================================================== *)
(** ** C3: a failed fetch                                                  *)
(* ====================================================================== *)

(** C3.  When the open-data service rejects the request of a query
    (transport error or a status outside 2xx), [getSECOPData] returns the
    empty array and does not throw; [/raw] and [/filtered] then answer
    with status 200, [total_records] 0 and [data] the empty array. *)
Theorem fetch_failure_gives_empty_200 (env : Env) (st : State)
  (fecha : option (list N)) (m : list N) :
  globals_intact st ->
  (forall campos cs,
     heap st !! campos = Some cs ->
     get_answer env st fecha cs = Rejected m ->
     exists st', getSECOPData campos fecha env st = (Ok (VArray []), st')) /\
  (rejects fecha = false ->
   get_answer env st fecha [] = Rejected m ->
   exists date_used st',
     raw fecha env st
     = (Ok {| status := 200;
              body := Json_body
                        (VObject [ (js "date_used", VString date_used);
                                   (js "total_records", VInt 0);
                                   (js "data", VArray []) ]) |},
        st')) /\
  (rejects fecha = false ->
   get_answer env st fecha camposFiltrados_init = Rejected m ->
   exists date_used st',
     filtered fecha env st
     = (Ok {| status := 200;
              body := Json_body
                        (VObject [ (js "date_used", VString date_used);
                                   (js "total_records", VInt 0);
                                   (js "data", VArray []) ]) |},
        st')).
Proof.
  intros Hg. split; [| split].
  - intros campos cs Hcampos Ho. eexists.
    rewrite (getSECOPData_run _ _ _ cs) by (done || apply Hg).
    cbv zeta. rewrite Ho. reflexivity.
  - intros Hrej Ho. do 2 eexists.
    rewrite (raw_run env st fecha (VInt 0) Hg Hrej)
      by (rewrite Ho; reflexivity).
    cbv zeta. rewrite Ho. reflexivity.
  - intros Hrej Ho. do 2 eexists.
    rewrite (filtered_run env st fecha (VInt 0) Hg Hrej)
      by (rewrite Ho; reflexivity).
    cbv zeta. rewrite Ho. reflexivity.
Qed.

Lemma init_state_intact : globals_intact init_state.
Proof. by repeat split. Qed.

Lemma fetch_failure_witness :
  exists st',
    raw (Some (js "2025-04-18")) monday_env init_state
    = (Ok {| status := 200;
             body := records_body (js "2025-04-18") (VInt 0) (VArray []) |},
       st').
Proof.
  destruct (fetch_failure_gives_empty_200 monday_env init_state
              (Some (js "2025-04-18")) (js "connect ECONNREFUSED")
              init_state_intact) as (_ & Hraw & _).
  destruct Hraw as (d & st' & Hrun); [reflexivity | reflexivity |].
  exists st'. rewrite Hrun.
  assert (Hd : d = js "2025-04-18").
  { pose proof (raw_run monday_env init_state (Some (js "2025-04-18"))
                  (VInt 0) init_state_intact eq_refl eq_refl) as Hrun'.
    rewrite Hrun in Hrun'. cbv zeta in Hrun'. by injection Hrun' as -> _. }
  by rewrite Hd.
Defined.

(* ====================================================================== *)
(** ** C7: an invalid date                                                 *)
(* ====================================================================== *)

(** C7, as the specification states it, fails: a [fecha] parameter that
    is present but empty (as in [/raw?fecha=]) is not a valid date, yet
    the handler treats it as absent: it fetches and answers 200. *)
Lemma empty_fecha_is_fetched :
  isValidDateFormat [] = false /\
  (raw (Some []) chatty_env init_state).1
  = Ok {| status := 200;
          body := records_body (js "2025-04-18") (VInt 2)
                               (VArray [VNull; VNull]) |} /\
  trace (raw (Some []) chatty_env init_state).2
  = [ EvNewDate (20199 * JsDate.msPerDay + 15 * 3600000);
      EvGet None (query [] (js "2025-04-18"));
      EvNewDate (20199 * JsDate.msPerDay + 15 * 3600000) ].
Proof. repeat split; vm_compute; reflexivity. Qed.

(** C7, amended.  For every request to [/raw], [/filtered] or
    [/analyzed] whose [fecha] parameter is a non-empty string that is
    not a valid date, the handler answers with status 400 and leaves the
    state as it found it: nothing is added to the trace, so no fetch, no
    analysis and no other effect takes place. *)
Theorem invalid_date_is_rejected_first (env : Env) (st : State)
  (fecha : list N) :
  fecha <> [] ->
  isValidDateFormat fecha = false ->
  let bad_request :=
    {| status := 400;
       body := Json_body
                 (VObject [ (js "error",
                             VString (js "Invalid date format. Use YYYY-MM-DD")) ])
    |} in
  raw (Some fecha) env st = (Ok bad_request, st) /\
  filtered (Some fecha) env st = (Ok bad_request, st) /\
  analyzed (Some fecha) env st = (Ok bad_request, st).
Proof.
  intros Hne Hbad bad_request.
  apply rejected_run. destruct fecha as [|c s]; [done |].
  cbn [rejects]. by rewrite Hbad.
Qed.

Lemma invalid_date_witness :
  raw (Some (js "bad-date")) chatty_env init_state
  = (Ok bad_date, init_state).
Proof.
  destruct (invalid_date_is_rejected_first chatty_env init_state
              (js "bad-date")) as (H & _).
  - discriminate.
  - reflexivity.
  - exact H.
Defined.

(* ====================================================================== *)
(** ** C8: the response envelopes                                          *)
(* ====================================================================== *)

(** C8.  For every valid date [d] and every answer of the open-data
    service that is an array of records, [/raw?fecha=d] answers with
    status 200 and the body [{date_used: d, total_records: N, data:
    records}], [N] being the number of records; [/analyzed?fecha=d]
    answers with status 200 and the body [{date_used: d,
    total_records_analyzed: N, ai_analysis}], where [N] is the number of
    the records that were sent to the chat service and [ai_analysis] is
    what [analyseDataWithAI] returned for them. *)
Theorem response_envelopes (env : Env) (st : State) (d : list N)
  (records : list value) :
  globals_intact st ->
  isValidDateFormat d = true ->
  (get_answer env st (Some d) [] = Resolved (VArray records) ->
   exists st',
     raw (Some d) env st
     = (Ok {| status := 200;
              body := Json_body
                        (VObject [ (js "date_used", VString d);
                                   (js "total_records",
                                    VInt (Z.of_nat (length records)));
                                   (js "data", VArray records) ]) |},
        st')) /\
  (get_answer env st (Some d) camposReducidos_init = Resolved (VArray records) ->
   exists evaluacion st1 st2 st',
     getSECOPData camposReducidos (Some d) env st = (Ok (VArray records), st1) /\
     analyseDataWithAI (VArray records) env st1 = (Ok evaluacion, st2) /\
     EvPost chatGPTUrl (authorization_header (API_KEY env))
            (chat_payload (VArray records)) ∈ trace st' /\
     analyzed (Some d) env st
     = (Ok {| status := 200;
              body := Json_body
                        (VObject [ (js "date_used", VString d);
                                   (js "total_records_analyzed",
                                    VInt (Z.of_nat (length records)));
                                   (js "ai_analysis", evaluacion) ]) |},
        st')).
Proof.
  intros Hg Hvalid.
  destruct (valid_date_not_rejected d Hvalid) as (Hrej & c & s & ->).
  split.
  - intros Ho. eexists.
    rewrite (raw_run env st _ (VInt (Z.of_nat (length records))) Hg Hrej)
      by (rewrite Ho; reflexivity).
    cbv zeta. rewrite Ho. reflexivity.
  - intros Ho.
    pose proof (analyzed_run env st _ (VInt (Z.of_nat (length records)))
                  Hg Hrej) as Hrun.
    cbv zeta in Hrun. rewrite Ho in Hrun. cbn [datos_of] in Hrun.
    specialize (Hrun eq_refl).
    do 4 eexists. split; [| split; [| split; [| exact Hrun]]].
    + rewrite (getSECOPData_run _ _ _ camposReducidos_init)
        by (done || apply Hg).
      cbv zeta. rewrite Ho. reflexivity.
    + apply analyseDataWithAI_run.
    + cbn [trace trace_resolved after_analysis].
      apply elem_of_app. right. apply elem_of_cons. by left.
Qed.

Lemma response_envelopes_witness :
  exists st',
    raw (Some (js "2025-04-18")) chatty_env init_state
    = (Ok {| status := 200;
             body := records_body (js "2025-04-18") (VInt 2)
                                  (VArray [VNull; VNull]) |},
       st').
Proof.
  destruct (response_envelopes chatty_env init_state (js "2025-04-18")
              [VNull; VNull] init_state_intact eq_refl) as (Hraw & _).
  destruct (Hraw eq_refl) as (st' & Hrun).
  exists st'. exact Hrun.
Defined.

(* ====================================================================== *)
(** ** C5: the code-fence cleanup                                          *)
(* ====================================================================== *)

Lemma match_here_lits p s r :
  Regex.match_here (Regex.lits p) s = Some r -> s = p ++ r.
Proof.
  revert s. induction p as [|a p IH]; intros s H; cbn in H.
  - by injection H as ->.
  - destruct s as [|c s]; [discriminate H |].
    destruct (N.eqb_spec c a) as [->|]; [| discriminate H].
    apply IH in H. by rewrite H.
Qed.

(** A closing fence at the end of the text is removed, and only there. *)
Lemma remove_closing_fence x :
  Regex.remove_first_at_end fence_close (x ++ js "```") = x.
Proof.
  induction x as [|c x IH].
  - reflexivity.
  - cbn [app Regex.remove_first_at_end].
    destruct (Regex.match_here fence_close (c :: x ++ js "```"))
      as [[|? ?]|] eqn:Hm; [| by rewrite IH | by rewrite IH].
    apply match_here_lits in Hm.
    apply (f_equal length) in Hm. cbn in Hm.
    rewrite length_app in Hm. cbn in Hm. lia.
Qed.

Lemma no_fence_without_backtick re s :
  BACKTICK ∉ s ->
  Regex.remove_first (Regex.Lit BACKTICK :: re) s = s /\
  Regex.remove_first_at_end (Regex.Lit BACKTICK :: re) s = s.
Proof.
  induction s as [|c s IH]; intros Hno; [done |].
  apply not_elem_of_cons in Hno as [Hc Hs].
  destruct (IH Hs) as [IH1 IH2].
  cbn [Regex.remove_first Regex.remove_first_at_end Regex.match_here].
  destruct (N.eqb_spec c BACKTICK) as [->|]; [done |].
  by rewrite IH1, IH2.
Qed.

Lemma match_here_lits_app p re s :
  Regex.match_here (Regex.lits p ++ re) (p ++ s) = Regex.match_here re s.
Proof.
  induction p as [|a p IH]; [reflexivity |].
  cbn. by rewrite N.eqb_refl.
Qed.

Lemma remove_first_match re s r :
  Regex.match_here re s = Some r -> Regex.remove_first re s = r.
Proof. intros H. destruct s; cbn [Regex.remove_first]; by rewrite H. Qed.

Lemma cleanResponse_fenced body :
  cleanResponse (js "```json" ++ body ++ js "```") = trim body.
Proof.
  unfold cleanResponse.
  assert (Hopen :
    Regex.remove_first fence_open (js "```json" ++ body ++ js "```")
    = match body with
      | c :: body' => if (c =? LF)%N then body' else body
      | [] => []
      end ++ js "```").
  { apply remove_first_match. unfold fence_open.
    rewrite match_here_lits_app.
    destruct body as [|c body']; [reflexivity |].
    cbn [app Regex.match_here]. by destruct (c =? LF)%N. }
  rewrite Hopen, remove_closing_fence.
  destruct body as [|c body']; [reflexivity |].
  destruct (N.eqb_spec c LF) as [->|]; reflexivity.
Qed.

Lemma cleanResponse_plain text :
  BACKTICK ∉ text -> cleanResponse text = trim text.
Proof.
  intros Hno. unfold cleanResponse.
  change fence_open
    with (Regex.Lit BACKTICK
          :: (Regex.lits (js "``json") ++ [Regex.OptLit LF])).
  change fence_close with (Regex.Lit BACKTICK :: Regex.lits (js "``")).
  destruct (no_fence_without_backtick
              (Regex.lits (js "``json") ++ [Regex.OptLit LF]) text Hno)
    as [H1 _].
  destruct (no_fence_without_backtick (Regex.lits (js "``")) text Hno)
    as [_ H2].
  by rewrite H1, H2.
Qed.

Lemma starts_with_spec p s :
  starts_with p s = true <-> exists r, s = p ++ r.
Proof.
  revert s. induction p as [|a p IH]; intros s; cbn [starts_with].
  - split; [intros _; by exists s | done].
  - destruct s as [|b s].
    + split; [discriminate | intros [r H]; discriminate H].
    + rewrite andb_true_iff, N.eqb_eq, IH. split.
      * intros [-> [r ->]]. by exists r.
      * intros [r H]. injection H as -> ->. split; [done | by exists r].
Qed.

Lemma match_here_lits_prefix p re s r :
  Regex.match_here (Regex.lits p ++ re) s = Some r ->
  exists post, s = p ++ post.
Proof.
  revert s. induction p as [|a p IH]; intros s H.
  - by exists s.
  - cbn in H. destruct s as [|c s]; [discriminate H |].
    destruct (N.eqb_spec c a) as [->|]; [| discriminate H].
    destruct (IH s H) as [post ->]. by exists post.
Qed.

Lemma match_here_fence_open after :
  Regex.match_here fence_open (js "```json" ++ after)
  = Some (drop_line_feed after).
Proof.
  unfold fence_open. rewrite match_here_lits_app.
  destruct after as [|c after']; [reflexivity |].
  cbn [Regex.match_here drop_line_feed]. by destruct (c =? LF)%N.
Qed.

(** The first opening marker is cut out of the text, wherever it
    stands. *)
Lemma remove_first_opening_fence before after :
  (forall pre post,
     before ++ js "```json" ++ after = pre ++ js "```json" ++ post ->
     (length before <= length pre)%nat) ->
  Regex.remove_first fence_open (before ++ js "```json" ++ after)
  = before ++ drop_line_feed after.
Proof.
  induction before as [|c before IH]; intros Hfirst.
  - apply remove_first_match, match_here_fence_open.
  - cbn [app Regex.remove_first].
    destruct (Regex.match_here fence_open
                (c :: before ++ js "```json" ++ after)) as [r|] eqn:Hm.
    + apply match_here_lits_prefix in Hm as [post Hm].
      specialize (Hfirst [] post Hm). cbn in Hfirst. lia.
    + rewrite IH; [reflexivity |].
      intros pre post H.
      specialize (Hfirst (c :: pre) post). cbn [app length] in Hfirst.
      rewrite H in Hfirst. specialize (Hfirst eq_refl). lia.
Qed.

Lemma remove_first_no_opening_fence s :
  (forall pre post, s <> pre ++ js "```json" ++ post) ->
  Regex.remove_first fence_open s = s.
Proof.
  induction s as [|c s IH]; intros Habsent.
  - reflexivity.
  - cbn [Regex.remove_first].
    destruct (Regex.match_here fence_open (c :: s)) as [r|] eqn:Hm.
    + apply match_here_lits_prefix in Hm as [post Hm].
      by destruct (Habsent [] post).
    + rewrite IH; [reflexivity |].
      intros pre post ->. by destruct (Habsent (c :: pre) post).
Qed.

(** Every text either holds no opening marker or holds a first one. *)
Lemma first_opening_fence s :
  (forall pre post, s <> pre ++ js "```json" ++ post) \/
  (exists before after,
     s = before ++ js "```json" ++ after /\
     forall pre post,
       s = pre ++ js "```json" ++ post ->
       (length before <= length pre)%nat).
Proof.
  induction s as [|c s IH].
  - left. intros [|? ?] post H; discriminate H.
  - destruct (starts_with (js "```json") (c :: s)) eqn:Hs.
    + right. apply starts_with_spec in Hs as [after Hs].
      exists [], after. split; [exact Hs |]. intros. cbn. lia.
    + assert (Hnot : forall post, c :: s <> js "```json" ++ post).
      { intros post H.
        assert (Ht : starts_with (js "```json") (c :: s) = true)
          by (apply starts_with_spec; by exists post).
        rewrite Hs in Ht. discriminate Ht. }
      destruct IH as [Habsent | (before & after & -> & Hfirst)].
      * left. intros [|c' pre] post H; [by destruct (Hnot post) |].
        injection H as _ H. by destruct (Habsent pre post).
      * right. exists (c :: before), after. split; [reflexivity |].
        intros [|c' pre] post H; [by destruct (Hnot post) |].
        injection H as _ H. specialize (Hfirst pre post H).
        cbn [length]. lia.
Qed.

Lemma strip_suffix_app p x : strip_suffix p (x ++ p) = x.
Proof.
  unfold strip_suffix. rewrite rev_app_distr.
  replace (starts_with (rev p) (rev p ++ rev x)) with true
    by (symmetry; apply starts_with_spec; by exists (rev x)).
  rewrite <- (length_rev p), drop_app_length. apply rev_involutive.
Qed.

Lemma strip_suffix_none p s :
  (forall x, s <> x ++ p) -> strip_suffix p s = s.
Proof.
  intros Hno. unfold strip_suffix.
  destruct (starts_with (rev p) (rev s)) eqn:Hs; [| reflexivity].
  apply starts_with_spec in Hs as [r Hs].
  destruct (Hno (rev r)).
  by rewrite <- (rev_involutive s), Hs, rev_app_distr, rev_involutive.
Qed.

Lemma no_closing_fence s :
  (forall x, s <> x ++ js "```") ->
  Regex.remove_first_at_end fence_close s = s.
Proof.
  induction s as [|c s IH]; intros Hno.
  - reflexivity.
  - cbn [Regex.remove_first_at_end].
    destruct (Regex.match_here fence_close (c :: s)) as [[|? ?]|] eqn:Hm.
    + apply match_here_lits in Hm. rewrite app_nil_r in Hm.
      by destruct (Hno []).
    + rewrite IH; [reflexivity |].
      intros x ->. by destruct (Hno (c :: x)).
    + rewrite IH; [reflexivity |].
      intros x ->. by destruct (Hno (c :: x)).
Qed.

(** The second replacement cuts three backticks that end the text. *)
Lemma remove_at_end_strip_suffix s :
  Regex.remove_first_at_end fence_close s = strip_suffix (js "```") s.
Proof.
  destruct (starts_with (rev (js "```")) (rev s)) eqn:Hs.
  - apply starts_with_spec in Hs as [r Hs].
    assert (Hx : s = rev r ++ js "```").
    { by rewrite <- (rev_involutive s), Hs, rev_app_distr. }
    rewrite Hx. by rewrite remove_closing_fence, strip_suffix_app.
  - assert (Hno : forall x, s <> x ++ js "```").
    { intros x ->. rewrite rev_app_distr in Hs.
      assert (Ht : starts_with (rev (js "```")) (rev (js "```") ++ rev x)
                   = true)
        by (apply starts_with_spec; by exists (rev x)).
      rewrite Hs in Ht. discriminate Ht. }
    by rewrite no_closing_fence, strip_suffix_none.
Qed.

Lemma cleanResponse_first_fence before after :
  (forall pre post,
     before ++ js "```json" ++ after = pre ++ js "```json" ++ post ->
     (length before <= length pre)%nat) ->
  cleanResponse (before ++ js "```json" ++ after)
  = trim (strip_suffix (js "```") (before ++ drop_line_feed after)).
Proof.
  intros Hfirst. unfold cleanResponse.
  by rewrite remove_first_opening_fence, remove_at_end_strip_suffix.
Qed.

Lemma cleanResponse_no_fence content :
  (forall pre post, content <> pre ++ js "```json" ++ post) ->
  cleanResponse content = trim (strip_suffix (js "```") content).
Proof.
  intros Habsent. unfold cleanResponse.
  by rewrite remove_first_no_opening_fence, remove_at_end_strip_suffix.
Qed.

(** C5, as the specification states it, fails: the opening marker is
    removed wherever it first occurs, not only in front.  A reply that is
    valid JSON, carries no fence and quotes the marker in a string is
    changed by the cleanup, and the analysis is not the JSON of the
    reply. *)
Lemma cleanup_removes_inner_marker :
  strip_fence_markers quoted_fence_example = quoted_fence_example /\
  cleanResponse quoted_fence_example <> strip_fence_markers quoted_fence_example /\
  Json.parse quoted_fence_example
  = Some (VObject [(js "a", VString (js "```json"))]) /\
  Json.parse (cleanResponse quoted_fence_example)
  = Some (VObject [(js "a", VString [])]).
Proof.
  split; [by vm_compute |].
  split; [by vm_compute |].
  split; by vm_compute.
Qed.

(** C5, amended.  The cleanup takes out of the reply the first
    occurrence of the opening marker (three backticks and [json]),
    wherever it stands, with the line feed right after it if there is
    one; a reply in which the marker does not occur passes this step
    unchanged, and every reply is of one of the two kinds.  It then
    takes away three backticks that end the text, if the text ends with
    them, and last trims white space at both ends.  So a reply made of
    the opening marker, a body and the closing marker is cleaned to the
    trimmed body, and a reply without any backtick is only trimmed.  The
    cleaned text is then parsed as JSON: the value is the analysis, and a
    text that does not parse gives the invalid-JSON marker with the
    cleaned text.  In particular, when the chat service replies with the
    fenced example, [/analyzed] answers with [ai_analysis] equal to the
    object whose property [a] is 1. *)
Theorem fence_cleanup_then_parse :
  (forall before after,
     (forall pre post,
        before ++ js "```json" ++ after = pre ++ js "```json" ++ post ->
        (length before <= length pre)%nat) ->
     cleanResponse (before ++ js "```json" ++ after)
     = trim (strip_suffix (js "```") (before ++ drop_line_feed after))) /\
  (forall content,
     (forall pre post, content <> pre ++ js "```json" ++ post) ->
     cleanResponse content = trim (strip_suffix (js "```") content)) /\
  (forall content,
     (forall pre post, content <> pre ++ js "```json" ++ post) \/
     (exists before after,
        content = before ++ js "```json" ++ after /\
        forall pre post,
          content = pre ++ js "```json" ++ post ->
          (length before <= length pre)%nat)) /\
  (forall after,
     drop_line_feed (LF :: after) = after /\
     (forall c, c <> LF -> drop_line_feed (c :: after) = c :: after) /\
     drop_line_feed [] = []) /\
  (forall x, strip_suffix (js "```") (x ++ js "```") = x) /\
  (forall s,
     (forall x, s <> x ++ js "```") -> strip_suffix (js "```") s = s) /\
  (forall body,
     cleanResponse (js "```json" ++ body ++ js "```") = trim body) /\
  (forall text, BACKTICK ∉ text -> cleanResponse text = trim text) /\
  (forall env st data r text v,
     http_post env (trace st) (chat_payload data) = Resolved r ->
     reply_content r = Ok (VString text) ->
     text <> [] ->
     Json.parse (cleanResponse text) = Some v ->
     exists st', analyseDataWithAI data env st = (Ok v, st')) /\
  (forall env st data r text,
     http_post env (trace st) (chat_payload data) = Resolved r ->
     reply_content r = Ok (VString text) ->
     text <> [] ->
     Json.parse (cleanResponse text) = None ->
     exists st',
       analyseDataWithAI data env st
       = (Ok (invalid_json_marker (cleanResponse text)), st')) /\
  (forall env st fecha total,
     globals_intact st ->
     rejects fecha = false ->
     get_length (datos_of (get_answer env st fecha camposReducidos_init))
     = Ok total ->
     (forall tr p,
        http_post env tr p = Resolved (chat_reply (VString fenced_example))) ->
     exists date_used st',
       analyzed fecha env st
       = (Ok {| status := 200;
                body := Json_body
                          (VObject [ (js "date_used", VString date_used);
                                     (js "total_records_analyzed", total);
                                     (js "ai_analysis",
                                      VObject [(js "a", VInt 1)]) ]) |},
          st')).
Proof.
  split; [exact cleanResponse_first_fence |].
  split; [exact cleanResponse_no_fence |].
  split; [exact first_opening_fence |].
  split.
  { intros after. split; [reflexivity |]. split; [| reflexivity].
    intros c Hc. cbn [drop_line_feed].
    by destruct (N.eqb_spec c LF). }
  split; [exact (strip_suffix_app (js "```")) |].
  split; [exact (strip_suffix_none (js "```")) |].
  split; [exact cleanResponse_fenced |].
  split; [exact cleanResponse_plain |].
  split.
  { intros env st data r text v Ho Hc Htext Hparse.
    by eapply analysis_parsed. }
  split.
  { intros env st data r text Ho Hc Htext Hparse.
    by eapply analysis_invalid_json. }
  intros env st fecha total Hg Hrej Hlen Hpost. do 2 eexists.
  rewrite (analyzed_run env st fecha total Hg Hrej Hlen).
  cbv zeta. rewrite Hpost.
  replace (analysis_of (Resolved (chat_reply (VString fenced_example)))).1
    with (VObject [(js "a", VInt 1)]) by (vm_compute; reflexivity).
  reflexivity.
Qed.

Lemma fence_cleanup_witness :
  (exists st',
     analyzed (Some (js "2025-04-18")) fenced_env init_state
     = (Ok {| status := 200;
              body := analysis_body (js "2025-04-18") (VInt 2)
                                    (VObject [(js "a", VInt 1)]) |},
        st')) /\
  cleanResponse (js "Here:" ++ [LF] ++ fenced_example)
  = js "Here:" ++ [LF] ++ js "{" ++ [DQ] ++ js "a" ++ [DQ] ++ js ":1}" /\
  cleanResponse (js " [1] ```" ++ [LF]) = js "[1] ```".
Proof.
  destruct fence_cleanup_then_parse
    as (Hfirst & Habsent & _ & _ & _ & _ & _ & _ & _ & _ & H).
  split; [| split].
  - destruct (H fenced_env init_state (Some (js "2025-04-18")) (VInt 2)
                init_state_intact eq_refl eq_refl (fun _ _ => eq_refl))
      as (d & st' & Hrun).
    exists st'. rewrite Hrun.
    pose proof (analyzed_run fenced_env init_state (Some (js "2025-04-18"))
                  (VInt 2) init_state_intact eq_refl eq_refl) as Hrun'.
    cbv zeta in Hrun'. rewrite Hrun in Hrun'.
    injection Hrun' as Hd _. by rewrite Hd.
  - etransitivity;
      [apply (Hfirst (js "Here:" ++ [LF])
                ([LF] ++ js "{" ++ [DQ] ++ js "a" ++ [DQ] ++ js ":1}"
                 ++ [LF] ++ js "```"))
      | reflexivity].
    intros pre post Heq.
    do 6 (destruct pre as [|? pre]; [discriminate Heq |]).
    cbn. lia.
  - etransitivity;
      [apply (Habsent (js " [1] ```" ++ [LF])) | reflexivity].
    intros pre post Heq.
    do 10 (destruct pre as [|? pre]; [discriminate Heq |]).
    discriminate Heq.
Defined.

(* ====================================================================== *)
(** ** C10: the module-level arrays are never written                      *)
(* ====================================================================== *)

Lemma globals_heap_with_filtros h tr tr' d :
  globals_intact (mkState h tr) ->
  globals_intact (mkState (heap_with_filtros h d) tr').
Proof.
  intros (Hb & Hr & Hf). unfold globals_intact in *. cbn [heap] in *.
  by rewrite (lookup_heap_with_filtros _ _ _ _ Hb),
    (lookup_heap_with_filtros _ _ _ _ Hr),
    (lookup_heap_with_filtros _ _ _ _ Hf).
Qed.

Lemma well_formed_resolved env st fecha :
  Forall well_formed_event (trace st) ->
  Forall well_formed_event (trace_resolved env st fecha).
Proof.
  intros H. destruct fecha as [[|c s]|]; cbn [trace_resolved]; try done;
    (apply Forall_app; split; [done | by repeat constructor]).
Qed.

Lemma well_formed_fetch url cs d o :
  Forall well_formed_event (fetch_events url (query cs d) o).
Proof.
  unfold fetch_events. constructor.
  - exists d. cbn [query p_where]. by rewrite where_eq.
  - destruct o; by repeat constructor.
Qed.

Lemma well_formed_analysis o : Forall well_formed_event (analysis_of o).2.
Proof.
  unfold analysis_of. repeat case_match; cbn [snd]; by repeat constructor.
Qed.

Lemma invariant_after_fetch env st fecha cs :
  server_invariant st -> server_invariant (after_fetch env st fecha cs).
Proof.
  intros [Hg Hwf]. split.
  - unfold after_fetch. eapply globals_heap_with_filtros.
    by rewrite state_eta.
  - unfold after_fetch. cbn [trace]. apply Forall_app. split.
    + by apply well_formed_resolved.
    + apply well_formed_fetch.
Qed.

Lemma invariant_after_analysis env st data :
  server_invariant st -> server_invariant (after_analysis env st data).
Proof.
  intros [Hg Hwf]. split; [exact Hg |].
  unfold after_analysis. cbn [trace]. apply Forall_app. split; [done |].
  constructor; [exact I | apply well_formed_analysis].
Qed.

Lemma invariant_resolved env st fecha log :
  server_invariant st ->
  Forall well_formed_event log ->
  server_invariant (mkState (heap st) (trace_resolved env st fecha ++ log)).
Proof.
  intros [Hg Hwf] Hlog. split; [exact Hg |].
  cbn [trace]. apply Forall_app. split; [| done].
  by apply well_formed_resolved.
Qed.

Lemma invariant_with_all_fields st :
  server_invariant st -> server_invariant (with_all_fields st).
Proof.
  intros [Hg Hwf]. split; [| exact Hwf].
  by apply globals_with_all_fields.
Qed.

(** The end of the three data handlers: the date used, the count, the
    response; or the generic error when the count cannot be read. *)
Lemma respond_run env st fecha datos (respond : list N -> value -> Response)
  label :
  exists resp log,
    try_catch
      (bind (fecha_or_previous fecha) (fun date_used =>
       bind (lift (get_length datos)) (fun total =>
       ret (respond date_used total))))
      (processing_error label) env st
    = (Ok resp, mkState (heap st) (trace_resolved env st fecha ++ log)) /\
    Forall well_formed_event log.
Proof.
  unfold try_catch, bind. rewrite fecha_or_previous_run.
  unfold lift, ret, processing_error, bind, console_error, emit.
  destruct (get_length datos) as [total|e]; cbn [heap trace].
  - exists (respond (resolved_date env st fecha) total), [].
    by rewrite app_nil_r.
  - do 2 eexists. split; [reflexivity | by repeat constructor].
Qed.

Lemma try_catch_bind {A B} (m : M A) (k : A -> M B) h env st a st' :
  m env st = (Ok a, st') ->
  try_catch (bind m k) h env st = try_catch (k a) h env st'.
Proof. intros H. unfold try_catch, bind. by rewrite H. Qed.

(** Every request is answered, and the invariant holds after it. *)
Lemma serve_preserves env st r :
  server_invariant st ->
  exists resp st',
    serve r env st = (Ok resp, st') /\ server_invariant st'.
Proof.
  intros Hinv.
  assert (Hrejected : forall h : Exn -> M Response,
    exists resp st',
      try_catch (ret bad_date) h env st = (Ok resp, st')
      /\ server_invariant st').
  { intros. by exists bad_date, st. }
  destruct r as [|fecha|fecha|fecha]; cbn [serve].
  - by exists (mkResponse 200 Html_page), st.
  - unfold raw. destruct (rejects fecha); [apply Hrejected |].
    pose proof (invariant_with_all_fields st Hinv) as Hinv0.
    destruct (globals_with_all_fields st (proj1 Hinv)) as [[Hb _] Hall].
    erewrite try_catch_bind by reflexivity.
    erewrite try_catch_bind
      by (apply (getSECOPData_run _ _ _ []); [exact Hb | exact Hall]).
    edestruct respond_run as (resp & log & -> & Hlog).
    do 2 eexists. split; [reflexivity |].
    apply invariant_resolved; [| exact Hlog].
    by apply invariant_after_fetch.
  - unfold filtered. destruct (rejects fecha); [apply Hrejected |].
    erewrite try_catch_bind
      by (apply (getSECOPData_run _ _ _ camposFiltrados_init); apply Hinv).
    edestruct respond_run as (resp & log & -> & Hlog).
    do 2 eexists. split; [reflexivity |].
    apply invariant_resolved; [| exact Hlog].
    by apply invariant_after_fetch.
  - unfold analyzed. destruct (rejects fecha); [apply Hrejected |].
    erewrite try_catch_bind
      by (apply (getSECOPData_run _ _ _ camposReducidos_init); apply Hinv).
    erewrite try_catch_bind by apply analyseDataWithAI_run.
    edestruct respond_run as (resp & log & -> & Hlog).
    do 2 eexists. split; [reflexivity |].
    apply invariant_resolved; [| exact Hlog].
    apply invariant_after_analysis. by apply invariant_after_fetch.
Qed.

Lemma serve_all_preserves env rs :
  forall st,
    server_invariant st ->
    exists resps st',
      serve_all rs env st = (Ok resps, st') /\
      length resps = length rs /\
      server_invariant st'.
Proof.
  induction rs as [|r rs IH]; intros st Hinv.
  - by exists [], st.
  - destruct (serve_preserves env st r Hinv) as (resp & st1 & Hr & Hinv1).
    destruct (IH st1 Hinv1) as (resps & st2 & Hrs & Hlen & Hinv2).
    exists (resp :: resps), st2.
    cbn [serve_all]. unfold bind. rewrite Hr, Hrs.
    repeat split; try apply Hinv2. cbn. by rewrite Hlen.
Qed.

(** C10.  Whatever requests are served after start-up, and whatever the
    outside world answers, every request gets its response, the base
    filter array still holds exactly its four clauses, both field arrays
    hold their original fields, and the [$where] of every fetch that was
    made consists of exactly those four clauses and one date clause.
    [getSECOPData] works on a copy: the array it pushes the date clause
    onto is a new one. *)
Theorem globals_never_mutated (env : Env) (rs : list Request) :
  (exists resps st',
     serve_all rs env init_state = (Ok resps, st') /\
     length resps = length rs /\
     heap st' !! filtrosBase
     = Some [ js "adjudicado = 'No'";
              js "precio_base > 500000000";
              js "modalidad_de_contratacion != 'Contrataci" ++ [243%N]
                ++ js "n directa'";
              js "codigo_principal_de_categoria LIKE '%811015%'" ] /\
     heap st' !! camposReducidos = Some camposReducidos_init /\
     heap st' !! camposFiltrados = Some camposFiltrados_init /\
     (forall url q,
        EvGet url q ∈ trace st' ->
        exists d,
          p_where q
          = join (js " AND ") (filtrosBase_init ++ [date_clause d]))) /\
  (forall st campos cs fecha,
     heap st !! filtrosBase = Some filtrosBase_init ->
     heap st !! campos = Some cs ->
     exists datos st',
       getSECOPData campos fecha env st = (Ok datos, st') /\
       heap st' !! filtrosBase = Some filtrosBase_init /\
       heap st !! fresh (dom (heap st)) = None /\
       heap st' !! fresh (dom (heap st))
       = Some (filtrosBase_init
               ++ [date_clause (resolved_date env st fecha)])).
Proof.
  split.
  - destruct (serve_all_preserves env rs init_state)
      as (resps & st' & Hrun & Hlen & (Hb & Hr & Hf) & Hwf).
    { split; [apply init_state_intact | constructor]. }
    exists resps, st'. repeat split; try done.
    intros url q Hin. rewrite Forall_forall in Hwf.
    exact (Hwf _ Hin).
  - intros st campos cs fecha Hb Hc. do 2 eexists.
    split; [by apply (getSECOPData_run _ _ _ cs) |].
    unfold after_fetch. cbn [heap]. split; [| split].
    + by apply lookup_heap_with_filtros.
    + apply not_elem_of_dom. apply is_fresh.
    + unfold heap_with_filtros. apply lookup_insert_eq.
Qed.

Lemma globals_never_mutated_witness :
  exists datos st',
    getSECOPData camposFiltrados None monday_env init_state = (Ok datos, st') /\
    heap st' !! filtrosBase = Some filtrosBase_init.
Proof.
  destruct (globals_never_mutated monday_env []) as [_ H].
  destruct (H init_state camposFiltrados camposFiltrados_init None
              eq_refl eq_refl) as (datos & st' & Hrun & Hbase & _).
  by exists datos, st'.
Defined.

(* ====================================================================== *)
(** * Further properties                                                   *)
(* ====================================================================== *)

(* ====================================================================== *)
(** ** The previous business day is a weekday and a valid date             *)
(* ====================================================================== *)

Lemma WeekDay_back t k :
  JsDate.WeekDay (t - k * JsDate.msPerDay) = (JsDate.WeekDay t - k) mod 7.
Proof.
  unfold JsDate.WeekDay. rewrite Day_back.
  rewrite Zminus_mod_idemp_l. f_equal. lia.
Qed.

Lemma WeekDay_range t : 0 <= JsDate.WeekDay t <= 6.
Proof.
  unfold JsDate.WeekDay.
  pose proof (Z.mod_pos_bound (JsDate.Day t + 4) 7 ltac:(lia)). lia.
Qed.

(** The day of the month never exceeds the length of the month. *)
Lemma DateFromTime_le_DaysInMonth t :
  JsDate.DateFromTime t
  <= DaysInMonth (JsDate.YearFromTime t) (JsDate.MonthFromTime t + 1).
Proof.
  pose proof (DayWithinYear_range t) as Hd.
  unfold JsDate.DateFromTime, JsDate.MonthFromTime.
  destruct (InLeapYear_cases t) as [[-> E]|[-> E]];
    set (n := JsDate.DayWithinYear t) in *; clearbody n;
    set (y := JsDate.YearFromTime t) in *; clearbody y;
    repeat match goal with
           | |- context [if ?a <? ?b then _ else _] =>
               destruct (Z.ltb_spec a b)
           end;
    match goal with
    | |- _ <= DaysInMonth _ ?m =>
        let m' := eval vm_compute in m in change m with m'
    end;
    unfold DaysInMonth; cbv beta iota; simpl (JsDate.MonthStart _ _);
    try (destruct (Z.eqb_spec (JsDate.DaysInYear y) 366)); lia.
Qed.

Lemma of_Z_year_digits y :
  1000 <= y <= 9999 ->
  exists a b c d,
    of_Z y = [a; b; c; d] /\
    forallb is_digit [a; b; c; d] = true /\
    digits_value [a; b; c; d] = y.
Proof.
  intros Hy.
  set (P := fun z =>
    match of_Z z with
    | [a; b; c; d] =>
        forallb is_digit [a; b; c; d] && (digits_value [a; b; c; d] =? z)
    | _ => false
    end).
  assert (Hall :
    forallb P (map (fun i => 1000 + Z.of_nat i) (seq 0 (Z.to_nat 9000)))
    = true)
    by (vm_compute; reflexivity).
  pose proof (check_range P 1000 (Z.to_nat 9000) Hall y ltac:(lia)) as H.
  unfold P in H.
  destruct (of_Z y) as [|a [|b [|c [|d [|? ?]]]]]; try discriminate H.
  apply andb_prop in H as [H1 H2]. apply Z.eqb_eq in H2.
  exists a, b, c, d. split; [reflexivity | split; [exact H1 | exact H2]].
Qed.

Lemma two_digits_value n :
  0 <= n <= 99 ->
  forallb is_digit (two_digits n) = true /\ digits_value (two_digits n) = n.
Proof.
  intros Hn.
  set (P := fun z =>
    forallb is_digit (two_digits z) && (digits_value (two_digits z) =? z)).
  assert (Hall : forallb P (map (fun i => 0 + Z.of_nat i) (seq 0 100)) = true)
    by (vm_compute; reflexivity).
  pose proof (check_range P 0 100 Hall n ltac:(lia)) as H.
  unfold P in H. apply andb_prop in H as [H1 H2]. apply Z.eqb_eq in H2.
  split; [exact H1 | exact H2].
Qed.

(** A date written as a four-digit year, a two-digit month and a
    two-digit day is read back field by field. *)
Lemma date_fields_of_iso y m d :
  1000 <= y <= 9999 -> 0 <= m <= 99 -> 0 <= d <= 99 ->
  date_fields (of_Z y ++ js "-" ++ two_digits m ++ js "-" ++ two_digits d)
  = Some (y, m, d).
Proof.
  intros Hy Hm Hd.
  destruct (of_Z_year_digits y Hy) as (a & b & c & e & -> & Hdy & Hvy).
  destruct (two_digits_value m Hm) as [Hdm Hvm].
  destruct (two_digits_value d Hd) as [Hdd Hvd].
  unfold two_digits in *.
  set (m1 := Z.to_N (48 + m / 10)) in *. set (m2 := Z.to_N (48 + m mod 10)) in *.
  set (d1 := Z.to_N (48 + d / 10)) in *. set (d2 := Z.to_N (48 + d mod 10)) in *.
  change ([a; b; c; e] ++ js "-" ++ [m1; m2] ++ js "-" ++ [d1; d2])
    with [a; b; c; e; 45%N; m1; m2; 45%N; d1; d2].
  unfold date_fields.
  assert (Hre : Regex.test_anchored date_regex
                  [a; b; c; e; 45%N; m1; m2; 45%N; d1; d2] = true).
  { apply date_regex_matches. do 8 eexists. split; [reflexivity |].
    cbn [forallb] in *.
    repeat match goal with
           | H : _ && _ = true |- _ => apply andb_prop in H as [? ?]
           end.
    repeat match goal with
           | H : is_digit _ = true |- _ => rewrite H; clear H
           end.
    reflexivity. }
  rewrite Hre. by rewrite Hvy, Hvm, Hvd.
Qed.

(** The output of [getPreviousBusinessDay], by the local time it is
    computed from. *)
Lemma getPreviousBusinessDay_run env st :
  let now := clock env (trace st) in
  - JsDate.maxTime + 3 * JsDate.msPerDay <= now <= JsDate.maxTime ->
  let today := JsDate.LocalTime (LocalTZA env) now in
  let prev := today - days_back today * JsDate.msPerDay in
  getPreviousBusinessDay env st
  = (Ok (of_Z (JsDate.YearFromTime prev) ++ js "-"
         ++ two_digits (JsDate.MonthFromTime prev + 1) ++ js "-"
         ++ two_digits (JsDate.DateFromTime prev)),
     mkState (heap st) (trace st ++ [EvNewDate now])).
Proof.
  intros now Hnow today prev.
  unfold getPreviousBusinessDay, bind, ask, new_Date, ret. cbn.
  fold now. by rewrite previousBusinessDay_of_eq by exact Hnow.
Qed.

Lemma days_back_weekday today :
  let prev := today - days_back today * JsDate.msPerDay in
  1 <= JsDate.WeekDay prev <= 5 /\
  (JsDate.WeekDay today = 6 \/ JsDate.WeekDay today = 0
   \/ JsDate.WeekDay today = 1 ->
   JsDate.WeekDay prev = 5) /\
  (2 <= JsDate.WeekDay today <= 5 ->
   JsDate.WeekDay prev = JsDate.WeekDay today - 1).
Proof.
  intros prev. unfold prev. rewrite WeekDay_back.
  pose proof (WeekDay_range today) as Hw. unfold days_back.
  destruct (Z.eqb_spec (JsDate.WeekDay today) 1) as [E1|E1];
    [| destruct (Z.eqb_spec (JsDate.WeekDay today) 0) as [E0|E0]].
  - rewrite E1. Z.div_mod_to_equations. lia.
  - rewrite E0. Z.div_mod_to_equations. lia.
  - assert (Hcases : JsDate.WeekDay today = 2 \/ JsDate.WeekDay today = 3
                     \/ JsDate.WeekDay today = 4 \/ JsDate.WeekDay today = 5
                     \/ JsDate.WeekDay today = 6) by lia.
    destruct Hcases as [E|[E|[E|[E|E]]]]; rewrite E;
      Z.div_mod_to_equations; lia.
Qed.

(** X1.  The date that [getPreviousBusinessDay] returns is never a
    Saturday or a Sunday: called on a Saturday, a Sunday or a Monday it
    returns the Friday before, and from Tuesday to Friday the day
    before. *)
Theorem previous_business_day_is_weekday (env : Env) (st : State) :
  let now := clock env (trace st) in
  - JsDate.maxTime + 3 * JsDate.msPerDay <= now <= JsDate.maxTime ->
  let today := JsDate.LocalTime (LocalTZA env) now in
  exists prev,
    JsDate.Day today - 3 <= JsDate.Day prev < JsDate.Day today /\
    (getPreviousBusinessDay env st).1
    = Ok (of_Z (JsDate.YearFromTime prev) ++ js "-"
          ++ two_digits (JsDate.MonthFromTime prev + 1) ++ js "-"
          ++ two_digits (JsDate.DateFromTime prev)) /\
    1 <= JsDate.WeekDay prev <= 5 /\
    (JsDate.WeekDay today = 6 \/ JsDate.WeekDay today = 0
     \/ JsDate.WeekDay today = 1 ->
     JsDate.WeekDay prev = 5) /\
    (2 <= JsDate.WeekDay today <= 5 ->
     JsDate.WeekDay prev = JsDate.WeekDay today - 1).
Proof.
  intros now Hnow today.
  exists (today - days_back today * JsDate.msPerDay).
  split.
  { rewrite Day_back. unfold days_back. repeat case_match; lia. }
  split.
  { by rewrite getPreviousBusinessDay_run by exact Hnow. }
  apply days_back_weekday.
Qed.

Lemma previous_business_day_is_weekday_witness :
  exists prev,
    (getPreviousBusinessDay saturday_env init_state).1
    = Ok (of_Z (JsDate.YearFromTime prev) ++ js "-"
          ++ two_digits (JsDate.MonthFromTime prev + 1) ++ js "-"
          ++ two_digits (JsDate.DateFromTime prev)) /\
    JsDate.WeekDay prev = 5.
Proof.
  destruct (previous_business_day_is_weekday saturday_env init_state)
    as (prev & _ & Hout & _ & Hfri & _).
  - vm_compute. split; discriminate.
  - exists prev. split; [exact Hout |].
    apply Hfri. left. reflexivity.
Defined.

(** X2.  What [getPreviousBusinessDay] returns (for a year of four
    digits) is a date that [isValidDateFormat] accepts and that exists in
    the calendar, and the date constructor reads it back as the very day
    it was formatted from: the [date_used] of a response can be sent
    back as [fecha]. *)
Theorem previous_business_day_round_trip (env : Env) (st : State) :
  let now := clock env (trace st) in
  - JsDate.maxTime + 3 * JsDate.msPerDay <= now <= JsDate.maxTime ->
  let today := JsDate.LocalTime (LocalTZA env) now in
  let prev := today - days_back today * JsDate.msPerDay in
  1000 <= JsDate.YearFromTime prev <= 9999 ->
  exists out st',
    getPreviousBusinessDay env st = (Ok out, st') /\
    isValidDateFormat out = true /\
    real_calendar_date out = true /\
    rejects (Some out) = false /\
    new_Date_of_string out = Some (JsDate.Day prev * JsDate.msPerDay).
Proof.
  intros now Hnow today prev Hyear.
  pose proof (MonthFromTime_range prev) as Hm.
  pose proof (DateFromTime_range prev) as Hd.
  pose proof (DateFromTime_le_DaysInMonth prev) as Hdim.
  pose (out := of_Z (JsDate.YearFromTime prev) ++ js "-"
               ++ two_digits (JsDate.MonthFromTime prev + 1) ++ js "-"
               ++ two_digits (JsDate.DateFromTime prev)).
  exists out, (mkState (heap st) (trace st ++ [EvNewDate now])).
  split; [by apply getPreviousBusinessDay_run |].
  assert (Hfields : date_fields out
                    = Some (JsDate.YearFromTime prev,
                            JsDate.MonthFromTime prev + 1,
                            JsDate.DateFromTime prev))
    by (apply date_fields_of_iso; lia).
  clearbody out.
  assert (Hreal : real_calendar_date out = true).
  { unfold real_calendar_date. rewrite Hfields. lia. }
  assert (Hvalid : isValidDateFormat out = true).
  { apply isValidDateFormat_fields. do 3 eexists.
    split; [exact Hfields | left; lia]. }
  split; [exact Hvalid |]. split; [exact Hreal |]. split.
  { by destruct (valid_date_not_rejected out Hvalid) as [Hrej _]. }
  rewrite (new_Date_of_iso out _ _ _ Hfields) by lia.
  replace (JsDate.MonthFromTime prev + 1 - 1)
    with (JsDate.MonthFromTime prev) by lia.
  rewrite MakeDay_same_month. do 2 f_equal. lia.
Qed.

Lemma previous_business_day_round_trip_witness :
  exists out st',
    getPreviousBusinessDay monday_env init_state = (Ok out, st') /\
    isValidDateFormat out = true.
Proof.
  destruct (previous_business_day_round_trip monday_env init_state)
    as (out & st' & Hrun & Hvalid & _).
  - vm_compute. split; discriminate.
  - vm_compute. split; discriminate.
  - exists out, st'. split; [exact Hrun | exact Hvalid].
Defined.

(* ====================================================================== *)
(** ** What a validated date can contain                                   *)
(* ====================================================================== *)

Lemma valid_date_shape d :
  isValidDateFormat d = true ->
  length d = 10%nat /\ Forall (fun c => is_digit c = true \/ c = 45%N) d.
Proof.
  intros Hv. unfold isValidDateFormat in Hv.
  destruct (Regex.test_anchored date_regex d) eqn:Hre; [| discriminate Hv].
  apply date_regex_matches in Hre
    as (y1 & y2 & y3 & y4 & m1 & m2 & d1 & d2 & -> & Hdig).
  cbn in Hdig. repeat (apply andb_prop in Hdig as [? Hdig]).
  split; [reflexivity |].
  repeat (constructor;
          [first [left; assumption | right; reflexivity] |]).
  constructor.
Qed.

Lemma no_apostrophe_in_date d :
  Forall (fun c => is_digit c = true \/ c = 45%N) d -> apostrophes d = 0%nat.
Proof.
  unfold apostrophes. induction 1 as [|c d Hc _ IH]; [reflexivity |].
  cbn [count_occ]. destruct (N.eq_dec c 39%N) as [->|_]; [| exact IH].
  destruct Hc as [Hc|Hc]; discriminate Hc.
Qed.

(** X3.  A [fecha] that passes [isValidDateFormat] has ten code units,
    each a digit or a dash.  It is put into the [$where] expression
    between apostrophes without escaping, but it cannot close the
    literal: the expression built for it always has the same eight
    apostrophes. *)
Theorem validated_date_keeps_quotes (env : Env) (st : State)
  (campos : positive) (cs : list (list N)) (d : list N) :
  heap st !! filtrosBase = Some filtrosBase_init ->
  heap st !! campos = Some cs ->
  isValidDateFormat d = true ->
  length d = 10%nat /\
  Forall (fun c => is_digit c = true \/ c = 45%N) d /\
  exists p st',
    build_params campos (Some d) env st = (Ok p, st') /\
    apostrophes (p_where p) = 8%nat.
Proof.
  intros Hb Hc Hv.
  destruct (valid_date_shape d Hv) as [Hlen Hchars].
  destruct (valid_date_not_rejected d Hv) as (_ & c & s & Hd).
  split; [exact Hlen |]. split; [exact Hchars |].
  do 2 eexists. split; [by apply (build_params_run _ _ _ cs) |].
  subst d. cbn [resolved_date query p_where]. unfold apostrophes.
  rewrite !count_occ_app.
  fold (apostrophes (c :: s)). rewrite (no_apostrophe_in_date _ Hchars).
  reflexivity.
Qed.

Lemma validated_date_keeps_quotes_witness :
  exists p st',
    build_params camposFiltrados (Some (js "2025-04-18")) monday_env init_state
    = (Ok p, st') /\
    apostrophes (p_where p) = 8%nat.
Proof.
  destruct (validated_date_keeps_quotes monday_env init_state camposFiltrados
              camposFiltrados_init (js "2025-04-18") eq_refl eq_refl eq_refl)
    as (_ & _ & H).
  exact H.
Defined.

(* ====================================================================== *)
(** ** How the handlers end                                                *)
(* ====================================================================== *)

Lemma finish_run env st fecha datos respond label :
  try_catch
    (bind (fecha_or_previous fecha) (fun date_used =>
     bind (lift (get_length datos)) (fun total =>
     ret (respond date_used total))))
    (processing_error label) env st
  = finish label respond fecha datos env st.
Proof.
  unfold try_catch, bind, finish. rewrite fecha_or_previous_run.
  unfold lift, ret, processing_error, bind, console_error, emit.
  destruct (get_length datos) as [total|e]; reflexivity.
Qed.

Lemma raw_outcome env st fecha :
  globals_intact st ->
  rejects fecha = false ->
  let datos := datos_of (get_answer env st fecha []) in
  raw fecha env st
  = finish (js "General error in /raw:")
           (fun date_used total =>
              mkResponse 200 (records_body date_used total datos))
           fecha datos env
           (after_fetch env (with_all_fields st) fecha []).
Proof.
  intros Hg Hrej datos.
  destruct (globals_with_all_fields st Hg) as ((Hb & _) & Hall).
  unfold raw. rewrite Hrej.
  erewrite try_catch_bind by reflexivity.
  erewrite try_catch_bind
    by (apply (getSECOPData_run _ _ _ []); [exact Hb | exact Hall]).
  apply finish_run.
Qed.

Lemma filtered_outcome env st fecha :
  globals_intact st ->
  rejects fecha = false ->
  let datos := datos_of (get_answer env st fecha camposFiltrados_init) in
  filtered fecha env st
  = finish (js "General error in /filtered:")
           (fun date_used total =>
              mkResponse 200 (records_body date_used total datos))
           fecha datos env
           (after_fetch env st fecha camposFiltrados_init).
Proof.
  intros Hg Hrej datos. unfold filtered. rewrite Hrej.
  erewrite try_catch_bind
    by (apply (getSECOPData_run _ _ _ camposFiltrados_init); apply Hg).
  apply finish_run.
Qed.

Lemma analyzed_outcome env st fecha :
  globals_intact st ->
  rejects fecha = false ->
  let st1 := after_fetch env st fecha camposReducidos_init in
  let datos := datos_of (get_answer env st fecha camposReducidos_init) in
  let evaluacion :=
    (analysis_of (http_post env (trace st1) (chat_payload datos))).1 in
  analyzed fecha env st
  = finish (js "General error in /analyzed:")
           (fun date_used total =>
              mkResponse 200 (analysis_body date_used total evaluacion))
           fecha datos env
           (after_analysis env st1 datos).
Proof.
  intros Hg Hrej st1 datos evaluacion. unfold analyzed. rewrite Hrej.
  erewrite try_catch_bind
    by (apply (getSECOPData_run _ _ _ camposReducidos_init); apply Hg).
  erewrite try_catch_bind by apply analyseDataWithAI_run.
  apply finish_run.
Qed.

Lemma get_length_nullish datos :
  match get_length datos with
  | Ok _ => is_nullish datos = false
  | Throw _ => is_nullish datos = true
  end.
Proof. destruct datos; reflexivity. Qed.

Lemma finish_status label respond fecha datos env st :
  (forall d t, status (respond d t) = 200) ->
  exists resp st',
    finish label respond fecha datos env st = (Ok resp, st') /\
    status resp = (if is_nullish datos then 500 else 200) /\
    (is_nullish datos = true ->
     body resp = error_body (js "Error processing data")).
Proof.
  intros Hr. unfold finish.
  pose proof (get_length_nullish datos) as Hn.
  destruct (get_length datos) as [total|e]; rewrite Hn;
    do 2 eexists; (split; [reflexivity |]); cbn [status body]; split;
    try done.
Qed.

(* ====================================================================== *)
(** ** Status codes                                                        *)
(* ====================================================================== *)

(** X4.  The status of every answer of the three data routes is decided
    by two tests: 400 when the date is rejected; otherwise 500, with the
    generic error body, when the open-data service resolved with a body
    that is [null] or [undefined] (its [length] cannot be read); otherwise
    200.  A failed fetch never gives 500. *)
Theorem status_codes (env : Env) (st : State) (fecha : option (list N)) :
  globals_intact st ->
  let status_for (cs : list (list N)) :=
    if rejects fecha then 400
    else if is_nullish (datos_of (get_answer env st fecha cs)) then 500
    else 200 in
  (exists resp st',
     raw fecha env st = (Ok resp, st') /\ status resp = status_for []) /\
  (exists resp st',
     filtered fecha env st = (Ok resp, st') /\
     status resp = status_for camposFiltrados_init) /\
  (exists resp st',
     analyzed fecha env st = (Ok resp, st') /\
     status resp = status_for camposReducidos_init) /\
  (forall cs m,
     get_answer env st fecha cs = Rejected m -> status_for cs <> 500).
Proof.
  intros Hg status_for. unfold status_for.
  destruct (rejects fecha) eqn:Hrej.
  - destruct (rejected_run env st fecha Hrej) as (Hr & Hf & Ha).
    repeat split; try (by exists bad_date, st). discriminate.
  - split; [| split; [| split]].
    + rewrite (raw_outcome env st fecha Hg Hrej). cbv zeta.
      edestruct finish_status as (resp & st' & -> & Hs & _);
        [| by exists resp, st']. reflexivity.
    + rewrite (filtered_outcome env st fecha Hg Hrej). cbv zeta.
      edestruct finish_status as (resp & st' & -> & Hs & _);
        [| by exists resp, st']. reflexivity.
    + rewrite (analyzed_outcome env st fecha Hg Hrej). cbv zeta.
      edestruct finish_status as (resp & st' & -> & Hs & _);
        [| by exists resp, st']. reflexivity.
    + intros cs m Ho. rewrite Ho. discriminate.
Qed.

Lemma status_codes_witness :
  exists resp st',
    raw (Some (js "2025-04-18")) null_body_env init_state = (Ok resp, st') /\
    status resp = 500.
Proof.
  destruct (status_codes null_body_env init_state (Some (js "2025-04-18"))
              init_state_intact) as ((resp & st' & Hrun & Hs) & _).
  exists resp, st'. split; [exact Hrun | exact Hs].
Defined.

(* ====================================================================== *)
(** ** Outbound calls                                                      *)
(* ====================================================================== *)

Lemma outbound_resolved env st fecha :
  List.filter outbound (trace_resolved env st fecha)
  = List.filter outbound (trace st).
Proof.
  destruct fecha as [[|c s]|]; cbn [trace_resolved]; try reflexivity;
    rewrite List.filter_app; cbn; by rewrite app_nil_r.
Qed.

Lemma outbound_fetch url q o :
  List.filter outbound (fetch_events url q o) = [EvGet url q].
Proof. by destruct o. Qed.

Lemma outbound_analysis o : List.filter outbound (analysis_of o).2 = [].
Proof. unfold analysis_of. by repeat case_match. Qed.

Lemma outbound_finish label respond fecha datos env st :
  List.filter outbound (trace (finish label respond fecha datos env st).2)
  = List.filter outbound (trace st).
Proof.
  unfold finish. destruct (get_length datos); cbn [snd trace].
  - apply outbound_resolved.
  - rewrite List.filter_app, outbound_resolved. cbn. by rewrite app_nil_r.
Qed.

Lemma outbound_after_fetch env st fecha cs :
  List.filter outbound (trace (after_fetch env st fecha cs))
  = List.filter outbound (trace st)
    ++ [EvGet (BASE_URL env) (query cs (resolved_date env st fecha))].
Proof.
  unfold after_fetch. cbn [trace].
  by rewrite List.filter_app, outbound_resolved, outbound_fetch.
Qed.

(** X5.  A request whose date is not rejected makes its outbound calls
    whatever happens afterwards: [/raw] and [/filtered] make exactly one
    fetch, for all fields and for the twenty filtered fields; [/analyzed]
    makes one fetch for the ten reduced fields and then exactly one chat
    request, which carries what the fetch returned.  That is [[]] after a
    failed fetch: the chat service is asked even when there is nothing to
    analyse. *)
Theorem outbound_calls (env : Env) (st : State) (fecha : option (list N)) :
  globals_intact st ->
  rejects fecha = false ->
  let d := resolved_date env st fecha in
  let before := List.filter outbound (trace st) in
  List.filter outbound (trace (raw fecha env st).2)
  = before ++ [EvGet (BASE_URL env) (query [] d)] /\
  List.filter outbound (trace (filtered fecha env st).2)
  = before ++ [EvGet (BASE_URL env) (query camposFiltrados_init d)] /\
  List.filter outbound (trace (analyzed fecha env st).2)
  = before
    ++ [ EvGet (BASE_URL env) (query camposReducidos_init d);
         EvPost chatGPTUrl (authorization_header (API_KEY env))
                (chat_payload
                   (datos_of (get_answer env st fecha camposReducidos_init))) ] /\
  (forall m,
     get_answer env st fecha camposReducidos_init = Rejected m ->
     EvPost chatGPTUrl (authorization_header (API_KEY env))
            (chat_payload (VArray []))
     ∈ trace (analyzed fecha env st).2).
Proof.
  intros Hg Hrej d before.
  assert (Hanalyzed :
    List.filter outbound (trace (analyzed fecha env st).2)
    = before
      ++ [ EvGet (BASE_URL env) (query camposReducidos_init d);
           EvPost chatGPTUrl (authorization_header (API_KEY env))
                  (chat_payload
                     (datos_of
                        (get_answer env st fecha camposReducidos_init))) ]).
  { rewrite (analyzed_outcome env st fecha Hg Hrej). cbv zeta.
    rewrite outbound_finish. unfold after_analysis. cbn [trace].
    rewrite List.filter_app, outbound_after_fetch. cbn [List.filter outbound].
    rewrite outbound_analysis. by rewrite <- app_assoc. }
  split; [| split; [| split]].
  - rewrite (raw_outcome env st fecha Hg Hrej). cbv zeta.
    rewrite outbound_finish. apply outbound_after_fetch.
  - rewrite (filtered_outcome env st fecha Hg Hrej). cbv zeta.
    rewrite outbound_finish. apply outbound_after_fetch.
  - exact Hanalyzed.
  - intros m Ho. rewrite Ho in Hanalyzed. cbn [datos_of] in Hanalyzed.
    assert (Hin :
      EvPost chatGPTUrl (authorization_header (API_KEY env))
             (chat_payload (VArray []))
      ∈ List.filter outbound (trace (analyzed fecha env st).2)).
    { rewrite Hanalyzed. apply elem_of_app. right.
      apply elem_of_cons. right. apply elem_of_cons. by left. }
    apply list_elem_of_In in Hin. apply List.filter_In in Hin as [Hin _].
    by apply list_elem_of_In.
Qed.

Lemma outbound_calls_witness :
  EvPost chatGPTUrl (js "Bearer undefined") (chat_payload (VArray []))
  ∈ trace (analyzed None monday_env init_state).2.
Proof.
  destruct (outbound_calls monday_env init_state None init_state_intact
              eq_refl) as (_ & _ & _ & H).
  exact (H (js "connect ECONNREFUSED") eq_refl).
Defined.

(* ====================================================================== *)
(** ** Readings of the clock                                               *)
(* ====================================================================== *)

Lemma clock_reads_finish_given label respond c s datos env st :
  List.filter is_clock_read
    (trace (finish label respond (Some (c :: s)) datos env st).2)
  = List.filter is_clock_read (trace st).
Proof.
  unfold finish. destruct (get_length datos); cbn [snd trace trace_resolved].
  - reflexivity.
  - rewrite List.filter_app. cbn. by rewrite app_nil_r.
Qed.

(** X6.  Without a [fecha] (or with an empty one) [/raw] reads the clock
    twice: once to build the query and once more, after the fetch, for
    [date_used]; the date reported is the previous business day of the
    second reading and need not be the date that was queried.  With a
    [fecha] that is given the clock is not read at all. *)
Theorem date_used_is_read_again (env : Env) (st : State)
  (fecha : option (list N)) (total : value) :
  globals_intact st ->
  let datos := datos_of (get_answer env st fecha []) in
  get_length datos = Ok total ->
  (fecha = None \/ fecha = Some [] ->
   let t0 := clock env (trace st) in
   let queried := previousBusinessDay_of (LocalTZA env) t0 in
   let tr1 := trace st ++ EvNewDate t0
                :: fetch_events (BASE_URL env) (query [] queried)
                                (get_answer env st fecha []) in
   let t1 := clock env tr1 in
   exists h,
     raw fecha env st
     = (Ok (mkResponse 200
              (records_body (previousBusinessDay_of (LocalTZA env) t1)
                            total datos)),
        mkState h (tr1 ++ [EvNewDate t1]))) /\
  (forall c s,
     fecha = Some (c :: s) ->
     rejects fecha = false ->
     List.filter is_clock_read (trace (raw fecha env st).2)
     = List.filter is_clock_read (trace st)).
Proof.
  intros Hg datos Hlen. split.
  - intros Hfecha t0 queried tr1 t1. eexists.
    assert (Hrej : rejects fecha = false) by (by destruct Hfecha as [->| ->]).
    rewrite (raw_outcome env st fecha Hg Hrej). cbv zeta.
    unfold finish. fold datos. rewrite Hlen.
    subst t1 tr1 queried t0.
    destruct Hfecha as [->| ->];
      unfold after_fetch, with_all_fields, get_answer;
      cbn [resolved_date trace_resolved trace heap];
      rewrite <- !app_assoc; reflexivity.
  - intros c s -> Hrej.
    rewrite (raw_outcome env st _ Hg Hrej). cbv zeta.
    rewrite clock_reads_finish_given.
    unfold after_fetch. cbn [trace trace_resolved with_all_fields].
    rewrite List.filter_app.
    destruct (get_answer env (with_all_fields st) (Some (c :: s)) []);
      cbn; by rewrite app_nil_r.
Qed.

Lemma date_used_is_read_again_witness :
  exists st',
    raw None midnight_env init_state
    = (Ok (mkResponse 200
             (records_body (js "2025-04-22") (VInt 0) (VArray []))), st') /\
    EvGet None (query [] (js "2025-04-21")) ∈ trace st'.
Proof.
  destruct (date_used_is_read_again midnight_env init_state None (VInt 0)
              init_state_intact eq_refl) as [H _].
  destruct (H (or_introl eq_refl)) as [h Hrun].
  eexists. split; [exact Hrun |].
  cbn [trace]. apply elem_of_app. left. apply elem_of_app. right.
  apply elem_of_cons. right. apply elem_of_cons. left. reflexivity.
Defined.

(* ====================================================================== *)
(** ** Replies of unexpected shape                                         *)
(* ====================================================================== *)

Lemma get_named_ok v name :
  is_nullish v = false -> exists x, get_named v name = Ok x.
Proof. destruct v; try discriminate; cbn; eauto. Qed.

Lemma get_index0_ok v :
  is_nullish v = false -> exists x, get_index0 v = Ok x.
Proof.
  destruct v as [| | | |s| |]; try discriminate; cbn; eauto.
  destruct s; eauto.
Qed.

Lemma optional_ok v access :
  (is_nullish v = false -> exists x, access v = Ok x) ->
  exists x, optional v access = Ok x.
Proof.
  intros H. unfold optional. destruct (is_nullish v); [eauto | by apply H].
Qed.

Lemma reply_content_nullish r :
  match reply_content r with
  | Ok _ => is_nullish r = false
  | Throw _ => is_nullish r = true
  end.
Proof.
  destruct (is_nullish r) eqn:Hr.
  - by destruct r.
  - unfold reply_content.
    destruct (get_named_ok r (js "choices") Hr) as [choices ->].
    cbn [rbind].
    destruct (optional_ok choices get_index0 (get_index0_ok choices))
      as [first ->].
    cbn [rbind].
    destruct (optional_ok first (fun v => get_named v (js "message"))
                (get_named_ok first (js "message"))) as [message ->].
    cbn [rbind].
    by destruct (optional_ok message (fun v => get_named v (js "content"))
                   (get_named_ok message (js "content"))) as [content ->].
Qed.

Lemma analysis_result env st data :
  (analyseDataWithAI data env st).1
  = Ok (analysis_of (http_post env (trace st) (chat_payload data))).1.
Proof. by rewrite analyseDataWithAI_run. Qed.

(** X7.  The chain [response.data.choices?.[0]?.message?.content] throws
    only when the body of the chat response is [null] or [undefined];
    that case, and a content that is truthy without being a string (its
    [replace] is not a function), both end in the outer [catch]:
    [analyseDataWithAI] returns the communication-error marker although
    the request itself succeeded. *)
Theorem malformed_reply_is_communication_error (env : Env) (st : State)
  (data : value) (r : value) :
  http_post env (trace st) (chat_payload data) = Resolved r ->
  (is_nullish r = true <-> exists e, reply_content r = Throw e) /\
  (is_nullish r = true ->
   (analyseDataWithAI data env st).1 = Ok communication_error_marker) /\
  (forall content,
     reply_content r = Ok content ->
     falsy content = false ->
     (forall text, content <> VString text) ->
     (analyseDataWithAI data env st).1 = Ok communication_error_marker).
Proof.
  intros Ho. pose proof (reply_content_nullish r) as Hn.
  split; [| split].
  - destruct (reply_content r) as [c|e]; rewrite Hn; split;
      try discriminate; eauto.
    intros [e He]. discriminate He.
  - intros Hr. rewrite analysis_result, Ho. unfold analysis_of.
    cbn [settle rbind].
    destruct (reply_content r) as [c|e]; [congruence | reflexivity].
  - intros content Hc Hf Hs. rewrite analysis_result, Ho. unfold analysis_of.
    cbn [settle rbind]. rewrite Hc, Hf.
    destruct content; try reflexivity. by destruct (Hs s).
Qed.

Lemma malformed_reply_witness :
  (analyseDataWithAI (VArray []) number_reply_env init_state).1
  = Ok communication_error_marker.
Proof.
  destruct (malformed_reply_is_communication_error number_reply_env init_state
              (VArray []) (chat_reply (VNumber 42 0)) eq_refl)
    as (_ & _ & H).
  apply (H (VNumber 42 0)); [reflexivity | reflexivity | discriminate].
Defined.

(** X8.  A chat response that is not [null] but lacks the expected
    parts gives the no-content marker, not an exception: a body that is
    not an object or has no [choices], an empty [choices] array, a first
    choice without [message], a message without [content]. *)
Theorem shapeless_reply_is_no_content (env : Env) (st : State)
  (data : value) (r : value) :
  http_post env (trace st) (chat_payload data) = Resolved r ->
  is_nullish r = false ->
  (forall props, r = VObject props ->
     let choices := default VUndefined (Json.obj_get props (js "choices")) in
     is_nullish choices = true \/
     choices = VArray [] \/
     exists first rest,
       choices = VArray (first :: rest) /\
       (is_nullish first = true \/
        forall fprops, first = VObject fprops ->
          let message :=
            default VUndefined (Json.obj_get fprops (js "message")) in
          is_nullish message = true \/
          forall mprops, message = VObject mprops ->
            Json.obj_get mprops (js "content") = None)) ->
  (analyseDataWithAI data env st).1 = Ok no_content_marker.
Proof.
  intros Ho Hr Hshape.
  rewrite analysis_result, Ho. unfold analysis_of. cbn [settle rbind].
  assert (Hc : reply_content r = Ok VUndefined); [| by rewrite Hc].
  unfold reply_content.
  destruct r as [| | | | | |props]; try discriminate Hr; try reflexivity.
  cbn [get_named rbind].
  destruct (Hshape props eq_refl) as [Hn|[->|(first & rest & -> & Hfirst)]].
  - unfold optional at 1. rewrite Hn. reflexivity.
  - reflexivity.
  - cbn [optional is_nullish get_index0 head default from_option id rbind].
    destruct Hfirst as [Hn|Hmsg].
    { unfold optional at 1. rewrite Hn. reflexivity. }
    destruct first as [| | | | | |fprops]; try reflexivity.
    cbn [optional is_nullish get_named rbind].
    destruct (Hmsg fprops eq_refl) as [Hn|Hcontent].
    { unfold optional. rewrite Hn. reflexivity. }
    cbv zeta in Hcontent.
    destruct (default VUndefined (Json.obj_get fprops (js "message")))
      as [| | | | | |mprops]; try reflexivity.
    cbn [optional is_nullish get_named].
    by rewrite (Hcontent mprops eq_refl).
Qed.

Lemma shapeless_reply_witness :
  (analyseDataWithAI (VArray []) empty_choices_env init_state).1
  = Ok no_content_marker.
Proof.
  apply (shapeless_reply_is_no_content empty_choices_env init_state (VArray [])
           (VObject [(js "choices", VArray [])]) eq_refl eq_refl).
  intros props [= <-]. right. left. reflexivity.
Defined.

(* ====================================================================== *)
(** ** A fence does not change the analysis                                *)
(* ====================================================================== *)

Lemma trim_line_feed_front s : trim (LF :: s) = trim s.
Proof. reflexivity. Qed.

Lemma trimStart_fixed c s :
  is_trim_space c = false -> trimStart (c :: s) = c :: s.
Proof. intros H. cbn. by rewrite H. Qed.

Lemma trim_space_back s w :
  is_trim_space w = true -> trim (s ++ [w]) = trim s.
Proof.
  intros Hw. unfold trim. induction s as [|c s IH].
  - cbn. by rewrite Hw.
  - cbn [app trimStart]. destruct (is_trim_space c) eqn:Hc; [exact IH |].
    unfold trimEnd. change (c :: s ++ [w]) with ((c :: s) ++ [w]).
    rewrite rev_app_distr. cbn [rev app trimStart]. by rewrite Hw.
Qed.

Lemma cleanResponse_fenced_lines body :
  BACKTICK ∉ body ->
  cleanResponse (js "```json" ++ [LF] ++ body ++ [LF] ++ js "```")
  = cleanResponse body.
Proof.
  intros Hno.
  replace (js "```json" ++ [LF] ++ body ++ [LF] ++ js "```")
    with (js "```json" ++ ([LF] ++ body ++ [LF]) ++ js "```")
    by (by rewrite <- !app_assoc).
  rewrite cleanResponse_fenced, (cleanResponse_plain body Hno).
  cbn [app]. rewrite trim_line_feed_front.
  by apply trim_space_back.
Qed.

(** X9.  Wrapping a reply in a code fence does not change the analysis:
    for every non-empty text without a backtick, the fenced text (opening
    marker, line feed, text, line feed, closing marker) and the bare text
    give the same result, be it a parsed value or the invalid-JSON marker
    with the same [raw]. *)
Theorem fence_does_not_change_analysis (env : Env) (st : State)
  (data : value) (body : list N) :
  BACKTICK ∉ body ->
  body <> [] ->
  let fenced := js "```json" ++ [LF] ++ body ++ [LF] ++ js "```" in
  cleanResponse fenced = cleanResponse body /\
  (analysis_of (Resolved (chat_reply (VString fenced)))).1
  = (analysis_of (Resolved (chat_reply (VString body)))).1 /\
  (http_post env (trace st) (chat_payload data)
   = Resolved (chat_reply (VString fenced)) ->
   (analyseDataWithAI data env st).1
   = Ok (analysis_of (Resolved (chat_reply (VString body)))).1).
Proof.
  intros Hno Hne fenced.
  pose proof (cleanResponse_fenced_lines body Hno) as Hclean.
  assert (Hsame :
    (analysis_of (Resolved (chat_reply (VString fenced)))).1
    = (analysis_of (Resolved (chat_reply (VString body)))).1).
  { unfold analysis_of. cbn [settle rbind].
    rewrite !reply_content_chat_reply. cbn [falsy].
    rewrite (bool_decide_eq_false_2 (body = [])) by exact Hne.
    rewrite (bool_decide_eq_false_2 (fenced = [])) by discriminate.
    fold fenced in Hclean. rewrite Hclean.
    by destruct (Json.parse (cleanResponse body)). }
  split; [exact Hclean |]. split; [exact Hsame |].
  intros Ho. by rewrite analysis_result, Ho, Hsame.
Qed.

Lemma fence_does_not_change_analysis_witness :
  (analyseDataWithAI (VArray []) fenced_env init_state).1
  = Ok (VObject [(js "a", VInt 1)]).
Proof.
  destruct (fence_does_not_change_analysis fenced_env init_state (VArray [])
              (js "{" ++ [DQ] ++ js "a" ++ [DQ] ++ js ":1}"))
    as (_ & _ & H).
  - vm_compute. intros Hin.
    repeat (apply elem_of_cons in Hin as [Hin|Hin]; [discriminate Hin |]).
    by apply elem_of_nil in Hin.
  - discriminate.
  - rewrite (H eq_refl). vm_compute. reflexivity.
Defined.

(* ====================================================================== *)
(** ** The first version of the server                                     *)
(* ====================================================================== *)

Section LegacyProperties.

Variable syntax_error_message : list N -> list N.

Lemma legacy_fechaFormateada_eq tza now :
  - JsDate.maxTime + JsDate.msPerDay <= now <= JsDate.maxTime ->
  let prev := JsDate.LocalTime tza now - JsDate.msPerDay in
  Legacy.fechaFormateada_of tza now
  = of_Z (JsDate.YearFromTime prev) ++ js "-"
    ++ two_digits (JsDate.MonthFromTime prev + 1) ++ js "-"
    ++ two_digits (JsDate.DateFromTime prev) ++ js "T00:00:00.000".
Proof.
  intros Hnow prev.
  unfold Legacy.fechaFormateada_of.
  cbn [JsDate.getDate mbind option_bind num_sub setDate_num].
  assert (Hset :
    JsDate.setDate tza (Some now)
      (JsDate.DateFromTime (JsDate.LocalTime tza now) - 1)
    = Some (now - 1 * JsDate.msPerDay)).
  { apply setDate_back. unfold JsDate.maxTime, JsDate.msPerDay in *. lia. }
  rewrite !Hset.
  cbn [JsDate.getFullYear JsDate.getMonth JsDate.getDate mbind option_bind
       num_add String_of_num].
  replace (JsDate.LocalTime tza (now - 1 * JsDate.msPerDay))
    with prev by (unfold prev, JsDate.LocalTime; lia).
  pose proof (MonthFromTime_range prev). pose proof (DateFromTime_range prev).
  rewrite !padStart_two_digits by lia.
  reflexivity.
Qed.

Lemma legacy_getSECOPData_run g env st :
  exists datos log,
    Legacy.getSECOPData g env st
    = (Ok datos,
       mkState (heap st)
               (trace st ++ EvGet (BASE_URL env) (Legacy.params_of g) :: log)) /\
    Forall (legacy_event g) log /\
    (forall m,
       http_get env (trace st) (BASE_URL env) (Legacy.params_of g) = Rejected m ->
       datos = VArray []).
Proof.
  unfold Legacy.getSECOPData, try_catch, bind, axios_get, ret, console_error,
    emit. cbn [heap trace].
  destruct (http_get env (trace st) (BASE_URL env) (Legacy.params_of g))
    as [data|m]; cbn [settle heap trace].
  - exists data, []. repeat split; [by constructor | discriminate].
  - eexists (VArray []), [_]. rewrite <- app_assoc.
    repeat split. by repeat constructor.
Qed.

Lemma legacy_analysis_run data env st :
  exists log,
    Legacy.analyseDataWithAI syntax_error_message data env st
    = (Ok (Legacy.analysis_of
             (http_post env (trace st) (Legacy.chat_payload data))),
       mkState (heap st)
         (trace st
          ++ EvPost chatGPTUrl (authorization_header (API_KEY env))
                    (Legacy.chat_payload data) :: log)) /\
    forall g, Forall (legacy_event g) log.
Proof.
  unfold Legacy.analyseDataWithAI, Legacy.analysis_of, try_catch, bind, ask,
    axios_post, lift, console_error, emit, ret.
  cbn [heap trace].
  destruct (settle (http_post env (trace st) (Legacy.chat_payload data)))
    as [response_data|e]; cbn [rbind heap trace].
  2: { eexists [_]. rewrite <- app_assoc. split; [reflexivity |].
       intros g. by repeat constructor. }
  destruct (reply_content response_data) as [content|e]; cbn [heap trace].
  2: { eexists [_]. rewrite <- app_assoc. split; [reflexivity |].
       intros g. by repeat constructor. }
  destruct (Legacy.content_or_fallback content);
    cbn [Legacy.as_string_for_replace heap trace];
    try (eexists [_]; rewrite <- app_assoc; split; [reflexivity |];
         intros g; by repeat constructor).
  destruct (Json.parse (cleanResponse s)); cbn [heap trace].
  - exists []. split; [reflexivity | intros g; constructor].
  - eexists [_]. rewrite <- app_assoc. split; [reflexivity |].
    intros g. by repeat constructor.
Qed.

Lemma legacy_root_run g env st :
  exists datos st1 events,
    Legacy.getSECOPData g env st = (Ok datos, st1) /\
    Legacy.root syntax_error_message g env st
    = (Ok (Legacy.Sent_json
             (Legacy.analysis_of
                (http_post env (trace st1) (Legacy.chat_payload datos)))),
       mkState (heap st) (trace st ++ events)) /\
    Forall (legacy_event g) events.
Proof.
  destruct (legacy_getSECOPData_run g env st) as (datos & log1 & Hget & Hl1 & _).
  destruct (legacy_analysis_run datos env
              (mkState (heap st)
                 (trace st ++ EvGet (BASE_URL env) (Legacy.params_of g) :: log1)))
    as (log2 & Han & Hl2).
  do 3 eexists. split; [exact Hget |].
  unfold Legacy.root, try_catch, bind. rewrite Hget, Han.
  unfold ret. cbn [heap trace]. rewrite <- app_assoc. cbn [app].
  split; [reflexivity |].
  constructor; [reflexivity |]. apply Forall_app. split; [exact Hl1 |].
  constructor; [exact I | apply Hl2].
Qed.

Lemma legacy_root_times_run g n :
  forall env st,
    exists resps events,
      Legacy.root_times syntax_error_message g n env st
      = (Ok resps, mkState (heap st) (trace st ++ events)) /\
      Forall (legacy_event g) events /\
      Forall (fun r => Legacy.status_of r = 200) resps /\
      length resps = n.
Proof.
  induction n as [|n IH]; intros env st.
  - exists [], []. rewrite app_nil_r, state_eta. by repeat split.
  - destruct (legacy_root_run g env st) as (datos & st1 & ev1 & _ & Hroot & H1).
    destruct (IH env (mkState (heap st) (trace st ++ ev1)))
      as (resps & ev2 & Hrest & H2 & Hst & Hlen).
    eexists (_ :: resps), (ev1 ++ ev2).
    cbn [Legacy.root_times]. unfold bind. rewrite Hroot, Hrest.
    unfold ret. cbn [heap trace]. rewrite <- app_assoc.
    repeat split.
    + by apply Forall_app.
    + by constructor.
    + cbn. by rewrite Hlen.
Qed.

(** X10.  In the first server the failures of the analysis are not told
    apart: a rejected chat request, a missing content (replaced by a
    fallback text that is not JSON) and a reply that is not JSON all
    return the same text, and every result is either that text or the
    value of a JSON text. *)
Theorem legacy_failures_are_merged (env : Env) (st : State) (data : value) :
  let o := http_post env (trace st) (Legacy.chat_payload data) in
  let result :=
    (Legacy.analyseDataWithAI syntax_error_message data env st).1 in
  (forall m, o = Rejected m -> result = Ok (VString Legacy.error_text)) /\
  (forall r content,
     o = Resolved r -> reply_content r = Ok content -> falsy content = true ->
     result = Ok (VString Legacy.error_text)) /\
  (forall r text,
     o = Resolved r -> reply_content r = Ok (VString text) -> text <> [] ->
     Json.parse (cleanResponse text) = None ->
     result = Ok (VString Legacy.error_text)) /\
  (result = Ok (VString Legacy.error_text) \/
   exists text v, Json.parse text = Some v /\ result = Ok v).
Proof.
  intros o result.
  destruct (legacy_analysis_run data env st) as (log & Hrun & _).
  assert (Hres : result = Ok (Legacy.analysis_of o))
    by (unfold result; by rewrite Hrun).
  rewrite Hres. clear Hres Hrun. unfold Legacy.analysis_of.
  split; [| split; [| split]].
  - intros m ->. reflexivity.
  - intros r content -> Hc Hf. cbn [settle rbind]. rewrite Hc.
    unfold Legacy.content_or_fallback. rewrite Hf.
    replace (Json.parse (cleanResponse Legacy.fallback_text)) with (@None value)
      by (vm_compute; reflexivity).
    reflexivity.
  - intros r text -> Hc Hne Hparse. cbn [settle rbind]. rewrite Hc.
    unfold Legacy.content_or_fallback. cbn [falsy].
    rewrite bool_decide_eq_false_2 by exact Hne. by rewrite Hparse.
  - destruct (rbind (settle o) reply_content) as [content|e]; [| by left].
    destruct (Legacy.content_or_fallback content); try (by left).
    destruct (Json.parse (cleanResponse s)) eqn:Hp; [| by left].
    right. eauto.
Qed.

End LegacyProperties.

Lemma legacy_failures_witness :
  (Legacy.analyseDataWithAI (fun _ => js "Unexpected token") (VArray [])
     empty_choices_env init_state).1
  = Ok (VString Legacy.error_text).
Proof.
  destruct (legacy_failures_are_merged (fun _ => js "Unexpected token")
              empty_choices_env init_state (VArray [])) as (_ & H & _).
  apply (H (VObject [(js "choices", VArray [])]) VUndefined);
    reflexivity.
Defined.

(** X11.  The first server computes its date once, when the module is
    loaded: however many requests follow and however the clock moves,
    every fetch carries the same [$where], whose date clause (placed
    first) names the day before the start-up day; the clock is never read
    again.  There is no week-end rule: the day is always exactly one day
    back. *)
Theorem legacy_date_is_fixed_at_load
  (syntax_error_message : list N -> list N) (env : Env) (st : State)
  (n : nat) :
  let now := clock env (trace st) in
  - JsDate.maxTime + JsDate.msPerDay <= now <= JsDate.maxTime ->
  let today := JsDate.LocalTime (LocalTZA env) now in
  let prev := today - JsDate.msPerDay in
  let ayer := of_Z (JsDate.YearFromTime prev) ++ js "-"
              ++ two_digits (JsDate.MonthFromTime prev + 1) ++ js "-"
              ++ two_digits (JsDate.DateFromTime prev) in
  JsDate.Day prev = JsDate.Day today - 1 /\
  exists g st1 resps st2 events,
    Legacy.load env st = (Ok g, st1) /\
    Legacy.root_times syntax_error_message g n env st1 = (Ok resps, st2) /\
    length resps = n /\
    trace st2 = trace st1 ++ events /\
    (forall e, e ∈ events -> is_clock_read e = false) /\
    (forall url q,
       EvGet url q ∈ events ->
       p_where q
       = join (js " AND ")
              ((js "fecha_de_publicacion_del >= '" ++ ayer
                ++ js "T00:00:00.000'") :: filtrosBase_init)).
Proof.
  intros now Hnow today prev ayer.
  split.
  { unfold prev. replace JsDate.msPerDay with (1 * JsDate.msPerDay) at 1 by lia.
    apply Day_back. }
  set (g := {| Legacy.filtros :=
                 Legacy.filtros_of
                   (Legacy.fechaFormateada_of (LocalTZA env) now);
               Legacy.campos := Legacy.campos_init |}).
  set (st1 := mkState (heap st) (trace st ++ [EvNewDate now])).
  destruct (legacy_root_times_run syntax_error_message g n env st1)
    as (resps & events & Hrun & Hev & _ & Hlen).
  exists g, st1, resps, (mkState (heap st1) (trace st1 ++ events)), events.
  split; [reflexivity |]. split; [exact Hrun |]. split; [exact Hlen |].
  split; [reflexivity |].
  rewrite Forall_forall in Hev. split.
  - intros e He. specialize (Hev e He).
    destruct e; try reflexivity. destruct Hev.
  - intros url q He. specialize (Hev _ He). cbn in Hev. subst q.
    cbn [Legacy.params_of p_where g Legacy.filtros Legacy.filtros_of].
    rewrite legacy_fechaFormateada_eq by exact Hnow.
    fold today. fold prev. unfold ayer, Legacy.filtros_of.
    rewrite <- !app_assoc. reflexivity.
Qed.

Lemma legacy_date_witness :
  exists g st1,
    Legacy.load monday_env init_state = (Ok g, st1) /\
    Legacy.filtros g
    = (js "fecha_de_publicacion_del >= '2025-04-20T00:00:00.000'")
      :: filtrosBase_init.
Proof.
  destruct (legacy_date_is_fixed_at_load (fun _ => []) monday_env init_state 0)
    as (_ & g & st1 & _ & _ & _ & Hload & _).
  - vm_compute. split; discriminate.
  - exists g, st1. split; [exact Hload |].
    cbv in Hload. injection Hload as <- _. vm_compute. reflexivity.
Defined.

(** X12.  The single route of the first server always answers with
    status 200: both [getSECOPData] and [analyseDataWithAI] catch their
    own failures, so the [catch] of the route, with its status 500, is
    never reached.  When the fetch fails the analysis is still requested,
    for the empty array. *)
Theorem legacy_root_always_200
  (syntax_error_message : list N -> list N) (g : Legacy.Globals)
  (env : Env) (st : State) :
  (exists evaluacion st',
     Legacy.root syntax_error_message g env st
     = (Ok (Legacy.Sent_json evaluacion), st')) /\
  Legacy.status_of
    (match (Legacy.root syntax_error_message g env st).1 with
     | Ok r => r
     | Throw _ => Legacy.Sent_text 500 []
     end) = 200 /\
  (forall m,
     http_get env (trace st) (BASE_URL env) (Legacy.params_of g) = Rejected m ->
     EvPost chatGPTUrl (authorization_header (API_KEY env))
            (Legacy.chat_payload (VArray []))
     ∈ trace (Legacy.root syntax_error_message g env st).2).
Proof.
  destruct (legacy_getSECOPData_run g env st)
    as (datos & log1 & Hget & _ & Hfail).
  destruct (legacy_analysis_run syntax_error_message datos env
              (mkState (heap st)
                 (trace st ++ EvGet (BASE_URL env) (Legacy.params_of g) :: log1)))
    as (log2 & Han & _).
  assert (Hroot :
    Legacy.root syntax_error_message g env st
    = (Ok (Legacy.Sent_json
             (Legacy.analysis_of
                (http_post env
                   (trace st ++ EvGet (BASE_URL env) (Legacy.params_of g) :: log1)
                   (Legacy.chat_payload datos)))),
       mkState (heap st)
         ((trace st ++ EvGet (BASE_URL env) (Legacy.params_of g) :: log1)
          ++ EvPost chatGPTUrl (authorization_header (API_KEY env))
                    (Legacy.chat_payload datos) :: log2))).
  { unfold Legacy.root, try_catch, bind. rewrite Hget, Han. reflexivity. }
  split; [by do 2 eexists |]. rewrite Hroot. split; [reflexivity |].
  intros m Hm. rewrite (Hfail m Hm). cbn [snd trace].
  apply elem_of_app. right. apply elem_of_cons. by left.
Qed.

Lemma legacy_root_witness :
  EvPost chatGPTUrl (js "Bearer undefined") (Legacy.chat_payload (VArray []))
  ∈ trace (Legacy.root (fun _ => [])
             monday_globals monday_env init_state).2.
Proof.
  destruct (legacy_root_always_200 (fun _ => []) monday_globals
              monday_env init_state) as (_ & _ & H).
  exact (H (js "connect ECONNREFUSED") eq_refl).
Defined.
